(** * Profile suggestions: from model text to a stored, validated record

    A shallow embedding of the suggestion pipeline of the learning-path
    template and of the query helper that tracks completed suggestions:

    - [src/lib/validation/schemas.ts]: [aiPromptSchema], [suggestionSchema],
      [aiResponseSchema], [validate];
    - [src/docs/ai-integration.md]: [buildProfileSuggestionPrompt],
      [parseSuggestions], the steps of [POST /api/profile/suggestions] and
      the two cost-optimisation snippets (rate limiting, caching);
    - the route file of [POST /api/profile/suggestions]: the [try]/[catch]
      frame of the handler;
    - the Supabase client helpers: [queries.profileSuggestions.getById] and
      [queries.profileSuggestions.markComplete].

    Part I holds the definitions, Part II the theorems.

    Part I also embeds the form schemas of [schemas.ts] ([passwordSchema],
    [passwordResetSchema], [profileUpdateSchema]) with [validateWithErrors]
    and [safeParse], the other queries of [queries.profileSuggestions], and
    [handleSubmit] of the guide's front-end component; Part III holds their
    properties. *)

From Stdlib Require Import String Ascii NArith ZArith Bool Arith Lia List.
From Stdlib Require Import DecimalString Permutation Sorted.
Import ListNotations.

(* ================================================================== *)
(** * Part I. Definitions *)
(* ================================================================== *)

(** ** JavaScript strings and the regular expressions of [parseSuggestions] *)

Module Js.

(** A JavaScript string is a sequence of UTF-16 code units; [length] is the
    [.length] property. *)
Definition jsstring := list N.

(** ASCII literals of the source. *)
Definition js (s : string) : jsstring :=
  map N_of_ascii (list_ascii_of_string s).

(** ASCII literals that hold double quotes: the apostrophe of the literal
    stands for the double quote. *)
Definition jsq (s : string) : jsstring :=
  map (fun c => if (c =? 39)%N then 34%N else c) (js s).

Fixpoint eqb (a b : jsstring) : bool :=
  match a, b with
  | [], [] => true
  | x :: a', y :: b' => N.eqb x y && eqb a' b'
  | _, _ => false
  end.

(** [WhiteSpace] and [LineTerminator] of ECMAScript: what [trim] strips and
    what [\s] matches. *)
Definition isWhiteSpace (c : N) : bool :=
  ((9 <=? c) && (c <=? 13) || (c =? 32) || (c =? 160) || (c =? 5760)
   || (8192 <=? c) && (c <=? 8202) || (c =? 8232) || (c =? 8233)
   || (c =? 8239) || (c =? 8287) || (c =? 12288) || (c =? 65279))%N.

Fixpoint trimStart (s : jsstring) : jsstring :=
  match s with
  | [] => []
  | c :: rest => if isWhiteSpace c then trimStart rest else s
  end.

Definition trimEnd (s : jsstring) : jsstring := rev (trimStart (rev s)).

(** [String.prototype.trim] *)
Definition trim (s : jsstring) : jsstring := trimEnd (trimStart s).

Fixpoint startsWith (p s : jsstring) : bool :=
  match p, s with
  | [], _ => true
  | x :: p', y :: s' => N.eqb x y && startsWith p' s'
  | _ :: _, [] => false
  end.

(** [occurs p s]: [p] is a substring of [s] ([s.includes(p)]). *)
Fixpoint occurs (p s : jsstring) : bool :=
  startsWith p s || match s with [] => false | _ :: rest => occurs p rest end.

(** A regular expression seen from one position of the subject: the length
    of its match starting there, if it matches there. *)
Definition matcher := jsstring -> option nat.

(** [s.replace(re, '')] with the [g] flag: scan from the left; at a match
    drop the matched code units and resume right after them, otherwise keep
    the code unit and move on by one.  [skip] counts the code units of the
    current match still to drop. *)
Fixpoint replaceFrom (re : matcher) (skip : nat) (s : jsstring) : jsstring :=
  match s with
  | [] => []
  | c :: rest =>
    match skip with
    | S k => replaceFrom re k rest
    | O =>
      match re s with
      | Some (S k) => replaceFrom re k rest
      | _ => c :: replaceFrom re 0 rest
      end
    end
  end.

Definition replaceAll (re : matcher) (s : jsstring) : jsstring :=
  replaceFrom re 0 s.

Definition backtick : N := 96.
Definition newline : N := 10.
Definition lbrace : N := 123.
Definition rbrace : N := 125.

(** The fence marker: three backticks. *)
Definition marker : jsstring := [backtick; backtick; backtick].

(** [/```json\n?/]: the optional newline is greedy. *)
Definition fenceJson : matcher := fun s =>
  if startsWith (marker ++ js "json" ++ [newline]) s then Some 8
  else if startsWith (marker ++ js "json") s then Some 7
  else None.

(** [/```\n?/] *)
Definition fence : matcher := fun s =>
  if startsWith (marker ++ [newline]) s then Some 4
  else if startsWith marker s then Some 3
  else None.

(** The tail [[\s\S]*\}] of the object pattern, tried right after an opening
    brace: the star is greedy, so the longest prefix that ends in a closing
    brace is taken; the answer is that prefix. *)
Fixpoint greedyToBrace (s : jsstring) : option jsstring :=
  match s with
  | [] => None
  | c :: rest =>
    match greedyToBrace rest with
    | Some m => Some (c :: m)
    | None => if N.eqb c rbrace then Some [c] else None
    end
  end.

(** [s.match(/\{[\s\S]*\}/)]: the leftmost start position at which the
    pattern matches wins; the answer is the matched text [jsonMatch[0]]. *)
Fixpoint matchObject (s : jsstring) : option jsstring :=
  match s with
  | [] => None
  | c :: rest =>
    if N.eqb c lbrace then
      match greedyToBrace rest with
      | Some m => Some (c :: m)
      | None => matchObject rest
      end
    else matchObject rest
  end.

(** [String.prototype.toLowerCase] on the ASCII letters. *)
Definition toLower (c : N) : N :=
  if ((65 <=? c) && (c <=? 90))%N then (c + 32)%N else c.

Definition toLowerCase (s : jsstring) : jsstring := map toLower s.

(** [a.join(sep)] *)
Fixpoint join (sep : jsstring) (parts : list jsstring) : jsstring :=
  match parts with
  | [] => []
  | [p] => p
  | p :: more => p ++ sep ++ join sep more
  end.

End Js.

Export Js.

(** ** JSON values and [JSON.parse] *)

Module Json.

(** A parsed JSON value.  No schema of this development looks inside a
    number, so a number keeps the text of its literal. *)
#[warnings="-register-all"]
Inductive json : Type :=
| JNull
| JBool (b : bool)
| JNum (literal : jsstring)
| JStr (s : jsstring)
| JArr (items : list json)
| JObj (members : list (jsstring * json)).

(** Property read [o[k]] on the members of an object. *)
Fixpoint field (k : jsstring) (members : list (jsstring * json)) : option json :=
  match members with
  | [] => None
  | (k', v) :: more => if Js.eqb k k' then Some v else field k more
  end.

(** Property write on the members of an object: a repeated key keeps its
    place and takes the later value. *)
Fixpoint setMember (k : jsstring) (v : json) (members : list (jsstring * json))
  : list (jsstring * json) :=
  match members with
  | [] => [(k, v)]
  | (k', v') :: more =>
    if Js.eqb k k' then (k', v) :: more else (k', v') :: setMember k v more
  end.

Definition quote : N := 34.

(** JSON whitespace: tab, line feed, carriage return, space. *)
Definition isJsonWs (c : N) : bool :=
  ((c =? 9) || (c =? 10) || (c =? 13) || (c =? 32))%N.

Fixpoint skipWs (s : jsstring) : jsstring :=
  match s with
  | [] => []
  | c :: rest => if isJsonWs c then skipWs rest else s
  end.

Definition isDigit (c : N) : bool := ((48 <=? c) && (c <=? 57))%N.

Definition hexValue (c : N) : option N :=
  if isDigit c then Some (c - 48)%N
  else if ((65 <=? c) && (c <=? 70))%N then Some (c - 55)%N
  else if ((97 <=? c) && (c <=? 102))%N then Some (c - 87)%N
  else None.

(** The single-character escapes of a JSON string. *)
Definition escape (c : N) : option N :=
  if (c =? 34)%N then Some 34%N
  else if (c =? 92)%N then Some 92%N
  else if (c =? 47)%N then Some 47%N
  else if (c =? 98)%N then Some 8%N
  else if (c =? 102)%N then Some 12%N
  else if (c =? 110)%N then Some 10%N
  else if (c =? 114)%N then Some 13%N
  else if (c =? 116)%N then Some 9%N
  else None.

Definition consChar (c : N) (r : option (jsstring * jsstring))
  : option (jsstring * jsstring) :=
  match r with
  | Some (str, rest) => Some (c :: str, rest)
  | None => None
  end.

(** The characters of a string literal after its opening quote, up to the
    closing quote; the answer is the string and the text after it. *)
Fixpoint parseString (s : jsstring) : option (jsstring * jsstring) :=
  match s with
  | [] => None
  | c :: r =>
    if (c =? quote)%N then Some ([], r)
    else if (c =? 92)%N then
      match r with
      | [] => None
      | e :: r' =>
        if (e =? 117)%N then
          match r' with
          | h1 :: h2 :: h3 :: h4 :: r'' =>
            match hexValue h1, hexValue h2, hexValue h3, hexValue h4 with
            | Some a, Some b, Some c', Some d =>
              consChar (((a * 16 + b) * 16 + c') * 16 + d)%N (parseString r'')
            | _, _, _, _ => None
            end
          | _ => None
          end
        else
          match escape e with
          | Some ch => consChar ch (parseString r')
          | None => None
          end
      end
    else if (c <? 32)%N then None
    else consChar c (parseString r)
  end.

Fixpoint spanDigits (s : jsstring) : jsstring * jsstring :=
  match s with
  | [] => ([], [])
  | c :: r =>
    if isDigit c then let (d, r') := spanDigits r in (c :: d, r') else ([], s)
  end.

(** A number literal: an optional minus sign, an integer part without a
    leading zero (unless it is the single digit zero), an optional fraction
    and an optional exponent. *)
Definition parseNumber (s : jsstring) : option (json * jsstring) :=
  let (sign, s1) :=
    match s with
    | c :: r => if (c =? 45)%N then ([c], r) else ([], s)
    | [] => ([], s)
    end in
  let (int, s2) := spanDigits s1 in
  let intOk :=
    match int with
    | [] => false
    | d :: more => negb (d =? 48)%N || match more with [] => true | _ => false end
    end in
  if negb intOk then None else
  let fracPart :=
    match s2 with
    | c :: r =>
      if (c =? 46)%N then
        let (f, r') := spanDigits r in
        match f with [] => None | _ => Some (c :: f, r') end
      else Some ([], s2)
    | [] => Some ([], s2)
    end in
  match fracPart with
  | None => None
  | Some (frac, s3) =>
    let expPart :=
      match s3 with
      | c :: r =>
        if ((c =? 101) || (c =? 69))%N then
          let (esign, r1) :=
            match r with
            | p :: r' => if ((p =? 43) || (p =? 45))%N then ([p], r') else ([], r)
            | [] => ([], r)
            end in
          let (e, r2) := spanDigits r1 in
          match e with [] => None | _ => Some (c :: esign ++ e, r2) end
        else Some ([], s3)
      | [] => Some ([], s3)
      end in
    match expPart with
    | None => None
    | Some (ex, s4) => Some (JNum (sign ++ int ++ frac ++ ex), s4)
    end
  end.

(** One JSON value at the head of the text, with the text after it.  The
    three functions follow the grammar; [fuel] bounds the number of nested
    calls, and [JSON_parse] below gives more than the text can use. *)
Fixpoint parseValue (fuel : nat) (s : jsstring) {struct fuel}
  : option (json * jsstring) :=
  match fuel with
  | O => None
  | S n =>
    match skipWs s with
    | [] => None
    | c :: rest =>
      if (c =? 123)%N then
        match skipWs rest with
        | [] => None
        | d :: rest' =>
          if (d =? 125)%N then Some (JObj [], rest') else parseMembers n [] rest
        end
      else if (c =? 91)%N then
        match skipWs rest with
        | [] => None
        | d :: rest' =>
          if (d =? 93)%N then Some (JArr [], rest') else parseElements n [] rest
        end
      else if (c =? quote)%N then
        match parseString rest with
        | Some (str, r) => Some (JStr str, r)
        | None => None
        end
      else if startsWith (js "true") (c :: rest) then
        Some (JBool true, skipn 3 rest)
      else if startsWith (js "false") (c :: rest) then
        Some (JBool false, skipn 4 rest)
      else if startsWith (js "null") (c :: rest) then
        Some (JNull, skipn 3 rest)
      else parseNumber (c :: rest)
    end
  end
with parseElements (fuel : nat) (acc : list json) (s : jsstring) {struct fuel}
  : option (json * jsstring) :=
  match fuel with
  | O => None
  | S n =>
    match parseValue n s with
    | None => None
    | Some (v, r) =>
      match skipWs r with
      | [] => None
      | d :: r' =>
        if (d =? 44)%N then parseElements n (acc ++ [v]) r'
        else if (d =? 93)%N then Some (JArr (acc ++ [v]), r')
        else None
      end
    end
  end
with parseMembers (fuel : nat) (acc : list (jsstring * json)) (s : jsstring)
  {struct fuel} : option (json * jsstring) :=
  match fuel with
  | O => None
  | S n =>
    match skipWs s with
    | [] => None
    | q :: r0 =>
      if negb (q =? quote)%N then None else
      match parseString r0 with
      | None => None
      | Some (k, r1) =>
        match skipWs r1 with
        | [] => None
        | colon :: r2 =>
          if negb (colon =? 58)%N then None else
          match parseValue n r2 with
          | None => None
          | Some (v, r3) =>
            match skipWs r3 with
            | [] => None
            | d :: r4 =>
              if (d =? 44)%N then parseMembers n (setMember k v acc) r4
              else if (d =? 125)%N then Some (JObj (setMember k v acc), r4)
              else None
            end
          end
        end
      end
    end
  end.

(** [JSON.parse(text)] without a reviver; [None] stands for the thrown
    [SyntaxError]. *)
Definition JSON_parse (text : jsstring) : option json :=
  match parseValue (S (length text)) text with
  | Some (v, rest) => match skipWs rest with [] => Some v | _ => None end
  | None => None
  end.

End Json.

Export Json.

(** ** The Zod schemas of [src/lib/validation/schemas.ts] *)

Module Zod.

Inductive PathItem : Type :=
| Key (k : jsstring)
| Index (i : nat).

(** Issue codes of the library, for the issues whose message the source does
    not give. *)
Inductive IssueCode : Type :=
| invalid_type
| invalid_value
| too_small
| too_big.

Inductive Message : Type :=
| Custom (text : jsstring)
| Default (code : IssueCode).

Record Issue : Type := mkIssue { path : list PathItem; message : Message }.

(** The result of [schema.safeParse(data)]. *)
Inductive Parsed (T : Type) : Type :=
| Success (data : T)
| Failure (issues : list Issue).

Arguments Success {T} data.
Arguments Failure {T} issues.

(** A schema reads an [unknown] value; [None] is [undefined], the value of a
    property that is missing. *)
Definition Schema (T : Type) : Type := option json -> Parsed T.

Definition issuesOf {T : Type} (r : Parsed T) : list Issue :=
  match r with
  | Success _ => []
  | Failure issues => issues
  end.

Definition prefixIssues (p : PathItem) (issues : list Issue) : list Issue :=
  map (fun i => mkIssue (p :: path i) (message i)) issues.

(** The checks chained on [z.string()]; they run in the order written, each
    on the value the previous ones left, so a [Trim] placed last trims
    after the length checks have looked at the untrimmed input. *)
Inductive StringCheck : Type :=
| Min (n : nat) (msg : Message)
| Max (n : nat) (msg : Message)
| Trim.

Fixpoint runChecks (checks : list StringCheck) (s : jsstring)
  : jsstring * list Issue :=
  match checks with
  | [] => (s, [])
  | Min n msg :: more =>
    let (out, issues) := runChecks more s in
    (out, if length s <? n then mkIssue [] msg :: issues else issues)
  | Max n msg :: more =>
    let (out, issues) := runChecks more s in
    (out, if n <? length s then mkIssue [] msg :: issues else issues)
  | Trim :: more => runChecks more (trim s)
  end.

(** The length checks on a value that is no string.  The issue of the type
    stops the checks that follow it, except those that look at a length:
    they run on whatever has one, and of the values of JSON an array has one
    too, the number of its elements (an object with a key named [length] is
    left aside). *)
Fixpoint lengthIssues (checks : list StringCheck) (n : nat) : list Issue :=
  match checks with
  | [] => []
  | Min k msg :: more =>
    (if n <? k then [mkIssue [] msg] else []) ++ lengthIssues more n
  | Max k msg :: more =>
    (if k <? n then [mkIssue [] msg] else []) ++ lengthIssues more n
  | Trim :: more => lengthIssues more n
  end.

(** [z.string()] followed by [checks] *)
Definition zString (checks : list StringCheck) : Schema jsstring := fun input =>
  match input with
  | Some (JStr s) =>
    match runChecks checks s with
    | (out, []) => Success out
    | (_, issues) => Failure issues
    end
  | Some (JArr elems) =>
    Failure (mkIssue [] (Default invalid_type) :: lengthIssues checks (length elems))
  | _ => Failure [mkIssue [] (Default invalid_type)]
  end.

(** [.optional()] *)
Definition zOptional {T : Type} (inner : Schema T) : Schema (option T) :=
  fun input =>
  match input with
  | None => Success None
  | Some _ =>
    match inner input with
    | Success v => Success (Some v)
    | Failure issues => Failure issues
    end
  end.

(** The elements of [z.array(elem)], the first of them at index [i]. *)
Fixpoint zElements {T : Type} (elem : Schema T) (i : nat) (items : list json)
  : list T * list Issue :=
  match items with
  | [] => ([], [])
  | v :: more =>
    let (outs, issues) := zElements elem (S i) more in
    match elem (Some v) with
    | Success out => (out :: outs, issues)
    | Failure here => (outs, prefixIssues (Index i) here ++ issues)
    end
  end.

(** The issues of [.min(lo).max(hi)] for a length. *)
Definition sizeIssues (lo hi n : nat) : list Issue :=
  (if n <? lo then [mkIssue [] (Default too_small)] else [])
  ++ (if hi <? n then [mkIssue [] (Default too_big)] else []).

(** [z.array(elem).min(lo).max(hi)]; on a string, which has a length too,
    the two checks of the size still run after the issue of the type. *)
Definition zArray {T : Type} (elem : Schema T) (lo hi : nat) : Schema (list T) :=
  fun input =>
  match input with
  | Some (JArr items) =>
    let (outs, issues) := zElements elem 0 items in
    match issues ++ sizeIssues lo hi (length items) with
    | [] => Success outs
    | all => Failure all
    end
  | Some (JStr s) =>
    Failure (mkIssue [] (Default invalid_type) :: sizeIssues lo hi (length s))
  | _ => Failure [mkIssue [] (Default invalid_type)]
  end.

Inductive ExperienceLevel : Type := beginner | intermediate | advanced.

Definition levelName (l : ExperienceLevel) : jsstring :=
  match l with
  | beginner => js "beginner"
  | intermediate => js "intermediate"
  | advanced => js "advanced"
  end.

(** [z.enum(['beginner', 'intermediate', 'advanced'])] *)
Definition experienceLevelEnum : Schema ExperienceLevel := fun input =>
  match input with
  | Some (JStr s) =>
    if Js.eqb s (js "beginner") then Success beginner
    else if Js.eqb s (js "intermediate") then Success intermediate
    else if Js.eqb s (js "advanced") then Success advanced
    else Failure [mkIssue [] (Default invalid_value)]
  | _ => Failure [mkIssue [] (Default invalid_value)]
  end.

Record AiPromptInput : Type := mkAiPromptInput {
  userBackground : jsstring;
  currentGoals : option jsstring;
  experienceLevel : ExperienceLevel }.

Definition backgroundTooShort : Message :=
  Custom (js "Please provide more details about your background (at least 10 characters)").
Definition backgroundTooLong : Message :=
  Custom (js "Background description is too long (max 2000 characters)").
Definition goalsTooLong : Message :=
  Custom (js "Goals description is too long (max 1000 characters)").

Definition userBackgroundSchema : Schema jsstring :=
  zString [Min 10 backgroundTooShort; Max 2000 backgroundTooLong; Trim].

Definition currentGoalsSchema : Schema (option jsstring) :=
  zOptional (zString [Max 1000 goalsTooLong; Trim]).

(** [aiPromptSchema]: unknown keys of the input are dropped. *)
Definition aiPromptSchema : Schema AiPromptInput := fun input =>
  match input with
  | Some (JObj members) =>
    let b := userBackgroundSchema (field (js "userBackground") members) in
    let g := currentGoalsSchema (field (js "currentGoals") members) in
    let l := experienceLevelEnum (field (js "experienceLevel") members) in
    match b, g, l with
    | Success b', Success g', Success l' => Success (mkAiPromptInput b' g' l')
    | _, _, _ =>
      Failure (prefixIssues (Key (js "userBackground")) (issuesOf b)
               ++ prefixIssues (Key (js "currentGoals")) (issuesOf g)
               ++ prefixIssues (Key (js "experienceLevel")) (issuesOf l))
    end
  | _ => Failure [mkIssue [] (Default invalid_type)]
  end.

Record Suggestion : Type := mkSuggestion {
  title : jsstring;
  reason : jsstring;
  action : jsstring }.

(** [suggestionSchema] *)
Definition suggestionSchema : Schema Suggestion := fun input =>
  match input with
  | Some (JObj members) =>
    let t := zString [Min 1 (Custom (js "Title is required"))]
               (field (js "title") members) in
    let r := zString [Min 1 (Custom (js "Reason is required"))]
               (field (js "reason") members) in
    let a := zString [Min 1 (Custom (js "Action is required"))]
               (field (js "action") members) in
    match t, r, a with
    | Success t', Success r', Success a' => Success (mkSuggestion t' r' a')
    | _, _, _ =>
      Failure (prefixIssues (Key (js "title")) (issuesOf t)
               ++ prefixIssues (Key (js "reason")) (issuesOf r)
               ++ prefixIssues (Key (js "action")) (issuesOf a))
    end
  | _ => Failure [mkIssue [] (Default invalid_type)]
  end.

Record AiResponse : Type := mkAiResponse { suggestions : list Suggestion }.

(** [aiResponseSchema] *)
Definition aiResponseSchema : Schema AiResponse := fun input =>
  match input with
  | Some (JObj members) =>
    match zArray suggestionSchema 1 10 (field (js "suggestions") members) with
    | Success items => Success (mkAiResponse items)
    | Failure issues => Failure (prefixIssues (Key (js "suggestions")) issues)
    end
  | _ => Failure [mkIssue [] (Default invalid_type)]
  end.

(** What a [throw] carries. *)
Inductive Error : Type :=
| ValidationFailed (issues : list Issue)
    (* new Error(`Validation failed: ${errors.join(', ')}`) of [validate] *)
| ZodError (issues : list Issue)          (* thrown by [schema.parse] *)
| SyntaxError                             (* thrown by [JSON.parse] *)
| ErrorOf (msg : jsstring)                (* new Error(msg) *)
| Rejected (what : jsstring).             (* a collaborator's call that rejects *)

(** A call that returns or throws. *)
Inductive Result (T : Type) : Type :=
| Ok (v : T)
| Throw (e : Error).

Arguments Ok {T} v.
Arguments Throw {T} e.

(** [validate(schema, data)] *)
Definition validate {T : Type} (schema : Schema T) (data : json) : Result T :=
  match schema (Some data) with
  | Success v => Ok v
  | Failure issues => Throw (ValidationFailed issues)
  end.

(** [schema.parse(data)] *)
Definition parse {T : Type} (schema : Schema T) (data : json) : Result T :=
  match schema (Some data) with
  | Success v => Ok v
  | Failure issues => Throw (ZodError issues)
  end.

End Zod.

Export Zod.

(** ** The table [profile_suggestions] and the queries made on it *)

Module Db.

(** [CompletedSuggestion] of [src/types/index.ts]; [completedAt] is the ISO
    text of an instant. *)
Record CompletedSuggestion : Type := mkCompleted {
  suggestionId : jsstring;
  completedAt : jsstring;
  notes : option jsstring }.

(** A row of [profile_suggestions].  The two [jsonb] payload columns hold
    JSON values; instants are milliseconds since the epoch. *)
Record Row : Type := mkRow {
  row_id : jsstring;
  user_id : jsstring;
  row_suggestions : json;
  input_data : json;
  created_at : Z;
  viewed_at : option Z;
  completed_suggestions : option (list CompletedSuggestion);
  rating : option Z }.

Definition Table : Type := list Row.

(** The [->] operator on a [jsonb] column. *)
Definition arrow (v : json) (k : jsstring) : option json :=
  match v with
  | JObj members => field k members
  | _ => None
  end.

(** SQL [LIKE]: [%] stands for any run of characters, [_] for any one
    character, a backslash makes the next pattern character literal, and the
    pattern has to cover the whole text. *)
Fixpoint like (p t : jsstring) {struct p} : bool :=
  match p with
  | [] => match t with [] => true | _ :: _ => false end
  | c :: p' =>
    if (c =? 37)%N then
      (fix any (u : jsstring) : bool :=
         like p' u || match u with [] => false | _ :: u' => any u' end) t
    else if (c =? 95)%N then
      match t with [] => false | _ :: t' => like p' t' end
    else if (c =? 92)%N then
      match p' with
      | [] => false
      | e :: p'' =>
        match t with [] => false | d :: t' => (d =? e)%N && like p'' t' end
      end
    else
      match t with [] => false | d :: t' => (d =? c)%N && like p' t' end
  end.

(** The [ilike] filter of the query builder: [*] in the pattern is written
    for [%], and letters match whatever their case. *)
Definition ilike (text pattern : jsstring) : bool :=
  like (toLowerCase (map (fun c => if (c =? 42)%N then 37%N else c) pattern))
       (toLowerCase text).

(** [.limit(1).single()]: the first row that passes the filters, if any. *)
Definition single (rows : list Row) : option Row := hd_error rows.

(** What the table answers to a query: the rows, or an error with its
    code. *)
Inductive Answer : Type :=
| Data (rows : list Row)
| Refused (code : string).

(** [data] of an answer: nothing when the query was refused. *)
Definition dataOf (a : Answer) : list Row :=
  match a with
  | Data rows => rows
  | Refused _ => []
  end.

(** The query [.eq('input_data->experienceLevel', level)
    .ilike('input_data->userBackground', pattern)].  [input_data] is a
    [jsonb] column of the migration and [->] gives a [jsonb] value, so the
    table reads the text it is compared with as JSON.  The name of a level
    is no JSON text, whichever of the three it is, so the table refuses the
    query whatever the pattern and the rows: error 22P02, invalid input
    syntax for type json. *)
Definition cacheQuery (level : ExperienceLevel) (pattern : jsstring)
    (t : Table) : Answer :=
  Refused "22P02".

End Db.

Export Db.

(** ** [POST /api/profile/suggestions] *)

Module Route.

(** *** [parseSuggestions] *)

Section Parse.

(** [JSON.parse] is the runtime's; [None] is its [SyntaxError]. *)
Variable JSON_parse : jsstring -> option json.

(** The two [replace] calls of [parseSuggestions], in their order. *)
Definition stripFences (s : jsstring) : jsstring :=
  replaceAll fence (replaceAll fenceJson s).

(** The cleaning and extraction steps of [parseSuggestions]: trim, drop the
    fence markers, take the brace-delimited text.  [None] is the path that
    throws [Error('No JSON found in response')]. *)
Definition normalize (rawResponse : jsstring) : option jsstring :=
  let cleaned := trim rawResponse in
  let cleaned := stripFences cleaned in
  matchObject cleaned.

(** [JSON.parse(jsonMatch[0])] followed by [aiResponseSchema.parse(parsed)],
    then [validated.suggestions]. *)
Definition validateCandidate (candidate : jsstring) : Result (list Suggestion) :=
  match JSON_parse candidate with
  | None => Throw SyntaxError
  | Some parsed =>
    match parse aiResponseSchema parsed with
    | Ok validated => Ok (suggestions validated)
    | Throw e => Throw e
    end
  end.

(** The [try] block of [parseSuggestions]. *)
Definition tryParse (rawResponse : jsstring) : Result (list Suggestion) :=
  match normalize rawResponse with
  | None => Throw (ErrorOf (js "No JSON found in response"))
  | Some jsonMatch => validateCandidate jsonMatch
  end.

(** The literal returned by the [catch] block of [parseSuggestions]. *)
Definition fallback : list Suggestion :=
  [ mkSuggestion
      (js "Start with Fundamentals")
      (js "Building a strong foundation is crucial for long-term growth as a developer.")
      (js "Complete one online tutorial on core programming concepts this week.") ].

Definition parseSuggestions (rawResponse : jsstring) : list Suggestion :=
  match tryParse rawResponse with
  | Ok validated => validated
  | Throw _ => fallback
  end.

End Parse.

(** *** The handler *)

Record User : Type := mkUser { userId : jsstring }.

(** [NextResponse.json(body, { status })] *)
Record Response : Type := mkResponse { status : Z; body : json }.

Inductive LogArg : Type :=
| LogError (e : Error)
| LogText (s : jsstring).

(** What the handler does to the outside, in order. *)
Inductive Event : Type :=
| ConsoleError (label : jsstring) (arg : LogArg)
| AuthGetUser
| SelectRecent (user : jsstring) (since : Z)
| SelectCached (level : ExperienceLevel) (pattern : jsstring)
| OpenAICreate (prompt : jsstring)
| Insert (user : jsstring) (suggestions input : json).

Record World : Type := mkWorld { table : Table; trace : list Event }.

(** What one request finds outside the handler. *)
Record Env : Type := mkEnv {
  req_json : Result json;             (* await req.json() *)
  createServiceClient : Result unit;  (* throws when the environment is not set *)
  auth_getUser : option User;         (* [user], unless [error || !user] *)
  Date_now : Z;                       (* the clock, in milliseconds *)
  now_toISOString : jsstring;         (* new Date().toISOString() *)
  firstFewWords : jsstring;           (* bound outside the caching snippet *)
  openai_create : jsstring -> Result (option jsstring);
                                      (* completion.choices[0].message.content *)
  insert_fails : bool;                (* the insert answers with an [error] *)
  uuid_generate_v4 : jsstring }.      (* the [id] the table gives a new row *)

(** A step of the handler goes on, returns a response, or throws. *)
Inductive Flow (T : Type) : Type :=
| Next (v : T)
| Return (r : Response)
| Raise (e : Error).

Arguments Next {T} v.
Arguments Return {T} r.
Arguments Raise {T} e.

Definition M (T : Type) : Type := World -> Flow T * World.

Definition ret {T : Type} (v : T) : M T := fun w => (Next v, w).

Definition bind {T U : Type} (m : M T) (k : T -> M U) : M U := fun w =>
  match m w with
  | (Next v, w') => k v w'
  | (Return r, w') => (Return r, w')
  | (Raise e, w') => (Raise e, w')
  end.

Notation "x <- m ;; k" := (bind m (fun x => k))
  (at level 61, m at next level, right associativity).

Definition respond {T : Type} (r : Response) : M T := fun w => (Return r, w).

Definition await {T : Type} (r : Result T) : M T := fun w =>
  match r with
  | Ok v => (Next v, w)
  | Throw e => (Raise e, w)
  end.

Definition emit (e : Event) : M unit := fun w =>
  (Next tt, mkWorld (table w) (trace w ++ [e])).

Definition emitAll (es : list Event) : M unit := fun w =>
  (Next tt, mkWorld (table w) (trace w ++ es)).

Definition dq (s : string) : jsstring := [quote] ++ js s ++ [quote].

Definition suggestionJson (s : Suggestion) : json :=
  JObj [ (js "title", JStr (title s));
         (js "reason", JStr (reason s));
         (js "action", JStr (action s)) ].

Definition suggestionsJson (l : list Suggestion) : json :=
  JArr (map suggestionJson l).

(** [validated] as stored in [input_data]: an absent [currentGoals] leaves
    no key. *)
Definition inputJson (v : AiPromptInput) : json :=
  JObj ([ (js "userBackground", JStr (userBackground v)) ]
        ++ match currentGoals v with
           | Some g => [ (js "currentGoals", JStr g) ]
           | None => []
           end
        ++ [ (js "experienceLevel", JStr (levelName (experienceLevel v))) ]).

(** [buildProfileSuggestionPrompt] *)
Definition buildProfileSuggestionPrompt (data : AiPromptInput) : jsstring :=
  trim (join [newline]
    [ [];
      js "I'm a " ++ levelName (experienceLevel data)
        ++ js " software engineer who wants to improve my skills.";
      [];
      js "Background: " ++ userBackground data;
      match currentGoals data with
      | Some (c :: g) => js "Current Goals: " ++ c :: g
      | _ => []
      end;
      [];
      js "Based on this information, suggest 3-5 specific things I should focus on to grow as a developer.";
      [];
      js "For each suggestion, provide:";
      js "1. Title: Name of the skill or area";
      js "2. Reason: Why it's relevant to my specific background";
      js "3. Action: One concrete step I can take THIS WEEK";
      [];
      js "IMPORTANT: Return ONLY valid JSON in this exact format, with no markdown or extra text:";
      [];
      js "{";
      js "  " ++ dq "suggestions" ++ js ": [";
      js "    {";
      js "      " ++ dq "title" ++ js ": " ++ dq "Skill name" ++ js ",";
      js "      " ++ dq "reason" ++ js ": "
        ++ dq "Why this matters for your background" ++ js ",";
      js "      " ++ dq "action" ++ js ": "
        ++ dq "Specific action you can take this week";
      js "    }";
      js "  ]";
      js "}";
      [] ]).

Definition errorBody (msg : string) : json := JObj [ (js "error", JStr (js msg)) ].

Definition unauthorized : Response := mkResponse 401 (errorBody "Unauthorized").

Definition oncePerDay : Response :=
  mkResponse 429 (errorBody "You can only get suggestions once per day").

Definition failed : Response :=
  mkResponse 500 (errorBody "Failed to generate suggestions").

Definition cachedResponse (stored : json) : Response :=
  mkResponse 200
    (JObj [ (js "success", JBool true);
            (js "suggestions", stored);
            (js "cached", JBool true) ]).

Definition successResponse (suggestions : list Suggestion)
    (level : ExperienceLevel) (timestamp : jsstring) : Response :=
  mkResponse 200
    (JObj [ (js "success", JBool true);
            (js "suggestions", suggestionsJson suggestions);
            (js "metadata",
             JObj [ (js "experienceLevel", JStr (levelName level));
                    (js "timestamp", JStr timestamp) ]) ]).

Definition day : Z := 24 * 60 * 60 * 1000.

Section Handler.

Variable JSON_parse : jsstring -> option json.
Variable env : Env.

(** The rate-limiting query: a row of the user created in the last 24 hours
    ([gte]: a row exactly 24 hours old still counts). *)
Definition recentRows (user : User) (t : Table) : list Row :=
  filter (fun r => Js.eqb (user_id r) (userId user)
                   && (Date_now env - day <=? created_at r)%Z) t.

Definition selectRecent (user : User) : M (option Row) := fun w =>
  (Next (single (recentRows user (table w))),
   mkWorld (table w) (trace w ++ [SelectRecent (userId user) (Date_now env - day)])).

(** The caching query: the experience level, and the pattern made of
    [firstFewWords] between two [%].  The query has no filter on the user.
    The snippet reads [data] of the answer and not its [error]. *)
Definition cachePattern : jsstring := [37%N] ++ firstFewWords env ++ [37%N].

Definition cachedRows (validated : AiPromptInput) (t : Table) : list Row :=
  dataOf (cacheQuery (experienceLevel validated) cachePattern t).

Definition selectCached (validated : AiPromptInput) : M (option Row) := fun w =>
  (Next (single (cachedRows validated (table w))),
   mkWorld (table w)
     (trace w ++ [SelectCached (experienceLevel validated) cachePattern])).

(** The row the table makes of an insert: [id], [created_at] and
    [completed_suggestions] take their column defaults. *)
Definition newRow (user : User) (suggestions : list Suggestion)
    (validated : AiPromptInput) : Row :=
  mkRow (uuid_generate_v4 env) (userId user) (suggestionsJson suggestions)
        (inputJson validated) (Date_now env) None (Some []) None.

(** [supabase.from('profile_suggestions').insert(...)]; the answer tells
    whether [dbError] is set. *)
Definition insert (user : User) (suggestions : list Suggestion)
    (validated : AiPromptInput) : M bool := fun w =>
  let ev := Insert (userId user) (suggestionsJson suggestions) (inputJson validated) in
  if insert_fails env
  then (Next true, mkWorld (table w) (trace w ++ [ev]))
  else (Next false,
        mkWorld (table w ++ [newRow user suggestions validated]) (trace w ++ [ev])).

(** What [parseSuggestions] writes to the console when its [try] block
    throws. *)
Definition parseLog (rawResponse : jsstring) : list Event :=
  match tryParse JSON_parse rawResponse with
  | Ok _ => []
  | Throw error =>
    [ ConsoleError (js "Failed to parse AI response:") (LogError error);
      ConsoleError (js "Raw response:") (LogText rawResponse) ]
  end.

(** The steps after authentication: the two cost-optimisation snippets in
    the order the guide lists them, then steps 2 to 6. *)
Definition generate (user : User) (validated : AiPromptInput) : M Response :=
  recentSuggestion <- selectRecent user ;;
  match recentSuggestion with
  | Some _ => respond oncePerDay
  | None =>
    cachedSuggestions <- selectCached validated ;;
    match cachedSuggestions with
    | Some row => respond (cachedResponse (row_suggestions row))
    | None =>
      let prompt := buildProfileSuggestionPrompt validated in
      _ <- emit (OpenAICreate prompt) ;;
      aiResponse <- await (openai_create env prompt) ;;
      let raw := match aiResponse with Some s => s | None => [] end in
      let suggestions := parseSuggestions JSON_parse raw in
      _ <- emitAll (parseLog raw) ;;
      dbError <- insert user suggestions validated ;;
      _ <- (if dbError : bool
            then emit (ConsoleError (js "Database error:")
                         (LogError (Rejected (js "insert"))))
            else ret tt) ;;
      respond (successResponse suggestions (experienceLevel validated)
                 (now_toISOString env))
    end
  end.

(** The [try] block of the handler. *)
Definition tryBlock : M Response :=
  body <- await (req_json env) ;;
  validated <- await (validate aiPromptSchema body) ;;
  _ <- await (createServiceClient env) ;;
  _ <- emit AuthGetUser ;;
  match auth_getUser env with
  | None => respond unauthorized
  | Some user => generate user validated
  end.

(** The handler: the steps of the guide inside the [try] of the route file.
    The guide leaves its own [catch] block empty; the one of the route file
    logs whatever is thrown and answers with status 500 and one text for
    every error, under comments that plan status 400 for validation errors
    and 503 for errors of the completion call. *)
Definition POST (w : World) : Response * World :=
  match tryBlock w with
  | (Next r, w') => (r, w')
  | (Return r, w') => (r, w')
  | (Raise error, w') =>
    (failed,
     mkWorld (table w')
       (trace w' ++ [ConsoleError (js "Profile suggestions error:") (LogError error)]))
  end.

(** The request gets past validation and authentication with [validated]
    and [user]. *)
Definition authenticated (validated : AiPromptInput) (user : User) : Prop :=
  exists body,
    req_json env = Ok body
    /\ validate aiPromptSchema body = Ok validated
    /\ createServiceClient env = Ok tt
    /\ auth_getUser env = Some user.

(** What the [catch] block of the handler leaves behind. *)
Definition caught (error : Error) (w : World) : Response * World :=
  (failed,
   mkWorld (table w)
     (trace w ++ [ConsoleError (js "Profile suggestions error:") (LogError error)])).

(** The queries of a request that reaches the rate limiter, and of one that
    reaches the cache. *)
Definition rateTrace (user : User) : list Event :=
  [AuthGetUser; SelectRecent (userId user) (Date_now env - day)].

Definition cacheTrace (user : User) (validated : AiPromptInput) : list Event :=
  rateTrace user ++ [SelectCached (experienceLevel validated) cachePattern].

(** The ways a call of the handler ends, each with the answer and the world
    it leaves. *)
Inductive Path (w : World) : Response * World -> Prop :=
| path_thrown (e : Error) :
    req_json env = Throw e
    \/ (exists body,
          req_json env = Ok body /\ validate aiPromptSchema body = Throw e)
    \/ (exists body validated,
          req_json env = Ok body /\ validate aiPromptSchema body = Ok validated
          /\ createServiceClient env = Throw e) ->
    Path w (caught e w)
| path_unauthorized (body : json) (validated : AiPromptInput) :
    req_json env = Ok body -> validate aiPromptSchema body = Ok validated ->
    createServiceClient env = Ok tt -> auth_getUser env = None ->
    Path w (unauthorized, mkWorld (table w) (trace w ++ [AuthGetUser]))
| path_rate_limited (validated : AiPromptInput) (user : User)
    (r : Row) (more : list Row) :
    authenticated validated user ->
    recentRows user (table w) = r :: more ->
    Path w (oncePerDay, mkWorld (table w) (trace w ++ rateTrace user))
| path_cache_hit (validated : AiPromptInput) (user : User)
    (row : Row) (more : list Row) :
    authenticated validated user ->
    recentRows user (table w) = [] ->
    cachedRows validated (table w) = row :: more ->
    Path w (cachedResponse (row_suggestions row),
            mkWorld (table w) (trace w ++ cacheTrace user validated))
| path_gateway_threw (validated : AiPromptInput) (user : User) (e : Error) :
    authenticated validated user ->
    recentRows user (table w) = [] ->
    cachedRows validated (table w) = [] ->
    openai_create env (buildProfileSuggestionPrompt validated) = Throw e ->
    Path w (caught e
              (mkWorld (table w)
                 (trace w ++ cacheTrace user validated
                  ++ [OpenAICreate (buildProfileSuggestionPrompt validated)])))
| path_generated (validated : AiPromptInput) (user : User)
    (content : option jsstring) :
    authenticated validated user ->
    recentRows user (table w) = [] ->
    cachedRows validated (table w) = [] ->
    openai_create env (buildProfileSuggestionPrompt validated) = Ok content ->
    let raw := match content with Some s => s | None => [] end in
    let suggestions := parseSuggestions JSON_parse raw in
    let events :=
      cacheTrace user validated
      ++ [OpenAICreate (buildProfileSuggestionPrompt validated)]
      ++ parseLog raw
      ++ [Insert (userId user) (suggestionsJson suggestions) (inputJson validated)] in
    Path w
      (successResponse suggestions (experienceLevel validated) (now_toISOString env),
       if insert_fails env
       then mkWorld (table w)
              (trace w ++ events
               ++ [ConsoleError (js "Database error:")
                     (LogError (Rejected (js "insert")))])
       else mkWorld (table w ++ [newRow user suggestions validated])
              (trace w ++ events)).

End Handler.

(** Every stored record holds a sequence of 1 to 10 suggestions. *)
Definition storedOk (t : Table) : Prop :=
  Forall (fun r => exists l, row_suggestions r = JArr l /\ 1 <= length l <= 10) t.

(** The response carries a sequence of 1 to 10 suggestions. *)
Definition carriesItems (r : Response) : Prop :=
  exists l, arrow (body r) (js "suggestions") = Some (JArr l)
            /\ 1 <= length l <= 10.

End Route.

Export Route.

(** ** [queries.profileSuggestions] of the Supabase client helpers *)

Module Queries.

(** What one call finds outside. *)
Record Env : Type := mkEnv {
  getCurrentUser : option User;      (* [null] when there is no session *)
  now_toISOString : jsstring;        (* new Date().toISOString() *)
  select_fails : bool;               (* the select answers with another error
                                        than PGRST116 *)
  update_fails : bool }.             (* the update answers with an error *)

Definition owns (user : User) (id : jsstring) (r : Row) : bool :=
  Js.eqb (row_id r) id && Js.eqb (user_id r) (userId user).

(** [getById]: [.single()] gives the row when exactly one passes the
    filters; otherwise its error is PGRST116, which is let through, and the
    answer is [null]. *)
Definition getById (env : Env) (id : jsstring) (t : Table) : Result (option Row) :=
  match getCurrentUser env with
  | None => Ok None
  | Some user =>
    if select_fails env then Throw (Rejected (js "select"))
    else
      match filter (owns user id) t with
      | [data] => Ok (Some data)
      | _ => Ok None
      end
  end.

Definition setCompleted (c : list CompletedSuggestion) (r : Row) : Row :=
  mkRow (row_id r) (user_id r) (row_suggestions r) (input_data r)
        (created_at r) (viewed_at r) (Some c) (rating r).

(** [.update({ completed_suggestions }).eq('id', id).eq('user_id', user.id)] *)
Definition updateCompleted (user : User) (id : jsstring)
    (c : list CompletedSuggestion) (t : Table) : Table :=
  map (fun r => if owns user id r then setCompleted c r else r) t.

(** [markComplete]: the answer and the table after the call. *)
Definition markComplete (env : Env) (id suggestionId : jsstring)
    (notes : option jsstring) (t : Table) : Result Row * Table :=
  match getCurrentUser env with
  | None => (Throw (ErrorOf (js "Not authenticated")), t)
  | Some user =>
    match getById env id t with
    | Throw e => (Throw e, t)
    | Ok None => (Throw (ErrorOf (js "Suggestion not found")), t)
    | Ok (Some current) =>
      let completedSuggestions :=
        match completed_suggestions current with
        | Some l => l
        | None => []
        end in
      if existsb (fun c => Js.eqb (Db.suggestionId c) suggestionId)
                 completedSuggestions
      then (Ok current, t)
      else
        let completedSuggestions :=
          completedSuggestions
          ++ [mkCompleted suggestionId (now_toISOString env) notes] in
        if update_fails env then (Throw (Rejected (js "update")), t)
        else
          let t' := updateCompleted user id completedSuggestions t in
          match filter (owns user id) t' with
          | [data] => (Ok data, t')
          | _ => (Throw (Rejected (js "update")), t')
          end
    end
  end.

End Queries.

(** ** The words of the specification *)

Module SpecModel.

(** [s.indexOf(c)] *)
Fixpoint indexOf (c : N) (s : jsstring) : option nat :=
  match s with
  | [] => None
  | d :: rest =>
    if N.eqb d c then Some 0
    else match indexOf c rest with Some i => Some (S i) | None => None end
  end.

(** [s.lastIndexOf(c)] *)
Fixpoint lastIndexOf (c : N) (s : jsstring) : option nat :=
  match s with
  | [] => None
  | d :: rest =>
    match lastIndexOf c rest with
    | Some i => Some (S i)
    | None => if N.eqb d c then Some 0 else None
    end
  end.

(** [s.substring(i, j)] for [i <= j] *)
Definition substring (i j : nat) (s : jsstring) : jsstring :=
  firstn (j - i) (skipn i s).

(** The extraction step in the words of the specification: from the first
    opening brace to the last closing brace, both included; nothing when the
    text has no opening brace before a closing one. *)
Definition braceSpan (s : jsstring) : option jsstring :=
  match indexOf lbrace s, lastIndexOf rbrace s with
  | Some i, Some k => if i <? k then Some (substring i (S k) s) else None
  | _, _ => None
  end.

(** The place of the first occurrence of [p] in [s]. *)
Fixpoint firstOccurrence (p s : jsstring) {struct s} : option nat :=
  if startsWith p s then Some 0
  else
    match s with
    | [] => None
    | _ :: rest =>
      match firstOccurrence p rest with
      | Some i => Some (S i)
      | None => None
      end
    end.

(** One line break at the very start of [s], dropped. *)
Definition dropLineBreak (s : jsstring) : jsstring :=
  match s with
  | c :: rest => if N.eqb c newline then rest else s
  | [] => []
  end.

(** The removal of the fence markers in the amended words: every
    occurrence of [p], taken from the left, is deleted together with one
    line break directly after it, and the search goes on after what was
    deleted.  [n] bounds the number of occurrences. *)
Fixpoint deleteAll (p : jsstring) (n : nat) (s : jsstring) : jsstring :=
  match n with
  | 0 => s
  | S n' =>
    match firstOccurrence p s with
    | None => s
    | Some i =>
      firstn i s ++ deleteAll p n' (dropLineBreak (skipn (i + length p) s))
    end
  end.

(** First the markers with the tag [json], then the markers left. *)
Definition unfence (s : jsstring) : jsstring :=
  let untagged := deleteAll (marker ++ js "json") (length s) s in
  deleteAll marker (length untagged) untagged.

(** [p] with an optional line break after it, as a pattern. *)
Definition withLineBreak (p : jsstring) : matcher := fun s =>
  if startsWith (p ++ [newline]) s then Some (S (length p))
  else if startsWith p s then Some (length p)
  else None.

(** Every run of whitespace becomes one space; [inRun] tells whether the
    previous character was whitespace. *)
Fixpoint collapse (inRun : bool) (s : jsstring) : jsstring :=
  match s with
  | [] => []
  | c :: rest =>
    if isWhiteSpace c
    then if inRun then collapse true rest else 32%N :: collapse true rest
    else c :: collapse false rest
  end.

(** Modelled from the spec: the guide's caching snippet reads a variable
    [firstFewWords] that no source file defines.  The text gives the key as
    the background lowercased, whitespace-collapsed and cut to its first 30
    characters. *)
Definition normalizedPrefix (background : jsstring) : jsstring :=
  firstn 30 (collapse false (toLowerCase background)).

(** The two readings of a non-empty field: as the string stands, and after
    trimming. *)
Definition nonEmptyAsIs (s : jsstring) : Prop := s <> [].
Definition nonEmptyTrimmed (s : jsstring) : Prop := trim s <> [].

(** An element of the response in the words of the specification: an object
    whose [title], [reason] and [action] are all there and are non-empty
    strings; [item] is what is read from it. *)
Definition elementOk (nonEmpty : jsstring -> Prop) (e : json) (item : Suggestion)
  : Prop :=
  exists members,
    e = JObj members
    /\ field (js "title") members = Some (JStr (title item))
    /\ field (js "reason") members = Some (JStr (reason item))
    /\ field (js "action") members = Some (JStr (action item))
    /\ nonEmpty (title item) /\ nonEmpty (reason item) /\ nonEmpty (action item).

(** A response in the words of the specification: an object whose
    [suggestions] is a sequence of 1 to 10 elements, every one of them as
    above; [items] are the elements read, in order. *)
Definition accepted (nonEmpty : jsstring -> Prop) (v : json)
    (items : list Suggestion) : Prop :=
  exists members elems,
    v = JObj members
    /\ field (js "suggestions") members = Some (JArr elems)
    /\ 1 <= length elems <= 10
    /\ Forall2 (elementOk nonEmpty) elems items.

End SpecModel.

(** ** The form schemas and the other helpers of [schemas.ts] *)

Module Forms.

(** A check chained on [z.string()], by what it tests: a length bound or a
    regular expression. *)
Record Rule : Type := mkRule {
  passes : jsstring -> bool;
  complaint : Message;
  onLength : option (nat -> bool) }.   (* the test, for a rule that only looks
                                          at the length *)

(** [.min(n, msg)] *)
Definition atLeast (n : nat) (msg : string) : Rule :=
  mkRule (fun s => n <=? length s) (Custom (js msg)) (Some (fun k => n <=? k)).

(** [.regex(/[lo-hi]/, msg)]: some code unit of the string is in the class. *)
Definition hasOneOf (lo hi : N) (msg : string) : Rule :=
  mkRule (fun s => existsb (fun c => (lo <=? c) && (c <=? hi))%N s)
         (Custom (js msg)) None.

(** Every rule runs, in the order written; each failed one leaves its
    issue. *)
Fixpoint runRules (rules : list Rule) (s : jsstring) : list Issue :=
  match rules with
  | [] => []
  | r :: more =>
    (if passes r s then [] else [mkIssue [] (complaint r)]) ++ runRules more s
  end.

(** On an array, after the issue of the type, the rules that look at a
    length still run, on the number of its elements; the others are
    skipped. *)
Fixpoint runLengthRules (rules : list Rule) (n : nat) : list Issue :=
  match rules with
  | [] => []
  | r :: more =>
    match onLength r with
    | Some test => if test n then [] else [mkIssue [] (complaint r)]
    | None => []
    end ++ runLengthRules more n
  end.

(** [z.string()] followed by rules that leave the value as it is. *)
Definition zStringRules (rules : list Rule) : Schema jsstring := fun input =>
  match input with
  | Some (JStr s) =>
    match runRules rules s with
    | [] => Success s
    | issues => Failure issues
    end
  | Some (JArr elems) =>
    Failure (mkIssue [] (Default invalid_type)
             :: runLengthRules rules (length elems))
  | _ => Failure [mkIssue [] (Default invalid_type)]
  end.

Definition passwordRules : list Rule :=
  [ atLeast 8 "Password must be at least 8 characters";
    hasOneOf 65 90 "Password must contain at least one uppercase letter";
    hasOneOf 97 122 "Password must contain at least one lowercase letter";
    hasOneOf 48 57 "Password must contain at least one number" ].

(** [passwordSchema] *)
Definition passwordSchema : Schema jsstring := zStringRules passwordRules.

(** [optionalPasswordSchema] *)
Definition optionalPasswordSchema : Schema (option jsstring) :=
  zOptional (zStringRules passwordRules).

Record PasswordResetInput : Type := mkPasswordReset {
  password : jsstring;
  confirmPassword : jsstring }.

Definition passwordsDoNotMatch : Issue :=
  mkIssue [Key (js "confirmPassword")] (Custom (js "Passwords do not match")).

(** [passwordResetSchema]: the object, then the refinement.  The refinement
    is a check of the object, and a check is skipped once an issue that stops
    the checks is there; of the issues of the two fields only a wrong type
    does, so the refinement runs exactly when both fields are strings. *)
Definition passwordResetSchema : Schema PasswordResetInput := fun input =>
  match input with
  | Some (JObj members) =>
    let p := passwordSchema (field (js "password") members) in
    let c := zString [Min 1 (Custom (js "Please confirm your password"))]
               (field (js "confirmPassword") members) in
    let fieldIssues :=
      prefixIssues (Key (js "password")) (issuesOf p)
      ++ prefixIssues (Key (js "confirmPassword")) (issuesOf c) in
    match field (js "password") members, field (js "confirmPassword") members with
    | Some (JStr pv), Some (JStr cv) =>
      match fieldIssues ++ (if Js.eqb pv cv then [] else [passwordsDoNotMatch]) with
      | [] => Success (mkPasswordReset pv cv)
      | all => Failure all
      end
    | _, _ => Failure fieldIssues
    end
  | _ => Failure [mkIssue [] (Default invalid_type)]
  end.

Record ProfileUpdateInput : Type := mkProfileUpdate {
  full_name : option jsstring;
  bio : option jsstring }.

Definition fullNameSchema : Schema (option jsstring) :=
  zOptional
    (zString [ Min 1 (Custom (js "Name is required"));
               Max 100 (Custom (js "Name must be less than 100 characters"));
               Trim ]).

Definition bioSchema : Schema (option jsstring) :=
  zOptional
    (zString [ Max 500 (Custom (js "Bio must be less than 500 characters")); Trim ]).

(** [profileUpdateSchema] *)
Definition profileUpdateSchema : Schema ProfileUpdateInput := fun input =>
  match input with
  | Some (JObj members) =>
    let n := fullNameSchema (field (js "full_name") members) in
    let b := bioSchema (field (js "bio") members) in
    match n, b with
    | Success n', Success b' => Success (mkProfileUpdate n' b')
    | _, _ =>
      Failure (prefixIssues (Key (js "full_name")) (issuesOf n)
               ++ prefixIssues (Key (js "bio")) (issuesOf b))
    end
  | _ => Failure [mkIssue [] (Default invalid_type)]
  end.

(** [String(i)] for an index of a path. *)
Definition decimal (i : nat) : jsstring :=
  js (DecimalString.NilZero.string_of_uint (Nat.to_uint i)).

(** [err.path.join('.')] *)
Definition pathKey (p : list PathItem) : jsstring :=
  join (js ".")
    (map (fun item => match item with Key k => k | Index i => decimal i end) p).

(** [errors[path] = message] on a [Record<string, string>]; the message of
    an issue is kept as the issue has it. *)
Fixpoint setError (k : jsstring) (m : Message) (errors : list (jsstring * Message))
  : list (jsstring * Message) :=
  match errors with
  | [] => [(k, m)]
  | (k', m') :: more =>
    if Js.eqb k k' then (k', m) :: more else (k', m') :: setError k m more
  end.

(** [errors[path]] *)
Fixpoint lookupError (k : jsstring) (errors : list (jsstring * Message))
  : option Message :=
  match errors with
  | [] => None
  | (k', m) :: more => if Js.eqb k k' then Some m else lookupError k more
  end.

(** The [forEach] of [validateWithErrors]. *)
Definition collectErrors (issues : list Issue) : list (jsstring * Message) :=
  fold_left (fun errors err => setError (pathKey (path err)) (message err) errors)
            issues [].

(** The two shapes [validateWithErrors] returns. *)
Inductive Validated (T : Type) : Type :=
| Valid (data : T)
| Invalid (errors : list (jsstring * Message)).

Arguments Valid {T} data.
Arguments Invalid {T} errors.

(** [validateWithErrors(schema, data)] *)
Definition validateWithErrors {T : Type} (schema : Schema T) (data : json)
  : Validated T :=
  match schema (Some data) with
  | Success v => Valid v
  | Failure issues => Invalid (collectErrors issues)
  end.

(** [safeParse(schema, data)]; [None] is [undefined]. *)
Definition safeParse {T : Type} (schema : Schema T) (data : json) : option T :=
  match schema (Some data) with
  | Success v => Some v
  | Failure _ => None
  end.

End Forms.

(** ** The other queries of [queries.profileSuggestions] *)

Module Client.

(** What one call finds outside, beside the session. *)
Record Env : Type := mkEnv {
  session : Queries.Env;
  clock : Z;                 (* the instant of the call, in milliseconds *)
  fresh_id : jsstring;       (* the [id] the table gives a new row *)
  insert_error : bool;       (* the insert answers with an error *)
  delete_error : bool }.     (* the delete answers with an error *)

Definition notAuthenticated : Error := ErrorOf (js "Not authenticated").

Definition belongs (user : User) (r : Row) : bool :=
  Js.eqb (user_id r) (userId user).

(** [.order('created_at', { ascending: false })]: the newer row first; rows
    of one instant keep the order of the table. *)
Fixpoint insertDesc (r : Row) (l : list Row) : list Row :=
  match l with
  | [] => [r]
  | y :: l' =>
    if (created_at y <=? created_at r)%Z then r :: l else y :: insertDesc r l'
  end.

Fixpoint orderDesc (l : list Row) : list Row :=
  match l with
  | [] => []
  | r :: more => insertDesc r (orderDesc more)
  end.

(** [getLatest] *)
Definition getLatest (env : Env) (t : Table) : Result (option Row) :=
  match Queries.getCurrentUser (session env) with
  | None => Ok None
  | Some user =>
    if Queries.select_fails (session env) then Throw (Rejected (js "select"))
    else Ok (single (orderDesc (filter (belongs user) t)))
  end.

(** [getAll] *)
Definition getAll (env : Env) (t : Table) : Result (list Row) :=
  match Queries.getCurrentUser (session env) with
  | None => Ok []
  | Some user =>
    if Queries.select_fails (session env) then Throw (Rejected (js "select"))
    else Ok (orderDesc (filter (belongs user) t))
  end.

(** The two payload columns are [jsonb not null], and a JSON [null] sent
    for a column is the database's [NULL]: the table refuses it. *)
Definition isNull (v : json) : bool :=
  match v with JNull => true | _ => false end.

(** [create]: the other columns of the new row take their defaults. *)
Definition create (env : Env) (suggestions inputData : json) (t : Table)
  : Result Row * Table :=
  match Queries.getCurrentUser (session env) with
  | None => (Throw notAuthenticated, t)
  | Some user =>
    if insert_error env || isNull suggestions || isNull inputData
    then (Throw (Rejected (js "insert")), t)
    else
      let data := mkRow (fresh_id env) (userId user) suggestions inputData
                        (clock env) None (Some []) None in
      (Ok data, t ++ [data])
  end.

(** The fields an update may name. *)
Record Updates : Type := mkUpdates {
  new_suggestions : option json;
  new_rating : option Z;
  new_completed : option (list CompletedSuggestion);
  new_viewed_at : option Z }.

Definition orElse {A : Type} (o : option A) (d : A) : A :=
  match o with Some v => v | None => d end.

Definition applyUpdates (u : Updates) (r : Row) : Row :=
  mkRow (row_id r) (user_id r)
        (orElse (new_suggestions u) (row_suggestions r))
        (input_data r) (created_at r)
        (match new_viewed_at u with Some v => Some v | None => viewed_at r end)
        (match new_completed u with Some c => Some c | None => completed_suggestions r end)
        (match new_rating u with Some v => Some v | None => rating r end).

(** The check of the column: [rating >= 1 and rating <= 5]. *)
Definition ratingAllowed (u : Updates) : bool :=
  match new_rating u with
  | Some v => (1 <=? v)%Z && (v <=? 5)%Z
  | None => true
  end.

(** [.update(updates).eq('id', id).eq('user_id', user.id).select().single()]
    and the [throw] on its error: the table refuses a rating that breaks the
    check of the column, and [.single()] wants exactly one row back. *)
Definition updateOwned (env : Env) (user : User) (id : jsstring) (u : Updates)
    (t : Table) : Result Row * Table :=
  if Queries.update_fails (session env) then (Throw (Rejected (js "update")), t)
  else if negb (ratingAllowed u) && existsb (Queries.owns user id) t
  then (Throw (Rejected (js "update")), t)
  else
    let t' := map (fun r => if Queries.owns user id r then applyUpdates u r else r) t in
    match filter (Queries.owns user id) t' with
    | [data] => (Ok data, t')
    | _ => (Throw (Rejected (js "update")), t')
    end.

(** [update]; it has no way to set [viewed_at]. *)
Definition update (env : Env) (id : jsstring)
    (suggestions : option json) (rating : option Z)
    (completed : option (list CompletedSuggestion)) (t : Table)
  : Result Row * Table :=
  match Queries.getCurrentUser (session env) with
  | None => (Throw notAuthenticated, t)
  | Some user =>
    updateOwned env user id (mkUpdates suggestions rating completed None) t
  end.

(** Row level security, which the migration enables on the table: a command
    of the browser client reaches the rows that a policy for that command
    opens to the user.  The migration has a policy for select, for insert
    and for update, each for the rows whose [user_id] is the user's, and
    none for delete. *)
Inductive Command : Type := ForSelect | ForInsert | ForUpdate | ForDelete.

Definition policy (c : Command) (user : User) (r : Row) : bool :=
  match c with
  | ForSelect | ForInsert | ForUpdate => belongs user r
  | ForDelete => false
  end.

(** [delete]: it removes the rows that pass its two filters and that a
    policy opens to deleting; removing none is no error. *)
Definition delete (env : Env) (id : jsstring) (t : Table) : Result unit * Table :=
  match Queries.getCurrentUser (session env) with
  | None => (Throw notAuthenticated, t)
  | Some user =>
    if delete_error env then (Throw (Rejected (js "delete")), t)
    else (Ok tt,
          filter (fun r => negb (Queries.owns user id r && policy ForDelete user r)) t)
  end.

(** [rate], for a whole number: the range is looked at before the session. *)
Definition rate (env : Env) (id : jsstring) (rating : Z) (t : Table)
  : Result Row * Table :=
  if ((rating <? 1) || (5 <? rating))%Z
  then (Throw (ErrorOf (js "Rating must be between 1 and 5")), t)
  else
    match Queries.getCurrentUser (session env) with
    | None => (Throw notAuthenticated, t)
    | Some user =>
      updateOwned env user id (mkUpdates None (Some rating) None None) t
    end.

(** [markViewed] *)
Definition markViewed (env : Env) (id : jsstring) (t : Table)
  : Result Row * Table :=
  match Queries.getCurrentUser (session env) with
  | None => (Throw notAuthenticated, t)
  | Some user =>
    updateOwned env user id (mkUpdates None None None (Some (clock env))) t
  end.

(** The calls that write to the table. *)
Inductive Mutation : Type :=
| Create (suggestions inputData : json)
| Update (id : jsstring) (suggestions : option json) (rating : option Z)
    (completed : option (list CompletedSuggestion))
| Delete (id : jsstring)
| Rate (id : jsstring) (rating : Z)
| MarkComplete (id suggestionId : jsstring) (notes : option jsstring)
| MarkViewed (id : jsstring).

(** The table a call leaves, and whether it threw. *)
Definition perform (env : Env) (m : Mutation) (t : Table) : option Error * Table :=
  let outcome {A : Type} (r : Result A * Table) : option Error * Table :=
    (match fst r with Ok _ => None | Throw e => Some e end, snd r) in
  match m with
  | Create suggestions inputData => outcome (create env suggestions inputData t)
  | Update id suggestions rating completed =>
    outcome (update env id suggestions rating completed t)
  | Delete id => outcome (delete env id t)
  | Rate id rating => outcome (rate env id rating t)
  | MarkComplete id suggestionId notes =>
    outcome (Queries.markComplete (session env) id suggestionId notes t)
  | MarkViewed id => outcome (markViewed env id t)
  end.

(** Every rating of the table is within 1 to 5. *)
Definition ratingsOk (t : Table) : Prop :=
  Forall (fun r => match rating r with
                   | Some v => (1 <= v <= 5)%Z
                   | None => True
                   end) t.

(** The order of [getAll]: the newer row first. *)
Definition newerFirst (a b : Row) : Prop := (created_at b <= created_at a)%Z.

(** The rows of others, which the filters on [user_id] keep a call from. *)
Definition others (user : User) (t : Table) : Table :=
  filter (fun r => negb (belongs user r)) t.

(** An update through the filters [eq('id', id)] and [eq('user_id', user.id)]
    with [f] for the new columns. *)
Definition onOwned (user : User) (id : jsstring) (f : Row -> Row) (t : Table)
  : Table :=
  map (fun r => if Queries.owns user id r then f r else r) t.

(** The row a call names, for the calls that name one. *)
Definition target (m : Mutation) : option jsstring :=
  match m with
  | Create _ _ => None
  | Update id _ _ _ | Delete id | Rate id _ | MarkComplete id _ _ | MarkViewed id =>
    Some id
  end.

End Client.

(** ** The form submission of the guide's front-end component *)

Module Frontend.

(** What an error message shows: a text; the text [String(v)] of a value
    that is not a string; the message of a [TypeError] of the runtime. *)
Inductive Shown : Type :=
| Text (s : jsstring)
| StringOf (v : json)
| RuntimeMessage.

(** What a rejected promise or a [throw] carries: an [Error] with its
    message, or something that is no [Error]. *)
Inductive Thrown : Type :=
| ThrownError (message : Shown)
| ThrownOther.

(** The response of [fetch]: [response.ok] and [await response.json()]. *)
Record FetchResponse : Type := mkFetchResponse {
  ok : bool;
  json_body : Thrown + json }.

(** What the component finds outside: [fetch] on the endpoint, by the body
    sent, and whether the number of a literal is falsy (zero or NaN). *)
Record Env : Type := mkEnv {
  fetchSuggestions : json -> Thrown + FetchResponse;
  falsyNumber : jsstring -> bool }.

(** The state of the component ([useState]); [suggestions] holds whatever
    the response carried, [None] being [undefined]. *)
Record State : Type := mkState {
  userBackground : jsstring;
  currentGoals : jsstring;
  experienceLevel : ExperienceLevel;
  suggestions : option json;
  isLoading : bool;
  error : option Shown }.

Definition setError (e : option Shown) (s : State) : State :=
  mkState (userBackground s) (currentGoals s) (experienceLevel s)
          (suggestions s) (isLoading s) e.

Definition setSuggestions (v : option json) (s : State) : State :=
  mkState (userBackground s) (currentGoals s) (experienceLevel s)
          v (isLoading s) (error s).

Definition setIsLoading (b : bool) (s : State) : State :=
  mkState (userBackground s) (currentGoals s) (experienceLevel s)
          (suggestions s) b (error s).

(** The body of the request: [currentGoals || undefined] leaves no key for
    empty goals. *)
Definition requestBody (s : State) : json :=
  JObj ([ (js "userBackground", JStr (userBackground s)) ]
        ++ match currentGoals s with
           | [] => []
           | g => [ (js "currentGoals", JStr g) ]
           end
        ++ [ (js "experienceLevel", JStr (levelName (experienceLevel s))) ]).

(** [data.key]: reading a property of [null] throws; a value that is no
    object has no such property. *)
Definition property (data : json) (k : jsstring) : Thrown + option json :=
  match data with
  | JNull => inl (ThrownError RuntimeMessage)
  | JObj members => inr (field k members)
  | _ => inr None
  end.

(** [new Error(v || fallbackText).message] *)
Definition messageOr (env : Env) (v : option json) (fallbackText : string) : Shown :=
  match v with
  | None | Some JNull | Some (JBool false) | Some (JStr []) => Text (js fallbackText)
  | Some (JStr s) => Text s
  | Some (JNum literal) =>
    if falsyNumber env literal then Text (js fallbackText) else StringOf (JNum literal)
  | Some other => StringOf other
  end.

(** [err instanceof Error ? err.message : 'Something went wrong'] *)
Definition shown (err : Thrown) : Shown :=
  match err with
  | ThrownError message => message
  | ThrownOther => Text (js "Something went wrong")
  end.

(** The [try] block of [handleSubmit]: the suggestions to set, or what is
    caught. *)
Definition request (env : Env) (body : json) : Thrown + option json :=
  match fetchSuggestions env body with
  | inl err => inl err
  | inr response =>
    match json_body response with
    | inl err => inl err
    | inr data =>
      if ok response then property data (js "suggestions")
      else
        match property data (js "error") with
        | inl err => inl err
        | inr v => inl (ThrownError (messageOr env v "Failed to get suggestions"))
        end
    end
  end.

(** [handleSubmit]: the state it leaves and the body it has sent, if any. *)
Definition handleSubmit (env : Env) (s : State) : State * option json :=
  if length (userBackground s) <? 10
  then (setError (Some (Text (js "Please provide more details (at least 10 characters)"))) s,
        None)
  else
    let sent := requestBody s in
    let s := setSuggestions (Some (JArr [])) (setError None (setIsLoading true s)) in
    let s :=
      match request env sent with
      | inr v => setSuggestions v s
      | inl err => setError (Some (shown err)) s
      end in
    (setIsLoading false s, Some sent).





End Frontend.

(** ** Counting the completion calls of a trace *)

Definition isOpenAICreate (e : Event) : bool :=
  match e with OpenAICreate _ => true | _ => false end.

Definition completionCalls (events : list Event) : nat :=
  length (filter isOpenAICreate events).

(** ** The parts of the prompt *)

(** The template of [buildProfileSuggestionPrompt] up to the background,
    its line of goals, and the lines after them. *)
Definition promptOpening (level : ExperienceLevel) : jsstring :=
  js "I'm a " ++ levelName level
  ++ js " software engineer who wants to improve my skills."
  ++ [newline; newline] ++ js "Background: ".

Definition goalsLine (goals : option jsstring) : jsstring :=
  match goals with
  | Some (c :: g) => js "Current Goals: " ++ c :: g
  | _ => []
  end.

Definition promptInstructions : jsstring :=
  join [newline]
    [ js "Based on this information, suggest 3-5 specific things I should focus on to grow as a developer.";
      [];
      js "For each suggestion, provide:";
      js "1. Title: Name of the skill or area";
      js "2. Reason: Why it's relevant to my specific background";
      js "3. Action: One concrete step I can take THIS WEEK";
      [];
      js "IMPORTANT: Return ONLY valid JSON in this exact format, with no markdown or extra text:";
      [];
      js "{";
      js "  " ++ dq "suggestions" ++ js ": [";
      js "    {";
      js "      " ++ dq "title" ++ js ": " ++ dq "Skill name" ++ js ",";
      js "      " ++ dq "reason" ++ js ": "
        ++ dq "Why this matters for your background" ++ js ",";
      js "      " ++ dq "action" ++ js ": "
        ++ dq "Specific action you can take this week";
      js "    }";
      js "  ]";
      js "}" ].

(** ** Tactics to run the handler *)

(** [run] unfolds the steps of the handler; [step] takes the branch that the
    last rewriting has decided; [enter H] goes through validation and
    authentication with [H : authenticated _ _ _]. *)
Ltac step := cbv beta iota zeta; cbn [table trace hd_error].

Ltac run :=
  unfold POST, tryBlock, generate, bind, await, emit, emitAll, respond, ret,
    selectRecent, selectCached, insert, caught, single; step.

Ltac enter H :=
  let body := fresh "body" in
  let H1 := fresh in let H2 := fresh in let H3 := fresh in let H4 := fresh in
  destruct H as (body & H1 & H2 & H3 & H4);
  run; rewrite H1; step; rewrite H2; step; rewrite H3; step; rewrite H4; step.

(** ** Sample inputs *)

Module Samples.

(** A response whose only suggestion has a title made of one space. *)
Definition blankTitle : jsstring :=
  jsq "{'suggestions':[{'title':' ','reason':'r','action':'a'}]}".

Definition blankTitleItems : list Suggestion :=
  [ mkSuggestion (js " ") (js "r") (js "a") ].

(** The JSON text of the fallback suggestions. *)
Definition fallbackText : jsstring :=
  jsq "{'suggestions':[{'title':'Start with Fundamentals','reason':'Building a strong foundation is crucial for long-term growth as a developer.','action':'Complete one online tutorial on core programming concepts this week.'}]}".

Definition alice : User := mkUser (js "4f0c1a52-user-a").
Definition bob : User := mkUser (js "9b7d2e11-user-b").

(** Two backgrounds: one with two spaces after its first word, one without. *)
Definition spaced : jsstring := js "I  love building web apps and APIs".
Definition plain : jsstring := js "I love building web apps and APIs".

Definition requestBody (background : jsstring) : json :=
  JObj [ (js "userBackground", JStr background);
         (js "experienceLevel", JStr (js "beginner")) ].

Definition requestInput (background : jsstring) : AiPromptInput :=
  mkAiPromptInput background None beginner.

(** A completion that follows the prompt. *)
Definition goodContent : jsstring :=
  jsq "{'suggestions':[{'title':'A','reason':'B','action':'C'}]}".

Definition goodItems : list Suggestion :=
  [ mkSuggestion (js "A") (js "B") (js "C") ].

(** A completion with no JSON in it. *)
Definition proseContent : jsstring := js "I cannot help with that.".

Definition noon : Z := 1768046400000.
Definition noonText : jsstring := js "2026-01-10T12:00:00.000Z".

(** A request with the given background, the cache key being the one of the
    specification. *)
Definition request (background : jsstring) (user : option User) (now : Z)
    (completion : Result (option jsstring)) (insertFails : bool)
    (id : string) : Env :=
  mkEnv (Ok (requestBody background)) (Ok tt) user now noonText
        (SpecModel.normalizedPrefix background)
        (fun _ => completion) insertFails (js id).

Definition emptyWorld : World := mkWorld [] [].

(** The first call: [alice] at [noon], the completion is good, the insert
    succeeds. *)
Definition firstCall (background : jsstring) : Env :=
  request background (Some alice) noon (Ok (Some goodContent)) false "row-1".

Definition afterFirstCall (background : jsstring) : World :=
  snd (POST Json.JSON_parse (firstCall background) emptyWorld).

(** A second call one minute later. *)
Definition secondCall (background : jsstring) (user : User) : Env :=
  request background (Some user) (noon + 60000) (Ok (Some goodContent)) false
    "row-2".

(** Calls on an empty table: the insert fails; the completion is prose; the
    gateway throws. *)
Definition insertFailing : Env :=
  request plain (Some alice) noon (Ok (Some goodContent)) true "row-1".

Definition proseAnswered : Env :=
  request plain (Some alice) noon (Ok (Some proseContent)) false "row-1".

Definition gatewayDown : Env :=
  request plain (Some alice) noon (Throw (Rejected (js "openai"))) false "row-1".

(** A table with the record of the first call, and a client session of
    [alice]. *)
Definition storedRow : Row :=
  mkRow (js "row-1") (userId alice) (suggestionsJson goodItems)
        (inputJson (requestInput plain)) noon None None None.

Definition session : Queries.Env :=
  Queries.mkEnv (Some alice) noonText false false.

(** Request bodies with a background of 9 and of 10 characters. *)
Definition nineChars : list (jsstring * json) :=
  [ (js "userBackground", JStr (js "123456789"));
    (js "experienceLevel", JStr (js "advanced")) ].

Definition tenChars : list (jsstring * json) :=
  [ (js "userBackground", JStr (js "1234567890"));
    (js "experienceLevel", JStr (js "advanced")) ].

(** A request of [alice] with the background of 9 characters. *)
Definition shortRequest : Env :=
  mkEnv (Ok (JObj nineChars)) (Ok tt) (Some alice) noon noonText []
        (fun _ => Ok (Some goodContent)) false (js "row-1").

End Samples.

(* ================================================================== *)
(** * Part II. Theorems *)
(* ================================================================== *)

(** ** Strings and regular expressions *)

Section StringFacts.

Lemma eqb_eq (a b : jsstring) : Js.eqb a b = true <-> a = b.
Proof.
  revert b; induction a as [|x a IH]; intros [|y b]; cbn; split; intros H;
    try reflexivity; try discriminate.
  - apply andb_true_iff in H as [Hx Ha]. apply N.eqb_eq in Hx.
    apply IH in Ha. congruence.
  - injection H as -> ->. rewrite N.eqb_refl. cbn. now apply IH.
Qed.

Lemma eqb_refl (a : jsstring) : Js.eqb a a = true.
Proof. now apply eqb_eq. Qed.

Lemma startsWith_app_l (p q s : jsstring) :
  startsWith (p ++ q) s = true -> startsWith p s = true.
Proof.
  revert s; induction p as [|x p IH]; intros s H; [reflexivity|].
  destruct s as [|y s]; cbn in *; [discriminate|].
  apply andb_true_iff in H as [Hx Hp]. rewrite Hx. cbn. now apply IH.
Qed.

Lemma startsWith_cons (x y : N) (p s : jsstring) :
  startsWith (x :: p) (y :: s) = true <-> x = y /\ startsWith p s = true.
Proof.
  cbn. rewrite andb_true_iff, N.eqb_eq. reflexivity.
Qed.

Lemma replaceFrom_skipn (re : matcher) (s : jsstring) :
  forall k, replaceFrom re k s = replaceAll re (skipn k s).
Proof.
  induction s as [|c rest IH]; intros k.
  - destruct k; reflexivity.
  - destruct k as [|k]; [reflexivity|]. cbn [replaceFrom skipn]. apply IH.
Qed.

Lemma replaceAll_keep (re : matcher) (c : N) (rest : jsstring) :
  re (c :: rest) = None ->
  replaceAll re (c :: rest) = c :: replaceAll re rest.
Proof. intros H. unfold replaceAll. cbn [replaceFrom]. now rewrite H. Qed.

Lemma replaceAll_drop (re : matcher) (c : N) (rest : jsstring) (k : nat) :
  re (c :: rest) = Some (S k) ->
  replaceAll re (c :: rest) = replaceAll re (skipn k rest).
Proof.
  intros H. unfold replaceAll at 1. cbn [replaceFrom]. rewrite H.
  apply replaceFrom_skipn.
Qed.

(** [fence] matches exactly where the text starts with a marker, and takes
    three or four code units. *)
Lemma fence_cases (s : jsstring) :
  (fence s = None /\ startsWith marker s = false)
  \/ (startsWith marker s = true /\ (fence s = Some 3 \/ fence s = Some 4)).
Proof.
  unfold fence.
  destruct (startsWith (marker ++ [newline]) s) eqn:E4.
  - right. split; [now apply startsWith_app_l in E4 | now right].
  - destruct (startsWith marker s); [right | left]; auto.
Qed.

(** After [replace(/```\n?/g, '')] the text starts with no more backticks
    than it did before, up to two. *)
Lemma replaceAll_fence_head (n : nat) :
  forall s, length s <= n ->
    (startsWith [backtick] (replaceAll fence s) = true ->
     startsWith [backtick] s = true)
    /\ (startsWith [backtick; backtick] (replaceAll fence s) = true ->
        startsWith [backtick; backtick] s = true)
    /\ occurs marker (replaceAll fence s) = false.
Proof.
  induction n as [|n IH]; intros s Hlen.
  - destruct s; [|cbn in Hlen; lia]. cbn. repeat split; discriminate.
  - destruct s as [|c rest]; [cbn; repeat split; discriminate|].
    cbn in Hlen.
    destruct (fence_cases (c :: rest)) as [[Hf Hm] | [Hm Hf]].
    + rewrite (replaceAll_keep _ _ _ Hf).
      destruct (IH rest ltac:(lia)) as (H1 & H2 & H3).
      split; [|split].
      * intros H. apply startsWith_cons in H as [<- _]. reflexivity.
      * intros H. apply startsWith_cons in H as [<- H].
        apply H1 in H. apply startsWith_cons. now split.
      * cbn [occurs]. rewrite H3, orb_false_r.
        destruct (startsWith marker (c :: replaceAll fence rest)) eqn:E;
          [|reflexivity].
        unfold marker in E. apply startsWith_cons in E as [<- E].
        apply H2 in E. rewrite <- Hm. unfold marker. symmetry.
        apply startsWith_cons. now split.
    + assert (Hout : exists k, k <= 3 /\
                replaceAll fence (c :: rest) = replaceAll fence (skipn k rest)).
      { destruct Hf as [Hf | Hf]; [exists 2 | exists 3];
          (split; [lia | now apply replaceAll_drop]). }
      destruct Hout as (k & _ & ->).
      assert (Hk : length (skipn k rest) <= n)
        by (rewrite length_skipn; lia).
      destruct (IH _ Hk) as (_ & _ & H3).
      split; [|split]; [| |exact H3].
      * intros _. now apply (startsWith_app_l [backtick] [backtick; backtick]).
      * intros _. now apply (startsWith_app_l [backtick; backtick] [backtick]).
Qed.

(** No fence marker is left after the two replacements. *)
Lemma stripFences_no_marker (s : jsstring) :
  occurs marker (stripFences s) = false.
Proof.
  unfold stripFences.
  apply (replaceAll_fence_head (length (replaceAll fenceJson s))). lia.
Qed.

(** *** [trim] *)

Lemma trimStart_decomp (s : jsstring) :
  exists l, s = l ++ trimStart s /\ forallb isWhiteSpace l = true.
Proof.
  induction s as [|c s (l & Hl & Hws)]; [now exists []|].
  cbn. destruct (isWhiteSpace c) eqn:E.
  - exists (c :: l). cbn. rewrite E, Hws. split; [now f_equal | reflexivity].
  - now exists [].
Qed.

Lemma trimStart_head (s : jsstring) :
  match trimStart s with [] => True | c :: _ => isWhiteSpace c = false end.
Proof.
  induction s as [|c s IH]; cbn; [exact I|].
  destruct (isWhiteSpace c) eqn:E; [exact IH | exact E].
Qed.

Lemma trimStart_app (a b : jsstring) (c : N) :
  isWhiteSpace c = false -> trimStart (a ++ c :: b) = trimStart a ++ c :: b.
Proof.
  intros Hc. induction a as [|x a IH]; cbn.
  - now rewrite Hc.
  - destruct (isWhiteSpace x); [exact IH | reflexivity].
Qed.

(** [trim] removes a run of whitespace at each end and nothing else, and
    what is left neither starts nor ends with whitespace. *)
Lemma trim_spec (s : jsstring) :
  (exists l r, s = l ++ trim s ++ r
               /\ forallb isWhiteSpace l = true
               /\ forallb isWhiteSpace r = true)
  /\ match trim s with [] => True | c :: _ => isWhiteSpace c = false end
  /\ match rev (trim s) with [] => True | c :: _ => isWhiteSpace c = false end.
Proof.
  unfold trim, trimEnd. split; [|split].
  - destruct (trimStart_decomp s) as (l & Hl & Hlws).
    destruct (trimStart_decomp (rev (trimStart s))) as (r & Hr & Hrws).
    exists l, (rev r). split; [|split]; [|exact Hlws|].
    + rewrite Hl at 1. f_equal. rewrite <- rev_app_distr, <- Hr.
      now rewrite rev_involutive.
    + rewrite forallb_forall in *. intros x Hx. apply Hrws.
      now apply in_rev.
  - pose proof (trimStart_head s) as Hh.
    destruct (trimStart s) as [|c x]; [exact I|].
    cbn [rev]. rewrite (trimStart_app _ [] c Hh), rev_app_distr. exact Hh.
  - rewrite rev_involutive. apply trimStart_head.
Qed.

(** *** The object pattern *)

Lemma greedyToBrace_spec (s : jsstring) :
  greedyToBrace s
  = match SpecModel.lastIndexOf rbrace s with
    | Some k => Some (firstn (S k) s)
    | None => None
    end.
Proof.
  induction s as [|c s IH]; [reflexivity|].
  cbn [greedyToBrace SpecModel.lastIndexOf]. rewrite IH.
  destruct (SpecModel.lastIndexOf rbrace s); [reflexivity|].
  destruct (c =? rbrace)%N; reflexivity.
Qed.

Lemma matchObject_no_rbrace (s : jsstring) :
  SpecModel.lastIndexOf rbrace s = None -> matchObject s = None.
Proof.
  induction s as [|c s IH]; [reflexivity|].
  cbn [matchObject SpecModel.lastIndexOf].
  destruct (SpecModel.lastIndexOf rbrace s) eqn:E; [discriminate|].
  intros _. rewrite greedyToBrace_spec, E.
  destruct (c =? lbrace)%N; now apply IH.
Qed.

(** The leftmost, greedy match of the object pattern is the text from the
    first opening brace to the last closing brace. *)
Lemma matchObject_braceSpan (s : jsstring) :
  matchObject s = SpecModel.braceSpan s.
Proof.
  induction s as [|c s IH]; [reflexivity|].
  unfold SpecModel.braceSpan.
  cbn [matchObject SpecModel.indexOf SpecModel.lastIndexOf].
  destruct (c =? lbrace)%N eqn:Ec.
  - apply N.eqb_eq in Ec. subst c. rewrite greedyToBrace_spec.
    destruct (SpecModel.lastIndexOf rbrace s) eqn:E; [reflexivity|].
    cbn. now apply matchObject_no_rbrace.
  - rewrite IH. unfold SpecModel.braceSpan.
    destruct (SpecModel.indexOf lbrace s) as [i|];
      destruct (SpecModel.lastIndexOf rbrace s) as [k|]; try reflexivity.
    destruct (c =? rbrace)%N; reflexivity.
Qed.

Lemma indexOf_Some (c : N) (s : jsstring) :
  forall i, SpecModel.indexOf c s = Some i ->
    nth_error s i = Some c /\ forall j, j < i -> nth_error s j <> Some c.
Proof.
  induction s as [|d s IH]; intros i; [discriminate|].
  cbn [SpecModel.indexOf]. destruct (d =? c)%N eqn:E.
  - intros [= <-]. apply N.eqb_eq in E. subst. split; [reflexivity | lia].
  - destruct (SpecModel.indexOf c s) as [i'|]; [|discriminate].
    intros [= <-]. destruct (IH _ eq_refl) as [Hn Hlt]. split; [exact Hn|].
    intros [|j] Hj; cbn.
    + intros [= ->]. now rewrite N.eqb_refl in E.
    + apply Hlt. lia.
Qed.

Lemma indexOf_None (c : N) (s : jsstring) :
  SpecModel.indexOf c s = None -> forall j, nth_error s j <> Some c.
Proof.
  induction s as [|d s IH]; intros H j; [now destruct j|].
  cbn [SpecModel.indexOf] in H. destruct (d =? c)%N eqn:E; [discriminate|].
  destruct (SpecModel.indexOf c s); [discriminate|].
  destruct j as [|j]; cbn.
  - intros [= ->]. now rewrite N.eqb_refl in E.
  - now apply IH.
Qed.

Lemma lastIndexOf_None (c : N) (s : jsstring) :
  SpecModel.lastIndexOf c s = None -> forall j, nth_error s j <> Some c.
Proof.
  induction s as [|d s IH]; intros H j; [now destruct j|].
  cbn [SpecModel.lastIndexOf] in H.
  destruct (SpecModel.lastIndexOf c s); [discriminate|].
  destruct (d =? c)%N eqn:E; [discriminate|].
  destruct j as [|j]; cbn.
  - intros [= ->]. now rewrite N.eqb_refl in E.
  - now apply IH.
Qed.

Lemma lastIndexOf_Some (c : N) (s : jsstring) :
  forall k, SpecModel.lastIndexOf c s = Some k ->
    nth_error s k = Some c /\ forall j, k < j -> nth_error s j <> Some c.
Proof.
  induction s as [|d s IH]; intros k; [discriminate|].
  cbn [SpecModel.lastIndexOf].
  destruct (SpecModel.lastIndexOf c s) as [k'|] eqn:E.
  - intros [= <-]. destruct (IH _ eq_refl) as [Hn Hgt]. split; [exact Hn|].
    intros [|j] Hj; [lia|]. cbn. apply Hgt. lia.
  - destruct (d =? c)%N eqn:Ed; [|discriminate].
    intros [= <-]. apply N.eqb_eq in Ed. subst. split; [reflexivity|].
    intros [|j] Hj; [lia|]. cbn. now apply lastIndexOf_None.
Qed.

(** There is something to extract exactly when an opening brace stands
    before a closing one. *)
Lemma braceSpan_None (s : jsstring) :
  SpecModel.braceSpan s = None
  <-> ~ exists i k, i < k /\ nth_error s i = Some lbrace
                  /\ nth_error s k = Some rbrace.
Proof.
  unfold SpecModel.braceSpan.
  destruct (SpecModel.indexOf lbrace s) as [i0|] eqn:Ei.
  - destruct (indexOf_Some _ _ _ Ei) as [Hi Hfirst].
    destruct (SpecModel.lastIndexOf rbrace s) as [k0|] eqn:Ek.
    + destruct (lastIndexOf_Some _ _ _ Ek) as [Hk Hlast].
      destruct (i0 <? k0) eqn:Elt.
      * apply Nat.ltb_lt in Elt. split; [discriminate|].
        intros H. exfalso. apply H. now exists i0, k0.
      * apply Nat.ltb_ge in Elt. split; [|reflexivity].
        intros _ (i & k & Hik & Hl & Hr).
        destruct (Nat.lt_ge_cases i i0) as [Hlt | Hge];
          [now apply (Hfirst i)|].
        apply (Hlast k); [lia | exact Hr].
    + split; [|reflexivity]. intros _ (i & k & _ & _ & Hr).
      now apply (lastIndexOf_None _ _ Ek k).
  - split; [|reflexivity]. intros _ (i & k & _ & Hl & _).
    now apply (indexOf_None _ _ Ei i).
Qed.

End StringFacts.

(** ** The Response Normalizer *)

Section NormalizerFacts.

Lemma startsWith_marker (p x : jsstring) :
  startsWith (marker ++ p) (marker ++ x) = startsWith p x.
Proof. reflexivity. Qed.

(** A pattern without backticks is looked for in the text before a marker
    only. *)
Lemma startsWith_before_marker (p a : jsstring) :
  ~ In backtick p -> startsWith p (a ++ marker) = startsWith p a.
Proof.
  revert a; induction p as [|x p IH]; intros a Hp; [reflexivity|].
  destruct a as [|y a]; cbn [app startsWith].
  - unfold marker. cbn [startsWith].
    destruct (x =? backtick)%N eqn:E; [|reflexivity].
    apply N.eqb_eq in E. subst. exfalso. apply Hp. now left.
  - rewrite IH; [reflexivity|]. intros H. apply Hp. now right.
Qed.

Lemma startsWith_split (p s : jsstring) :
  startsWith p s = true -> s = p ++ skipn (length p) s.
Proof.
  revert s; induction p as [|x p IH]; intros s H; [reflexivity|].
  destruct s as [|y s]; [discriminate|].
  apply startsWith_cons in H as [<- H]. cbn. f_equal. now apply IH.
Qed.

Lemma no_marker_no_fence (re : matcher) (s : jsstring) :
  re = fence \/ re = fenceJson -> startsWith marker s = false -> re s = None.
Proof.
  intros [-> | ->] H; unfold fence, fenceJson.
  - destruct (startsWith (marker ++ [newline]) s) eqn:E;
      [apply startsWith_app_l in E; congruence|]. now rewrite H.
  - destruct (startsWith (marker ++ js "json" ++ [newline]) s) eqn:E;
      [apply startsWith_app_l in E; congruence|].
    destruct (startsWith (marker ++ js "json") s) eqn:E';
      [apply startsWith_app_l in E'; congruence | reflexivity].
Qed.

(** Text without backticks goes through the replacements untouched. *)
Lemma replaceAll_plain (re : matcher) (pre rest : jsstring) :
  re = fence \/ re = fenceJson -> ~ In backtick pre ->
  replaceAll re (pre ++ rest) = pre ++ replaceAll re rest.
Proof.
  intros Hre Hp. induction pre as [|c pre IH]; [reflexivity|].
  cbn [app]. rewrite replaceAll_keep.
  - f_equal. apply IH. intros H. apply Hp. now right.
  - apply (no_marker_no_fence re _ Hre). unfold marker. cbn [startsWith].
    destruct (backtick =? c)%N eqn:E; [|reflexivity].
    apply N.eqb_eq in E. exfalso. apply Hp. now left.
Qed.

Lemma stripFences_plain_marker (inner : jsstring) :
  ~ In backtick inner -> stripFences (inner ++ marker) = inner.
Proof.
  intros H. unfold stripFences.
  rewrite (replaceAll_plain fenceJson), (replaceAll_plain fence); auto.
  apply app_nil_r.
Qed.

Lemma plain_json : ~ In backtick (js "json").
Proof. cbn. intuition discriminate. Qed.

Lemma plain_json_newline : ~ In backtick (js "json" ++ [newline]).
Proof. cbn. intuition discriminate. Qed.

Lemma plain_newline : ~ In backtick [newline].
Proof. cbn. intuition discriminate. Qed.

Lemma fenceJson_fenced (x : jsstring) :
  fenceJson (marker ++ x ++ marker)
  = if startsWith (js "json" ++ [newline]) x then Some 8
    else if startsWith (js "json") x then Some 7 else None.
Proof.
  unfold fenceJson.
  now rewrite !startsWith_marker,
    (startsWith_before_marker _ _ plain_json),
    (startsWith_before_marker _ _ plain_json_newline).
Qed.

Lemma fence_fenced (x : jsstring) :
  fence (marker ++ x ++ marker)
  = if startsWith [newline] x then Some 4 else Some 3.
Proof.
  unfold fence.
  rewrite startsWith_marker, (startsWith_before_marker _ _ plain_newline).
  reflexivity.
Qed.

Lemma replaceAll_marker_drop (re : matcher) (k : nat) (x : jsstring) :
  re (marker ++ x) = Some (3 + k) ->
  replaceAll re (marker ++ x) = replaceAll re (skipn k x).
Proof.
  intros H. unfold marker in *. cbn [app] in *.
  now rewrite (replaceAll_drop re backtick _ (2 + k) H).
Qed.

Lemma skipn_prefix (p s rest : jsstring) :
  startsWith p s = true ->
  skipn (length p) (s ++ rest) = skipn (length p) s ++ rest.
Proof.
  intros H. rewrite (startsWith_split _ _ H) at 1.
  rewrite <- app_assoc, skipn_app, skipn_all, Nat.sub_diag. reflexivity.
Qed.

Lemma plain_skipn (n : nat) (s : jsstring) :
  ~ In backtick s -> ~ In backtick (skipn n s).
Proof.
  intros H Hin. apply H. rewrite <- (firstn_skipn n s).
  apply in_or_app. now right.
Qed.

(** A fence whose inside has no backtick is left by [fenceJson] unless the
    inside starts with the tag. *)
Lemma replaceAll_fenceJson_untagged (inner : jsstring) :
  ~ In backtick inner ->
  startsWith (js "json") inner = false ->
  replaceAll fenceJson (marker ++ inner ++ marker) = marker ++ inner ++ marker.
Proof.
  intros Hp E7.
  destruct inner as [|y inner']; [reflexivity|].
  assert (Hy : (backtick =? y)%N = false).
  { destruct (backtick =? y)%N eqn:E; [|reflexivity].
    apply N.eqb_eq in E. exfalso. apply Hp. now left. }
  assert (E8 : startsWith (js "json" ++ [newline]) (y :: inner') = false).
  { destruct (startsWith (js "json" ++ [newline]) (y :: inner')) eqn:E;
      [|reflexivity]. apply startsWith_app_l in E. congruence. }
  pose proof (fenceJson_fenced (y :: inner')) as H0. rewrite E8, E7 in H0.
  unfold marker at 1 in H0. cbn [app] in H0.
  unfold marker at 1 3. cbn [app].
  assert (Hside : forall rest,
            fenceJson (backtick :: rest) = None
            \/ startsWith [backtick; backtick] rest = true).
  { intros rest. destruct (startsWith [backtick; backtick] rest) eqn:E;
      [now right | left].
    apply (no_marker_no_fence fenceJson); [now right|]. exact E. }
  rewrite (replaceAll_keep _ _ _ H0).
  rewrite (replaceAll_keep fenceJson backtick (backtick :: y :: inner' ++ marker)).
  2:{ destruct (Hside (backtick :: y :: inner' ++ marker)) as [H | H];
        [exact H|]. cbn [startsWith] in H. rewrite Hy in H.
      now rewrite N.eqb_refl in H. }
  rewrite (replaceAll_keep fenceJson backtick (y :: inner' ++ marker)).
  2:{ destruct (Hside (y :: inner' ++ marker)) as [H | H]; [exact H|].
      cbn [startsWith] in H. now rewrite Hy in H. }
  do 3 f_equal. change (y :: inner' ++ marker) with ((y :: inner') ++ marker).
  now rewrite (replaceAll_plain fenceJson) by auto.
Qed.

(** What is fenced between two markers is kept, but for a [json] tag and one
    line break at its start. *)
Lemma stripFences_fenced (inner : jsstring) :
  ~ In backtick inner ->
  exists tag,
    inner = tag ++ stripFences (marker ++ inner ++ marker)
    /\ In tag [ js "json" ++ [newline]; js "json"; [newline]; [] ].
Proof.
  intros Hp. unfold stripFences.
  destruct (startsWith (js "json" ++ [newline]) inner) eqn:E8;
    [|destruct (startsWith (js "json") inner) eqn:E7].
  - exists (js "json" ++ [newline]). split; [|now left].
    rewrite (replaceAll_marker_drop fenceJson 5)
      by (now rewrite fenceJson_fenced, E8).
    rewrite (skipn_prefix (js "json" ++ [newline]) _ _ E8).
    fold (stripFences (skipn (length (js "json" ++ [newline])) inner ++ marker)).
    rewrite stripFences_plain_marker by now apply plain_skipn.
    now apply startsWith_split.
  - exists (js "json"). split; [|right; now left].
    rewrite (replaceAll_marker_drop fenceJson 4)
      by (now rewrite fenceJson_fenced, E8, E7).
    rewrite (skipn_prefix (js "json") _ _ E7).
    fold (stripFences (skipn (length (js "json")) inner ++ marker)).
    rewrite stripFences_plain_marker by now apply plain_skipn.
    now apply startsWith_split.
  - rewrite (replaceAll_fenceJson_untagged inner Hp E7).
    destruct (startsWith [newline] inner) eqn:En.
    + exists [newline]. split; [|cbn; auto].
      rewrite (replaceAll_marker_drop fence 1)
        by (now rewrite fence_fenced, En).
      rewrite (skipn_prefix [newline] _ _ En).
      rewrite (replaceAll_plain fence) by (auto using plain_skipn).
      change (replaceAll fence marker) with (@nil N). rewrite app_nil_r.
      now apply startsWith_split.
    + exists []. split; [|cbn; auto].
      rewrite (replaceAll_marker_drop fence 0)
        by (now rewrite fence_fenced, En).
      cbn [skipn app].
      rewrite (replaceAll_plain fence) by auto.
      change (replaceAll fence marker) with (@nil N). now rewrite app_nil_r.
Qed.

Lemma matchObject_skip_tag (tag rest : jsstring) :
  In tag [ js "json" ++ [newline]; js "json"; [newline]; [] ] ->
  matchObject (tag ++ rest) = matchObject rest.
Proof.
  intros [<- | [<- | [<- | [<- | []]]]]; reflexivity.
Qed.

Lemma trim_bounded (c d : N) (s : jsstring) :
  isWhiteSpace c = false -> isWhiteSpace d = false ->
  trim (c :: s ++ [d]) = c :: s ++ [d].
Proof.
  intros Hc Hd. unfold trim, trimEnd. cbn [trimStart]. rewrite Hc.
  change (c :: s ++ [d]) with ((c :: s) ++ [d]).
  rewrite rev_app_distr. cbn [rev app trimStart]. rewrite Hd.
  cbn [rev]. now rewrite rev_app_distr, rev_involutive.
Qed.

(** A fenced block without backticks inside gives the brace span of what is
    fenced, whatever tag follows the opening marker. *)
Lemma normalize_fenced (inner : jsstring) :
  ~ In backtick inner ->
  normalize (marker ++ inner ++ marker) = SpecModel.braceSpan inner.
Proof.
  intros Hp. unfold normalize.
  assert (Ht : trim (marker ++ inner ++ marker) = marker ++ inner ++ marker).
  { assert (E : marker ++ inner ++ marker
                = backtick :: ([backtick; backtick] ++ inner ++ [backtick; backtick])
                  ++ [backtick])
      by (unfold marker; cbn [app]; now rewrite <- !app_assoc).
    rewrite E. now apply trim_bounded. }
  rewrite Ht.
  destruct (stripFences_fenced inner Hp) as (tag & Hi & Htag).
  rewrite <- matchObject_braceSpan. rewrite Hi at 2.
  now rewrite matchObject_skip_tag.
Qed.

Lemma replaceAll_no_marker (re : matcher) (s : jsstring) :
  re = fence \/ re = fenceJson -> occurs marker s = false ->
  replaceAll re s = s.
Proof.
  intros Hre. induction s as [|c s IH]; [reflexivity|].
  cbn [occurs]. intros H. apply orb_false_iff in H as [H1 H2].
  rewrite replaceAll_keep by now apply no_marker_no_fence.
  f_equal. now apply IH.
Qed.

(** *** The two [replace] calls against the removal in words *)

Lemma startsWith_snoc (p : jsstring) (c : N) :
  forall s,
    startsWith (p ++ [c]) s
    = startsWith p s
      && match skipn (length p) s with
         | d :: _ => N.eqb c d
         | [] => false
         end.
Proof.
  induction p as [|x p IH]; intros [|y s]; cbn [app startsWith length skipn];
    try reflexivity.
  - now rewrite andb_true_r.
  - rewrite IH. now rewrite andb_assoc.
Qed.

Lemma skipn_next {A : Type} (k : nat) :
  forall (l : list A) d tail, skipn k l = d :: tail -> skipn (S k) l = tail.
Proof.
  induction k as [|k IH]; intros l d tail H.
  - cbn in H. subst l. reflexivity.
  - destruct l as [|x l]; [discriminate|]. cbn [skipn] in H.
    change (skipn (S (S k)) (x :: l)) with (skipn (S k) l). now apply (IH l d).
Qed.

Lemma fence_withLineBreak : fence = SpecModel.withLineBreak marker.
Proof. reflexivity. Qed.

Lemma fenceJson_withLineBreak :
  fenceJson = SpecModel.withLineBreak (marker ++ js "json").
Proof. reflexivity. Qed.

Lemma withLineBreak_None (p s : jsstring) :
  startsWith p s = false -> SpecModel.withLineBreak p s = None.
Proof.
  intros H. unfold SpecModel.withLineBreak. rewrite H.
  destruct (startsWith (p ++ [newline]) s) eqn:E; [|reflexivity].
  apply startsWith_app_l in E. congruence.
Qed.

(** Where [p] does not occur, the [replace] call changes nothing. *)
Lemma replaceAll_absent (p : jsstring) :
  forall s,
    SpecModel.firstOccurrence p s = None ->
    replaceAll (SpecModel.withLineBreak p) s = s.
Proof.
  induction s as [|c s IH]; intros H; [reflexivity|].
  cbn [SpecModel.firstOccurrence] in H.
  destruct (startsWith p (c :: s)) eqn:E; [discriminate|].
  destruct (SpecModel.firstOccurrence p s); [discriminate|].
  rewrite replaceAll_keep by now apply withLineBreak_None.
  now rewrite IH.
Qed.

(** At the first occurrence of [p] the [replace] call keeps what is before
    it, drops it with a line break directly after it, and goes on. *)
Lemma replaceAll_first (p : jsstring) :
  p <> [] ->
  forall s i,
    SpecModel.firstOccurrence p s = Some i ->
    replaceAll (SpecModel.withLineBreak p) s
    = firstn i s
      ++ replaceAll (SpecModel.withLineBreak p)
           (SpecModel.dropLineBreak (skipn (i + length p) s)).
Proof.
  intros Hp. induction s as [|c s IH]; intros i H.
  - cbn [SpecModel.firstOccurrence] in H.
    destruct p; [now destruct Hp | discriminate].
  - cbn [SpecModel.firstOccurrence] in H.
    destruct (startsWith p (c :: s)) eqn:E.
    + injection H as <-. cbn [firstn app Nat.add].
      destruct p as [|x p]; [now destruct Hp|]. clear Hp.
      pose proof (startsWith_snoc (x :: p) newline (c :: s)) as Hnl.
      rewrite E in Hnl. cbn [andb] in Hnl.
      destruct (skipn (length (x :: p)) (c :: s)) as [|d tail] eqn:Es.
      * rewrite (replaceAll_drop _ c s (length p)).
        -- cbn [length skipn] in Es. rewrite Es. reflexivity.
        -- unfold SpecModel.withLineBreak. now rewrite Hnl, E.
      * destruct (N.eqb newline d) eqn:Ed.
        -- rewrite (replaceAll_drop _ c s (length (x :: p))).
           ++ cbn [SpecModel.dropLineBreak]. rewrite N.eqb_sym, Ed.
              cbn [length skipn] in Es.
              change (length (x :: p)) with (S (length p)).
              now rewrite (skipn_next _ _ _ _ Es).
           ++ unfold SpecModel.withLineBreak. now rewrite Hnl.
        -- rewrite (replaceAll_drop _ c s (length p)).
           ++ cbn [SpecModel.dropLineBreak]. rewrite N.eqb_sym, Ed.
              cbn [length skipn] in Es. now rewrite Es.
           ++ unfold SpecModel.withLineBreak. now rewrite Hnl, E.
    + destruct (SpecModel.firstOccurrence p s) as [j|] eqn:Ej; [|discriminate].
      injection H as <-.
      rewrite replaceAll_keep by now apply withLineBreak_None.
      cbn [firstn app Nat.add skipn]. f_equal. now apply IH.
Qed.

Lemma dropLineBreak_length (s : jsstring) :
  length (SpecModel.dropLineBreak s) <= length s.
Proof.
  destruct s as [|c s]; [reflexivity|]. cbn.
  destruct (N.eqb c newline); cbn; lia.
Qed.

(** The [replace] call for [p] with an optional line break is the removal
    in words. *)
Lemma replaceAll_deleteAll (p : jsstring) :
  p <> [] ->
  forall n s,
    length s <= n ->
    replaceAll (SpecModel.withLineBreak p) s = SpecModel.deleteAll p n s.
Proof.
  intros Hp. induction n as [|n IH]; intros s Hlen.
  - destruct s; [reflexivity | cbn in Hlen; lia].
  - cbn [SpecModel.deleteAll].
    destruct (SpecModel.firstOccurrence p s) as [i|] eqn:E.
    + rewrite (replaceAll_first p Hp s i E). f_equal. apply IH.
      pose proof (dropLineBreak_length (skipn (i + length p) s)) as Hd.
      rewrite length_skipn in Hd.
      assert (0 < length p) by (destruct p; [now destruct Hp | cbn; lia]).
      lia.
    + now apply replaceAll_absent.
Qed.

Lemma stripFences_unfence (s : jsstring) :
  stripFences s = SpecModel.unfence s.
Proof.
  unfold stripFences, SpecModel.unfence. cbv zeta.
  rewrite fence_withLineBreak, fenceJson_withLineBreak.
  rewrite <- (replaceAll_deleteAll (marker ++ js "json"))
    by (try discriminate; reflexivity).
  now rewrite <- (replaceAll_deleteAll marker) by (try discriminate; reflexivity).
Qed.

(** C4 (amended). For every raw string, [normalize] trims the whitespace at
    both ends; then deletes, from the left, every marker of three backticks
    that is followed by [json], with that tag and one line break directly
    after it, and then every marker left, with one line break directly
    after it: paired or not, wherever it stands, so a text without marker
    stays as it is, a tag other than [json] stays in the text, and no
    marker is left; then it returns the text from the first opening brace
    to the last closing brace of the cleaned text, both included, and finds
    nothing (the branch that throws 'No JSON found in response') exactly
    when the cleaned text has no opening brace before a closing brace.  In
    particular, for a block fenced by a pair of markers, with any tag and no
    backtick inside, the result is the brace span of what is fenced. *)
Theorem C4_normalize_trim_unfence_span (raw : jsstring) :
  let trimmed := trim raw in
  let cleaned := SpecModel.unfence trimmed in
  (exists l r, raw = l ++ trimmed ++ r
               /\ forallb isWhiteSpace l = true
               /\ forallb isWhiteSpace r = true)
  /\ match trimmed with [] => True | c :: _ => isWhiteSpace c = false end
  /\ match rev trimmed with [] => True | c :: _ => isWhiteSpace c = false end
  /\ stripFences trimmed = cleaned
  /\ (occurs marker trimmed = false -> cleaned = trimmed)
  /\ occurs marker cleaned = false
  /\ normalize raw = SpecModel.braceSpan cleaned
  /\ (normalize raw = None
      <-> ~ exists i k, i < k /\ nth_error cleaned i = Some lbrace
                        /\ nth_error cleaned k = Some rbrace)
  /\ (forall inner,
        ~ In backtick inner ->
        raw = marker ++ inner ++ marker ->
        normalize raw = SpecModel.braceSpan inner).
Proof.
  cbv zeta. destruct (trim_spec raw) as (Hd & Hh & Hl).
  rewrite <- stripFences_unfence.
  split; [exact Hd|]. split; [exact Hh|]. split; [exact Hl|].
  split; [reflexivity|]. split.
  - intros Hno. unfold stripFences.
    rewrite (replaceAll_no_marker fenceJson), (replaceAll_no_marker fence); auto.
  - split; [apply stripFences_no_marker|].
    split; [apply matchObject_braceSpan|]. split.
    + unfold normalize. rewrite matchObject_braceSpan. apply braceSpan_None.
    + intros inner Hp ->. now apply normalize_fenced.
Qed.

Lemma C4_witness :
  normalize (marker ++ (js "python" ++ [newline] ++ jsq "{'a':{'b':1}}") ++ marker)
  = Some (jsq "{'a':{'b':1}}").
Proof.
  destruct (C4_normalize_trim_unfence_span
              (marker ++ (js "python" ++ [newline] ++ jsq "{'a':{'b':1}}") ++ marker))
    as (_ & _ & _ & _ & _ & _ & _ & _ & Hfenced).
  rewrite (Hfenced (js "python" ++ [newline] ++ jsq "{'a':{'b':1}}"));
    [reflexivity | cbn; intuition discriminate | reflexivity].
Defined.

(** C4, as stated, fails.  The first text holds one marker, so no pair of
    them, and it stands inside the object: by the claim nothing is removed
    and the result is the text itself, which is its own brace span; the
    code deletes the marker.  And the tag matters: after a marker inside
    the object the tag [json] goes with it, the tag [python] stays. *)
Lemma C4_unpaired_marker_is_removed :
  SpecModel.braceSpan (trim (jsq "{'a':'```'}")) = Some (jsq "{'a':'```'}")
  /\ normalize (jsq "{'a':'```'}") = Some (jsq "{'a':''}")
  /\ normalize (jsq "{'a':'```json'}") = Some (jsq "{'a':''}")
  /\ normalize (jsq "{'a':'```python'}") = Some (jsq "{'a':'python'}").
Proof. repeat split; reflexivity. Qed.

(** The fence is dropped with a [json] tag, with another tag and with none;
    prose around the object is dropped; text without braces gives nothing. *)
Example normalize_examples :
  normalize (js "```json" ++ [newline] ++ jsq "{'suggestions':[]}" ++ [newline] ++ js "```")
    = Some (jsq "{'suggestions':[]}")
  /\ normalize (js "  ```python" ++ [newline] ++ jsq "{'a':{'b':1}}" ++ js "``` ")
     = Some (jsq "{'a':{'b':1}}")
  /\ normalize (js "```" ++ [newline] ++ js "{}" ++ [newline] ++ js "```")
     = Some (js "{}")
  /\ normalize (jsq "Sure! Here you go: {'suggestions':[]} Enjoy.")
     = Some (jsq "{'suggestions':[]}")
  /\ normalize (js "I could not think of anything.") = None
  /\ normalize (js "} first, then {") = None.
Proof. repeat split; reflexivity. Qed.

(** On bare JSON the normalizer changes nothing, so applying it twice is
    applying it once. *)
Example normalize_bare_json :
  let bare := jsq "{'suggestions':[{'title':'A','reason':'B','action':'C'}]}" in
  normalize bare = Some bare.
Proof. reflexivity. Qed.

End NormalizerFacts.

(** ** The schemas *)

Section SchemaFacts.

Lemma zString_min1 (msg : Message) (input : option json) (t : jsstring) :
  zString [Min 1 msg] input = Success t <-> input = Some (JStr t) /\ t <> [].
Proof.
  unfold zString. destruct input as [[| | |s| |]|]; cbn;
    try (split; [discriminate | intros [[=] _]]).
  destruct s as [|c s]; cbn; split.
  - discriminate.
  - intros [[= <-] H]. now destruct H.
  - intros [= <-]. split; [reflexivity | discriminate].
  - now intros [[= <-] _].
Qed.

Lemma zString_Failure (checks : list StringCheck) (input : option json)
    (issues : list Issue) :
  zString checks input = Failure issues -> issues <> [].
Proof.
  unfold zString. destruct input as [[| | |s| |]|];
    try (intros [= <-]; discriminate).
  destruct (runChecks checks s) as [out [|i more]]; [discriminate|].
  intros [= <-]. discriminate.
Qed.

Lemma prefixIssues_nil (p : PathItem) (issues : list Issue) :
  prefixIssues p issues = [] -> issues = [].
Proof. now destruct issues. Qed.

(** [suggestionSchema] accepts exactly the objects whose three fields are
    non-empty strings, and reads the three fields and nothing else. *)
Lemma suggestionSchema_Success (e : json) (item : Suggestion) :
  suggestionSchema (Some e) = Success item
  <-> SpecModel.elementOk SpecModel.nonEmptyAsIs e item.
Proof.
  unfold SpecModel.elementOk, SpecModel.nonEmptyAsIs. split.
  - unfold suggestionSchema. destruct e as [| | | | |members]; try discriminate.
    cbv zeta.
    destruct (zString _ (field (js "title") members)) eqn:Et;
      destruct (zString _ (field (js "reason") members)) eqn:Er;
      destruct (zString _ (field (js "action") members)) eqn:Ea;
      try discriminate.
    intros [= <-]. apply zString_min1 in Et, Er, Ea. cbn.
    exists members. intuition.
  - intros (members & -> & Ht & Hr & Ha & Nt & Nr & Na).
    unfold suggestionSchema. cbv zeta.
    rewrite (proj2 (zString_min1 _ _ _) (conj Ht Nt)),
            (proj2 (zString_min1 _ _ _) (conj Hr Nr)),
            (proj2 (zString_min1 _ _ _) (conj Ha Na)).
    now destruct item.
Qed.

Lemma suggestionSchema_Failure (v : option json) (issues : list Issue) :
  suggestionSchema v = Failure issues -> issues <> [].
Proof.
  unfold suggestionSchema.
  destruct v as [[| | | | |members]|]; try (intros [= <-]; discriminate).
  cbv zeta.
  destruct (zString _ (field (js "title") members)) eqn:Et;
    destruct (zString _ (field (js "reason") members)) eqn:Er;
    destruct (zString _ (field (js "action") members)) eqn:Ea;
    try discriminate; intros [= <-] H;
    repeat (apply app_eq_nil in H as [? H]);
    repeat match goal with
           | H : prefixIssues _ _ = [] |- _ => apply prefixIssues_nil in H
           end;
    cbn [issuesOf] in *; subst;
    match goal with
    | H : zString _ _ = Failure [] |- _ => now apply zString_Failure in H
    end.
Qed.

Lemma zElements_Success {T : Type} (elem : Schema T)
    (Hne : forall v issues, elem v = Failure issues -> issues <> [])
    (items : list json) :
  forall i outs,
    zElements elem i items = (outs, [])
    <-> Forall2 (fun v o => elem (Some v) = Success o) items outs.
Proof.
  induction items as [|v more IH]; intros i outs; cbn [zElements].
  - split; [intros [= <-]; constructor | intros H; now inversion H].
  - destruct (zElements elem (S i) more) as [outs' issues'] eqn:E.
    destruct (elem (Some v)) as [out|here] eqn:Ev; split.
    + intros [= <- ->]. constructor; [exact Ev | now apply (IH (S i))].
    + intros H. inversion H as [|? o ? outs'' Ho Hmore]; subst.
      rewrite Ev in Ho. injection Ho as <-.
      apply (IH (S i)) in Hmore. rewrite E in Hmore. now injection Hmore as <- <-.
    + intros [= _ H]. apply app_eq_nil in H as [H _].
      apply prefixIssues_nil in H. subst. now apply Hne in Ev.
    + intros H. inversion H as [|? o ? outs'' Ho Hmore]; subst.
      rewrite Ev in Ho. discriminate.
Qed.

Lemma zArray_Success {T : Type} (elem : Schema T)
    (Hne : forall v issues, elem v = Failure issues -> issues <> [])
    (lo hi : nat) (input : option json) (outs : list T) :
  zArray elem lo hi input = Success outs
  <-> exists items, input = Some (JArr items)
        /\ lo <= length items <= hi
        /\ Forall2 (fun v o => elem (Some v) = Success o) items outs.
Proof.
  unfold zArray. split.
  - destruct input as [[| | | |items|]|]; try discriminate.
    destruct (zElements elem 0 items) as [outs' issues] eqn:E.
    destruct (issues ++ _) eqn:Eall; [|discriminate].
    intros [= ->]. apply app_eq_nil in Eall as [-> Hsize].
    unfold sizeIssues in Hsize. apply app_eq_nil in Hsize as [Hlo Hhi].
    exists items. split; [reflexivity|]. split.
    + destruct (length items <? lo) eqn:E1; [discriminate|].
      destruct (hi <? length items) eqn:E2; [discriminate|].
      apply Nat.ltb_ge in E1, E2. lia.
    + now apply (zElements_Success elem Hne items 0).
  - intros (items & -> & [Hlo Hhi] & Hall).
    apply (zElements_Success elem Hne items 0) in Hall. rewrite Hall.
    unfold sizeIssues. apply Nat.ltb_ge in Hlo, Hhi. now rewrite Hlo, Hhi.
Qed.

(** [aiResponseSchema] accepts exactly the objects whose [suggestions] is an
    array of 1 to 10 elements, each accepted by [suggestionSchema]. *)
Lemma aiResponseSchema_Success (v : json) (items : list Suggestion) :
  aiResponseSchema (Some v) = Success (mkAiResponse items)
  <-> SpecModel.accepted SpecModel.nonEmptyAsIs v items.
Proof.
  unfold SpecModel.accepted, aiResponseSchema. split.
  - destruct v as [| | | | |members]; try discriminate.
    destruct (zArray _ _ _ _) as [outs|] eqn:E; [|discriminate].
    intros [= ->].
    apply (zArray_Success _ suggestionSchema_Failure) in E
      as (elems & Hf & Hlen & Hall).
    exists members, elems. repeat split; try tauto.
    eapply Forall2_impl; [|exact Hall]. intros e o. apply suggestionSchema_Success.
  - intros (members & elems & -> & Hf & Hlen & Hall).
    assert (E : zArray suggestionSchema 1 10 (field (js "suggestions") members)
                = Success items).
    { apply (zArray_Success _ suggestionSchema_Failure). exists elems.
      repeat split; try tauto.
      eapply Forall2_impl; [|exact Hall]. intros e o. apply suggestionSchema_Success. }
    now rewrite E.
Qed.

End SchemaFacts.

(** ** The Schema Validator and the Fallback Generator *)

Section ValidatorFacts.

Variable JSON_parse : jsstring -> option json.

Lemma validateCandidate_Ok (candidate : jsstring) (items : list Suggestion) :
  validateCandidate JSON_parse candidate = Ok items
  <-> exists v, JSON_parse candidate = Some v
                /\ SpecModel.accepted SpecModel.nonEmptyAsIs v items.
Proof.
  unfold validateCandidate, parse. split.
  - destruct (JSON_parse candidate) as [v|]; [|discriminate].
    destruct (aiResponseSchema (Some v)) as [[its]|] eqn:E; [|discriminate].
    cbn. intros [= <-]. exists v. split; [reflexivity|].
    now apply aiResponseSchema_Success.
  - intros (v & -> & Hacc). apply aiResponseSchema_Success in Hacc.
    now rewrite Hacc.
Qed.

Lemma validateCandidate_length (candidate : jsstring) (items : list Suggestion) :
  validateCandidate JSON_parse candidate = Ok items -> 1 <= length items <= 10.
Proof.
  intros H. apply validateCandidate_Ok in H
    as (v & _ & members & elems & _ & _ & Hlen & Hall).
  apply Forall2_length in Hall. lia.
Qed.

(** The parse stage is total and gives between 1 and 10 items. *)
Lemma parseSuggestions_length (raw : jsstring) :
  1 <= length (parseSuggestions JSON_parse raw) <= 10.
Proof.
  unfold parseSuggestions, tryParse.
  destruct (normalize raw) as [candidate|]; [|cbn; lia].
  destruct (validateCandidate JSON_parse candidate) as [items|e] eqn:E;
    [|cbn; lia].
  now apply validateCandidate_length in E.
Qed.

(** C3 (amended). The Schema Validator accepts a candidate string and
    returns its items exactly when the candidate parses as JSON whose top
    level is an object with a [suggestions] sequence of length between 1 and
    10 inclusive, every element of which is an object whose [title],
    [reason] and [action] fields are all present and are non-empty strings
    (as they stand: no trimming is applied); the items returned are the
    three fields of every element, in order, so one invalid element or an
    empty sequence rejects the whole response. *)
Theorem C3_validator_accepts_iff (candidate : jsstring) (items : list Suggestion) :
  validateCandidate JSON_parse candidate = Ok items
  <-> exists v, JSON_parse candidate = Some v
                /\ SpecModel.accepted SpecModel.nonEmptyAsIs v items.
Proof. apply validateCandidate_Ok. Qed.

(** C7. The fallback is one fixed item, whatever the raw text and whatever
    made the [try] block throw; and the fallback passes the schema of the
    response unchanged. *)
Theorem C7_fallback_fixed_and_valid :
  length fallback = 1
  /\ (forall raw,
        match tryParse JSON_parse raw with
        | Ok items => parseSuggestions JSON_parse raw = items
        | Throw _ => parseSuggestions JSON_parse raw = fallback
        end)
  /\ parse aiResponseSchema (JObj [ (js "suggestions", suggestionsJson fallback) ])
     = Ok (mkAiResponse fallback)
  /\ validateCandidate Json.JSON_parse Samples.fallbackText = Ok fallback.
Proof.
  split; [reflexivity|]. split; [|split; reflexivity].
  intros raw. unfold parseSuggestions.
  now destruct (tryParse JSON_parse raw).
Qed.

End ValidatorFacts.

(** C3, as stated, fails: a candidate whose title is a single space is
    accepted and returned, although its title is empty after trimming. *)
Lemma C3_blank_title_is_accepted :
  validateCandidate Json.JSON_parse Samples.blankTitle = Ok Samples.blankTitleItems
  /\ ~ (exists v, Json.JSON_parse Samples.blankTitle = Some v
                  /\ SpecModel.accepted SpecModel.nonEmptyTrimmed v
                       Samples.blankTitleItems).
Proof.
  split; [reflexivity|].
  intros (v & _ & members & elems & _ & _ & _ & Hall).
  inversion Hall as [|e item elems' items' He Hmore]; subst.
  destruct He as (m & _ & _ & _ & _ & Nt & _). now apply Nt.
Qed.

Lemma C3_witness :
  exists v,
    Json.JSON_parse Samples.goodContent = Some v
    /\ SpecModel.accepted SpecModel.nonEmptyAsIs v Samples.goodItems.
Proof.
  apply (proj1 (C3_validator_accepts_iff Json.JSON_parse Samples.goodContent
                  Samples.goodItems)).
  reflexivity.
Defined.

(** The checks of the specification on the validator: the fenced sample
    gives its one item; an empty sequence is refused with the size issue, at
    the path [suggestions]; a missing field is refused at the index of the
    element; text that is not JSON is a [SyntaxError]. *)
Example validator_examples :
  tryParse Json.JSON_parse
    (js "```json" ++ [newline]
     ++ jsq "{'suggestions':[{'title':'A','reason':'B','action':'C'}]}"
     ++ [newline] ++ js "```")
  = Ok [ mkSuggestion (js "A") (js "B") (js "C") ]
  /\ tryParse Json.JSON_parse (jsq "Sure! Here you go: {'suggestions':[]}")
     = Throw (ZodError [ mkIssue [Key (js "suggestions")] (Default too_small) ])
  /\ tryParse Json.JSON_parse
       (jsq "{'suggestions':[{'title':'A','reason':'B','action':'C'},{'title':'A','reason':'B'}]}")
     = Throw (ZodError [ mkIssue [Key (js "suggestions"); Index 1; Key (js "action")]
                           (Default invalid_type) ])
  /\ tryParse Json.JSON_parse (jsq "{'suggestions': oops}") = Throw SyntaxError
  /\ parseSuggestions Json.JSON_parse (js "no braces at all") = fallback.
Proof. repeat split; reflexivity. Qed.

(** ** The handler, path by path *)

Section HandlerPaths.

Variable JSON_parse : jsstring -> option json.
Variable env : Env.

Lemma POST_body_throws (w : World) (e : Error) :
  req_json env = Throw e -> POST JSON_parse env w = caught e w.
Proof. intros H. run. now rewrite H. Qed.

Lemma POST_invalid (w : World) (body : json) (e : Error) :
  req_json env = Ok body -> validate aiPromptSchema body = Throw e ->
  POST JSON_parse env w = caught e w.
Proof. intros H1 H2. run. rewrite H1. step. now rewrite H2. Qed.

Lemma POST_client_throws (w : World) (body : json) (validated : AiPromptInput)
    (e : Error) :
  req_json env = Ok body -> validate aiPromptSchema body = Ok validated ->
  createServiceClient env = Throw e ->
  POST JSON_parse env w = caught e w.
Proof.
  intros H1 H2 H3. run. rewrite H1. step. rewrite H2. step. now rewrite H3.
Qed.

Lemma POST_unauthorized (w : World) (body : json) (validated : AiPromptInput) :
  req_json env = Ok body -> validate aiPromptSchema body = Ok validated ->
  createServiceClient env = Ok tt -> auth_getUser env = None ->
  POST JSON_parse env w
  = (unauthorized, mkWorld (table w) (trace w ++ [AuthGetUser])).
Proof.
  intros H1 H2 H3 H4. run. rewrite H1. step. rewrite H2. step. rewrite H3.
  step. now rewrite H4.
Qed.

Lemma POST_rate_limited (w : World) (validated : AiPromptInput) (user : User)
    (r : Row) (more : list Row) :
  authenticated env validated user ->
  recentRows env user (table w) = r :: more ->
  POST JSON_parse env w
  = (oncePerDay, mkWorld (table w) (trace w ++ rateTrace env user)).
Proof.
  intros Ha Hr. enter Ha. rewrite Hr. step.
  unfold rateTrace. now rewrite <- app_assoc.
Qed.

Lemma POST_cached (w : World) (validated : AiPromptInput) (user : User)
    (row : Row) (more : list Row) :
  authenticated env validated user ->
  recentRows env user (table w) = [] ->
  cachedRows env validated (table w) = row :: more ->
  POST JSON_parse env w
  = (cachedResponse (row_suggestions row),
     mkWorld (table w) (trace w ++ cacheTrace env user validated)).
Proof.
  intros Ha Hr Hc. enter Ha. rewrite Hr. step. rewrite Hc. step.
  unfold cacheTrace, rateTrace. now rewrite <- !app_assoc.
Qed.

Lemma POST_gateway_throws (w : World) (validated : AiPromptInput) (user : User)
    (e : Error) :
  authenticated env validated user ->
  recentRows env user (table w) = [] ->
  cachedRows env validated (table w) = [] ->
  openai_create env (buildProfileSuggestionPrompt validated) = Throw e ->
  POST JSON_parse env w
  = caught e
      (mkWorld (table w)
         (trace w ++ cacheTrace env user validated
          ++ [OpenAICreate (buildProfileSuggestionPrompt validated)])).
Proof.
  intros Ha Hr Hc Hg. enter Ha. rewrite Hr. step. rewrite Hc. step.
  rewrite Hg. step.
  unfold cacheTrace, rateTrace. now rewrite <- !app_assoc.
Qed.

(** The generation path: the answer is the success response with what
    [parseSuggestions] made of the content; the record is stored unless the
    insert fails, and a failed insert is only logged. *)
Lemma POST_generated (w : World) (validated : AiPromptInput) (user : User)
    (content : option jsstring) :
  authenticated env validated user ->
  recentRows env user (table w) = [] ->
  cachedRows env validated (table w) = [] ->
  openai_create env (buildProfileSuggestionPrompt validated) = Ok content ->
  let raw := match content with Some s => s | None => [] end in
  let suggestions := parseSuggestions JSON_parse raw in
  let record := newRow env user suggestions validated in
  let events :=
    cacheTrace env user validated
    ++ [OpenAICreate (buildProfileSuggestionPrompt validated)]
    ++ parseLog JSON_parse raw
    ++ [Insert (userId user) (suggestionsJson suggestions) (inputJson validated)] in
  POST JSON_parse env w
  = (successResponse suggestions (experienceLevel validated) (now_toISOString env),
     if insert_fails env
     then mkWorld (table w)
            (trace w ++ events
             ++ [ConsoleError (js "Database error:") (LogError (Rejected (js "insert")))])
     else mkWorld (table w ++ [record]) (trace w ++ events)).
Proof.
  intros Ha Hr Hc Hg. enter Ha. rewrite Hr. step. rewrite Hc. step.
  rewrite Hg. step.
  unfold cacheTrace, rateTrace.
  destruct (insert_fails env); step; now rewrite <- !app_assoc.
Qed.

(** Every call of the handler ends in one of the ways of [Path]: it always
    answers, and nothing thrown inside escapes it. *)
Lemma POST_path (w : World) : Path JSON_parse env w (POST JSON_parse env w).
Proof.
  destruct (req_json env) as [body|e] eqn:H1;
    [|rewrite (POST_body_throws w e H1); apply path_thrown; now left].
  destruct (validate aiPromptSchema body) as [validated|e] eqn:H2;
    [|rewrite (POST_invalid w body e H1 H2); apply path_thrown;
      right; left; now exists body].
  destruct (createServiceClient env) as [[]|e] eqn:H3;
    [|rewrite (POST_client_throws w body validated e H1 H2 H3);
      apply path_thrown; right; right; now exists body, validated].
  destruct (auth_getUser env) as [user|] eqn:H4;
    [|rewrite (POST_unauthorized w body validated H1 H2 H3 H4);
      now apply (path_unauthorized _ _ _ body validated)].
  assert (Ha : authenticated env validated user) by now exists body.
  destruct (recentRows env user (table w)) as [|r more] eqn:Hr;
    [|rewrite (POST_rate_limited w validated user r more Ha Hr);
      now apply (path_rate_limited _ _ _ validated user r more)].
  destruct (cachedRows env validated (table w)) as [|row more] eqn:Hc;
    [|rewrite (POST_cached w validated user row more Ha Hr Hc);
      now apply (path_cache_hit _ _ _ validated user row more)].
  destruct (openai_create env (buildProfileSuggestionPrompt validated))
    as [content|e] eqn:Hg.
  - rewrite (POST_generated w validated user content Ha Hr Hc Hg).
    now apply path_generated.
  - rewrite (POST_gateway_throws w validated user e Ha Hr Hc Hg).
    now apply path_gateway_threw.
Qed.

Lemma suggestionsJson_carried (l : list Suggestion) (level : ExperienceLevel)
    (timestamp : jsstring) :
  1 <= length l <= 10 -> carriesItems (successResponse l level timestamp).
Proof.
  intros H. exists (map suggestionJson l). split; [reflexivity|].
  now rewrite length_map.
Qed.

(** The answer is a success with 1 to 10 items or one of the three error
    responses; the invariant of the table is kept. *)
Lemma POST_answers (w : World) :
  storedOk (table w) ->
  let r := fst (POST JSON_parse env w) in
  ((status r = 200%Z /\ carriesItems r)
   \/ r = oncePerDay \/ r = unauthorized \/ r = failed)
  /\ storedOk (table (snd (POST JSON_parse env w))).
Proof.
  intros Hstore. cbv zeta.
  destruct (POST_path w)
    as [e _ | body validated _ _ _ _ | validated user r more _ _
        | validated user row more _ _ Hc | validated user e _ _ _ _
        | validated user content _ _ _ _ raw suggestions events];
    cbn [fst snd table caught].
  - auto.
  - auto.
  - auto.
  - discriminate Hc.
  - auto.
  - pose proof (parseSuggestions_length JSON_parse raw) as Hlen.
    fold suggestions in Hlen.
    split; [left; split; [reflexivity | now apply suggestionsJson_carried]|].
    destruct (insert_fails env); cbn [table]; [exact Hstore|].
    apply Forall_app. split; [exact Hstore|]. constructor; [|constructor].
    exists (map suggestionJson suggestions). split; [reflexivity|].
    now rewrite length_map.
Qed.

(** The status 500 response is sent only after something has thrown. *)
Lemma POST_failed_cause (w : World) :
  fst (POST JSON_parse env w) = failed ->
  exists e,
    req_json env = Throw e
    \/ (exists body,
          req_json env = Ok body /\ validate aiPromptSchema body = Throw e)
    \/ createServiceClient env = Throw e
    \/ (exists prompt, openai_create env prompt = Throw e).
Proof.
  destruct (POST_path w)
    as [e He | body validated _ _ _ _ | validated user r more _ _
        | validated user row more _ _ Hc | validated user e _ _ _ Hg
        | validated user content _ _ _ _ raw suggestions events];
    cbn [fst caught]; try discriminate.
  - intros _. exists e.
    destruct He as [He | [He | (body & validated & _ & _ & He)]]; auto.
  - intros _. exists e. right. right. right. eauto.
Qed.

(** At most one record is stored by a call, and one is stored only together
    with the success response of the generation path. *)
Lemma POST_stores (w : World) :
  table (snd (POST JSON_parse env w)) = table w
  \/ exists validated user raw,
       table (snd (POST JSON_parse env w))
       = table w ++ [newRow env user (parseSuggestions JSON_parse raw) validated]
       /\ fst (POST JSON_parse env w)
          = successResponse (parseSuggestions JSON_parse raw)
              (experienceLevel validated) (now_toISOString env)
       /\ insert_fails env = false.
Proof.
  destruct (POST_path w)
    as [e _ | body validated _ _ _ _ | validated user r more _ _
        | validated user row more _ _ Hc | validated user e _ _ _ _
        | validated user content _ _ _ _ raw suggestions events];
    cbn [fst snd table caught]; try (now left).
  destruct (insert_fails env) eqn:Ei; cbn [table]; [now left|].
  right. now exists validated, user, raw.
Qed.

End HandlerPaths.

(** ** What the handler promises *)

Section HandlerClaims.

Variable JSON_parse : jsstring -> option json.

(** C1 (amended). When the insert fails on the generation path the failure
    is only logged: the handler still answers with the success response and
    the generated suggestions, and nothing has been stored.  When the insert
    succeeds exactly one record is stored.  Whatever the path, a call stores
    at most one record, and it stores one only together with the success
    response of the generation path, the insert not having failed: a call
    answered with another status than 200, as the 401 and the 429 responses
    are, stores none. *)
Theorem C1_failed_insert_is_logged_only (env : Env) (w : World)
    (validated : AiPromptInput) (user : User) (content : option jsstring) :
  authenticated env validated user ->
  recentRows env user (table w) = [] ->
  openai_create env (buildProfileSuggestionPrompt validated) = Ok content ->
  let suggestions :=
    parseSuggestions JSON_parse (match content with Some s => s | None => [] end) in
  let answer := POST JSON_parse env w in
  fst answer
  = successResponse suggestions (experienceLevel validated) (now_toISOString env)
  /\ (insert_fails env = true ->
      table (snd answer) = table w
      /\ In (ConsoleError (js "Database error:") (LogError (Rejected (js "insert"))))
            (trace (snd answer)))
  /\ (insert_fails env = false ->
      table (snd answer) = table w ++ [newRow env user suggestions validated])
  /\ (forall env' w',
        table (snd (POST JSON_parse env' w')) = table w'
        \/ exists validated' user' raw,
             table (snd (POST JSON_parse env' w'))
             = table w'
               ++ [newRow env' user' (parseSuggestions JSON_parse raw) validated']
             /\ fst (POST JSON_parse env' w')
                = successResponse (parseSuggestions JSON_parse raw)
                    (experienceLevel validated') (now_toISOString env')
             /\ insert_fails env' = false)
  /\ (forall env' w',
        status (fst (POST JSON_parse env' w')) <> 200%Z ->
        table (snd (POST JSON_parse env' w')) = table w').
Proof.
  intros Ha Hr Hg. cbv zeta.
  rewrite (POST_generated JSON_parse env w validated user content Ha Hr eq_refl Hg).
  cbn [fst snd]. split; [reflexivity|]. split; [|split; [|split]].
  - intros ->. cbn [table trace]. split; [reflexivity|].
    apply in_or_app. right. apply in_or_app. right. now left.
  - now intros ->.
  - intros env' w'. apply POST_stores.
  - intros env' w' Hstatus.
    destruct (POST_stores JSON_parse env' w') as [H | (v & u & raw & _ & H & _)];
      [exact H|].
    rewrite H in Hstatus. now destruct Hstatus.
Qed.


(** C6 (amended). A result produced via the fallback path is an ordinary
    success response: status 200, the fixed fallback item and no [degraded]
    flag; the failure of normalization or validation (a null completion
    included) is not surfaced to the caller and is only written to the
    server's console. *)
Theorem C6_fallback_is_unflagged_success (env : Env) (w : World)
    (validated : AiPromptInput) (user : User) (content : option jsstring)
    (e : Error) :
  authenticated env validated user ->
  recentRows env user (table w) = [] ->
  openai_create env (buildProfileSuggestionPrompt validated) = Ok content ->
  tryParse JSON_parse (match content with Some s => s | None => [] end)
    = Throw e ->
  let answer := POST JSON_parse env w in
  fst answer
  = successResponse fallback (experienceLevel validated) (now_toISOString env)
  /\ status (fst answer) = 200%Z
  /\ arrow (body (fst answer)) (js "success") = Some (JBool true)
  /\ arrow (body (fst answer)) (js "degraded") = None
  /\ In (ConsoleError (js "Failed to parse AI response:") (LogError e))
        (trace (snd answer)).
Proof.
  intros Ha Hr Hg He. cbv zeta.
  rewrite (POST_generated JSON_parse env w validated user content Ha Hr eq_refl Hg).
  cbn [fst snd]. unfold parseSuggestions, parseLog. rewrite He.
  repeat (split; [reflexivity|]).
  destruct (insert_fails env); cbn [trace];
    rewrite !in_app_iff; cbn [In]; auto 10.
Qed.

End HandlerClaims.

(** ** Input validation *)

Section InputFacts.

Variable JSON_parse : jsstring -> option json.

Lemma userBackgroundSchema_string (s : jsstring) :
  userBackgroundSchema (Some (JStr s))
  = if length s <? 10 then Failure [mkIssue [] backgroundTooShort]
    else if 2000 <? length s then Failure [mkIssue [] backgroundTooLong]
    else Success (trim s).
Proof.
  unfold userBackgroundSchema, zString. cbn [runChecks].
  destruct (length s <? 10) eqn:E1; destruct (2000 <? length s) eqn:E2;
    try reflexivity.
  apply Nat.ltb_lt in E1, E2. lia.
Qed.

Lemma aiPromptSchema_background_refused (members : list (jsstring * json))
    (s : jsstring) (msg : Message) :
  field (js "userBackground") members = Some (JStr s) ->
  userBackgroundSchema (Some (JStr s)) = Failure [mkIssue [] msg] ->
  exists rest,
    validate aiPromptSchema (JObj members)
    = Throw (ValidationFailed (mkIssue [Key (js "userBackground")] msg :: rest)).
Proof.
  intros Hf Hs. unfold validate, aiPromptSchema. cbv zeta. rewrite Hf, Hs.
  now eexists.
Qed.

End InputFacts.

(** ** The handler on the sample requests *)

Section HandlerRuns.

Import Samples.

Lemma sample_authenticated (background : jsstring) (user : User) (now : Z)
    (completion : Result (option jsstring)) (insertFails : bool) (id : string) :
  (10 <=? length background) = true ->
  (length background <=? 2000) = true ->
  trim background = background ->
  authenticated (request background (Some user) now completion insertFails id)
    (requestInput background) user.
Proof.
  intros Hlo Hhi Ht. exists (requestBody background).
  repeat split; try reflexivity.
  unfold validate, aiPromptSchema, requestBody. cbv zeta.
  change (field (js "userBackground") _) with (Some (JStr background)).
  rewrite (userBackgroundSchema_string background).
  apply Nat.leb_le in Hlo, Hhi.
  assert (E1 : (length background <? 10) = false) by (apply Nat.ltb_ge; lia).
  assert (E2 : (2000 <? length background) = false) by (apply Nat.ltb_ge; lia).
  now rewrite E1, E2, Ht.
Qed.

End HandlerRuns.

(** C1, as stated, fails: the insert fails, and the handler answers with the
    success response and the generated items while the table stays empty. *)
Lemma C1_failed_insert_still_answers_success :
  fst (POST Json.JSON_parse Samples.insertFailing Samples.emptyWorld)
  = successResponse Samples.goodItems beginner Samples.noonText
  /\ status (fst (POST Json.JSON_parse Samples.insertFailing Samples.emptyWorld))
     = 200%Z
  /\ table (snd (POST Json.JSON_parse Samples.insertFailing Samples.emptyWorld))
     = [].
Proof. repeat split; reflexivity. Qed.

Lemma C1_witness :
  fst (POST Json.JSON_parse Samples.insertFailing Samples.emptyWorld)
  = successResponse Samples.goodItems beginner Samples.noonText
  /\ table (snd (POST Json.JSON_parse Samples.insertFailing Samples.emptyWorld))
     = [].
Proof.
  destruct (C1_failed_insert_is_logged_only Json.JSON_parse
              Samples.insertFailing Samples.emptyWorld
              (Samples.requestInput Samples.plain) Samples.alice
              (Some Samples.goodContent))
    as (Hanswer & Hfails & _).
  - apply sample_authenticated; reflexivity.
  - reflexivity.
  - reflexivity.
  - split; [exact Hanswer|]. apply Hfails. reflexivity.
Defined.



(** None of the three level names is a JSON text. *)
Lemma levelName_is_no_json (level : ExperienceLevel) :
  Json.JSON_parse (levelName level) = None.
Proof. destruct level; reflexivity. Qed.

(** C5. The handler on two calls with one and the same input: the first, of
    one user on an empty table, stores its record; the second, of another
    user a minute later, has the same experience level and the same
    normalized prefix, and the rate limiter lets it through.  It is no cache
    hit: the table refuses the caching query, the handler reads no data
    from the answer, asks for a completion again, answers without
    [cached: true] and stores a second record. *)
Lemma C5_second_call_is_not_a_cache_hit :
  map input_data (table (Samples.afterFirstCall Samples.plain))
  = [ inputJson (Samples.requestInput Samples.plain) ]
  /\ validate aiPromptSchema (Samples.requestBody Samples.plain)
     = Ok (Samples.requestInput Samples.plain)
  /\ firstFewWords (Samples.secondCall Samples.plain Samples.bob)
     = SpecModel.normalizedPrefix Samples.plain
  /\ Json.JSON_parse (levelName beginner) = None
  /\ cacheQuery beginner
       (cachePattern (Samples.secondCall Samples.plain Samples.bob))
       (table (Samples.afterFirstCall Samples.plain))
     = Refused "22P02"
  /\ fst (POST Json.JSON_parse (Samples.secondCall Samples.plain Samples.bob)
            (Samples.afterFirstCall Samples.plain))
     = successResponse Samples.goodItems beginner Samples.noonText
  /\ arrow (body (fst (POST Json.JSON_parse
                         (Samples.secondCall Samples.plain Samples.bob)
                         (Samples.afterFirstCall Samples.plain))))
           (js "cached")
     = None
  /\ completionCalls
       (skipn (length (trace (Samples.afterFirstCall Samples.plain)))
          (trace (snd (POST Json.JSON_parse
                         (Samples.secondCall Samples.plain Samples.bob)
                         (Samples.afterFirstCall Samples.plain)))))
     = 1
  /\ length (table (snd (POST Json.JSON_parse
                           (Samples.secondCall Samples.plain Samples.bob)
                           (Samples.afterFirstCall Samples.plain))))
     = 2.
Proof. repeat split; reflexivity. Qed.

(** C6, as stated, fails: a completion without JSON is answered with the
    fallback item in a success response that has no [degraded] field. *)
Lemma C6_fallback_answer_has_no_flag :
  fst (POST Json.JSON_parse Samples.proseAnswered Samples.emptyWorld)
  = successResponse fallback beginner Samples.noonText
  /\ arrow (body (fst (POST Json.JSON_parse Samples.proseAnswered Samples.emptyWorld)))
           (js "degraded")
     = None.
Proof. repeat split; reflexivity. Qed.

Lemma C6_witness :
  fst (POST Json.JSON_parse Samples.proseAnswered Samples.emptyWorld)
  = successResponse fallback beginner Samples.noonText
  /\ arrow (body (fst (POST Json.JSON_parse Samples.proseAnswered Samples.emptyWorld)))
           (js "degraded")
     = None
  /\ In (ConsoleError (js "Failed to parse AI response:")
           (LogError (ErrorOf (js "No JSON found in response"))))
        (trace (snd (POST Json.JSON_parse Samples.proseAnswered Samples.emptyWorld))).
Proof.
  destruct (C6_fallback_is_unflagged_success Json.JSON_parse
              Samples.proseAnswered Samples.emptyWorld
              (Samples.requestInput Samples.plain) Samples.alice
              (Some Samples.proseContent)
              (ErrorOf (js "No JSON found in response")))
    as (Hanswer & _ & _ & Hflag & Hlog).
  - apply sample_authenticated; reflexivity.
  - reflexivity.
  - reflexivity.
  - reflexivity.
  - now repeat split.
Defined.

(** C8. The handler on a valid input of an authenticated user with no
    stored record, when the completion call throws: the error is not taken
    up by the fallback, which lives in [parseSuggestions]; the [catch] block
    answers with status 500 and its general text, which is neither a
    success with suggestions nor the quota response. *)
Lemma C8_gateway_failure_answers_500 :
  validate aiPromptSchema (Samples.requestBody Samples.plain)
  = Ok (Samples.requestInput Samples.plain)
  /\ fst (POST Json.JSON_parse Samples.gatewayDown Samples.emptyWorld)
     = mkResponse 500 (JObj [ (js "error", JStr (js "Failed to generate suggestions")) ])
  /\ arrow (body (fst (POST Json.JSON_parse Samples.gatewayDown Samples.emptyWorld)))
           (js "suggestions")
     = None.
Proof. repeat split; reflexivity. Qed.

(** C9. The handler on a background of exactly 9 characters: validation
    refuses it, before anything else is done, with the message that asks
    for 10 characters at [userBackground]; the [catch] block turns the
    error into status 500 with its general text, the very response it
    gives when the completion call throws.  A background of exactly 10
    characters is accepted. *)
Lemma C9_short_background_answers_generic_500 :
  validate aiPromptSchema (JObj Samples.nineChars)
  = Throw (ValidationFailed
             [mkIssue [Key (js "userBackground")] backgroundTooShort])
  /\ POST Json.JSON_parse (Samples.shortRequest) Samples.emptyWorld
     = (mkResponse 500
          (JObj [ (js "error", JStr (js "Failed to generate suggestions")) ]),
        mkWorld []
          [ ConsoleError (js "Profile suggestions error:")
              (LogError (ValidationFailed
                           [mkIssue [Key (js "userBackground")] backgroundTooShort])) ])
  /\ fst (POST Json.JSON_parse Samples.shortRequest Samples.emptyWorld)
     = fst (POST Json.JSON_parse Samples.gatewayDown Samples.emptyWorld)
  /\ validate aiPromptSchema (JObj Samples.tenChars)
     = Ok (mkAiPromptInput (js "1234567890") None advanced).
Proof. repeat split; reflexivity. Qed.

(** ** Completed suggestions *)

Section CompletionFacts.

Lemma owns_setCompleted (user : User) (id : jsstring)
    (c : list CompletedSuggestion) (r : Row) :
  Queries.owns user id (Queries.setCompleted c r) = Queries.owns user id r.
Proof. reflexivity. Qed.

(** The update touches the rows of the filter and no other. *)
Lemma filter_owns_updateCompleted (user : User) (id : jsstring)
    (c : list CompletedSuggestion) (t : Table) :
  filter (Queries.owns user id) (Queries.updateCompleted user id c t)
  = map (Queries.setCompleted c) (filter (Queries.owns user id) t).
Proof.
  unfold Queries.updateCompleted.
  induction t as [|r t IH]; [reflexivity|]. cbn [map filter].
  destruct (Queries.owns user id r) eqn:E.
  - rewrite owns_setCompleted, E. cbn [map]. now rewrite IH.
  - now rewrite E.
Qed.

Lemma existsb_filter_nil {A : Type} (f : A -> bool) (l : list A) :
  existsb f l = false -> filter f l = [].
Proof.
  induction l as [|x l IH]; [reflexivity|]. cbn.
  destruct (f x); [discriminate | exact IH].
Qed.

(** C10. [markComplete] is idempotent.  For the signed-in owner of a record:
    when the suggestion is already among the completed ones, the call
    returns the current record and leaves the table as it is; otherwise it
    appends exactly one entry, with that suggestion and the time of the
    call, to the completed ones of that record, and a later call for the
    same suggestion, whatever its time and notes, returns that record and
    changes nothing, so the suggestion is listed once. *)
Theorem C10_markComplete_idempotent (env : Queries.Env) (user : User)
    (id sid : jsstring) (notes : option jsstring) (t : Table) (current : Row) :
  Queries.getCurrentUser env = Some user ->
  Queries.select_fails env = false ->
  filter (Queries.owns user id) t = [current] ->
  let completed :=
    match completed_suggestions current with Some l => l | None => [] end in
  let listed (l : list CompletedSuggestion) :=
    filter (fun c => Js.eqb (suggestionId c) sid) l in
  (listed completed <> [] ->
   Queries.markComplete env id sid notes t = (Ok current, t))
  /\ (listed completed = [] ->
      Queries.update_fails env = false ->
      let entry := mkCompleted sid (Queries.now_toISOString env) notes in
      let data := Queries.setCompleted (completed ++ [entry]) current in
      let t' := Queries.updateCompleted user id (completed ++ [entry]) t in
      Queries.markComplete env id sid notes t = (Ok data, t')
      /\ completed_suggestions data = Some (completed ++ [entry])
      /\ listed (completed ++ [entry]) = [entry]
      /\ forall env' notes',
           Queries.getCurrentUser env' = Some user ->
           Queries.select_fails env' = false ->
           Queries.markComplete env' id sid notes' t' = (Ok data, t')).
Proof.
  intros Hu Hs Hcur. cbv zeta.
  assert (Hex : forall l,
            existsb (fun c => Js.eqb (suggestionId c) sid) l = true
            <-> filter (fun c => Js.eqb (suggestionId c) sid) l <> []).
  { intros l. split.
    - intros H E. apply existsb_exists in H as (c & Hin & Hc).
      assert (Hf : In c (filter (fun c => Js.eqb (suggestionId c) sid) l))
        by (apply filter_In; now split).
      rewrite E in Hf. destruct Hf.
    - intros H.
      destruct (existsb (fun c => Js.eqb (suggestionId c) sid) l) eqn:E;
        [reflexivity|]. now apply existsb_filter_nil in E. }
  split.
  - intros Hl. apply Hex in Hl.
    unfold Queries.markComplete, Queries.getById. now rewrite Hu, Hs, Hcur, Hl.
  - intros Hl Hupd.
    assert (Hno : existsb (fun c => Js.eqb (suggestionId c) sid)
                    match completed_suggestions current with
                    | Some l => l
                    | None => []
                    end = false).
    { destruct (existsb _ _) eqn:E; [|reflexivity].
      apply Hex in E. now destruct E. }
    assert (Hafter : forall c,
              filter (Queries.owns user id) (Queries.updateCompleted user id c t)
              = [Queries.setCompleted c current])
      by (intros c; now rewrite filter_owns_updateCompleted, Hcur).
    split; [|split; [reflexivity|split]].
    + unfold Queries.markComplete, Queries.getById.
      now rewrite Hu, Hs, Hcur, Hno, Hupd, Hafter.
    + rewrite filter_app, Hl. cbn. now rewrite eqb_refl.
    + intros env' notes' Hu' Hs'.
      unfold Queries.markComplete, Queries.getById.
      rewrite Hu', Hs', Hafter. cbn [completed_suggestions Queries.setCompleted].
      rewrite existsb_app. cbn [existsb suggestionId].
      now rewrite eqb_refl, orb_true_r.
Qed.

End CompletionFacts.

Lemma C10_witness :
  Queries.markComplete Samples.session (js "row-1") (js "s-1") None
    [Samples.storedRow]
  = (Ok (Queries.setCompleted
           [mkCompleted (js "s-1") Samples.noonText None] Samples.storedRow),
     [Queries.setCompleted
        [mkCompleted (js "s-1") Samples.noonText None] Samples.storedRow])
  /\ Queries.markComplete Samples.session (js "row-1") (js "s-1")
       (Some (js "again"))
       [Queries.setCompleted
          [mkCompleted (js "s-1") Samples.noonText None] Samples.storedRow]
     = (Ok (Queries.setCompleted
              [mkCompleted (js "s-1") Samples.noonText None] Samples.storedRow),
        [Queries.setCompleted
           [mkCompleted (js "s-1") Samples.noonText None] Samples.storedRow]).
Proof.
  destruct (C10_markComplete_idempotent Samples.session Samples.alice
              (js "row-1") (js "s-1") None [Samples.storedRow] Samples.storedRow
              eq_refl eq_refl eq_refl)
    as [_ Hfresh].
  destruct (Hfresh eq_refl eq_refl) as (Hfirst & _ & _ & Hagain).
  split; [exact Hfirst|].
  exact (Hagain Samples.session (Some (js "again")) eq_refl eq_refl).
Defined.

(* ================================================================== *)
(** * Part III. Further properties of the code *)
(* ================================================================== *)

(** ** The form schemas *)

Section FormFacts.

Lemma runRules_nil (rules : list Forms.Rule) (s : jsstring) :
  Forms.runRules rules s = []
  <-> forallb (fun r => Forms.passes r s) rules = true.
Proof.
  induction rules as [|r rules IH]; cbn; [tauto|].
  destruct (Forms.passes r s); cbn; [exact IH|].
  split; discriminate.
Qed.

Lemma inClass_exists (lo hi : N) (s : jsstring) :
  existsb (fun c => (lo <=? c) && (c <=? hi))%N s = true
  <-> exists c, In c s /\ (lo <= c <= hi)%N.
Proof.
  rewrite existsb_exists. split; intros (c & Hin & Hc); exists c;
    (split; [exact Hin|]).
  - apply andb_true_iff in Hc as [H1 H2]. apply N.leb_le in H1, H2. lia.
  - apply andb_true_iff. split; apply N.leb_le; lia.
Qed.

(** X1. [passwordSchema] accepts exactly the strings of at least 8 code
    units that hold an uppercase letter, a lowercase letter and a digit, and
    returns them unchanged. *)
Theorem X1_passwordSchema_accepts_iff (input : option json) (s : jsstring) :
  Forms.passwordSchema input = Success s
  <-> input = Some (JStr s)
      /\ 8 <= length s
      /\ (exists c, In c s /\ (65 <= c <= 90)%N)
      /\ (exists c, In c s /\ (97 <= c <= 122)%N)
      /\ (exists c, In c s /\ (48 <= c <= 57)%N).
Proof.
  unfold Forms.passwordSchema, Forms.zStringRules.
  rewrite <- !inClass_exists.
  destruct input as [[| | |t| |]|];
    try (split; [discriminate | intros [[=] _]]).
  destruct (Forms.runRules Forms.passwordRules t) as [|i more] eqn:E.
  - apply runRules_nil in E.
    cbn [forallb Forms.passwordRules Forms.passes Forms.atLeast Forms.hasOneOf] in E.
    rewrite !andb_true_iff in E. destruct E as (H8 & Hu & Hl & Hd & _).
    split.
    + intros [= <-]. apply Nat.leb_le in H8. auto.
    + now intros [[= <-] _].
  - split; [discriminate|]. intros ([= <-] & H8 & Hu & Hl & Hd).
    assert (Hnil : Forms.runRules Forms.passwordRules t = []).
    { apply runRules_nil.
      cbn [forallb Forms.passwordRules Forms.passes Forms.atLeast Forms.hasOneOf].
      apply Nat.leb_le in H8. now rewrite H8, Hu, Hl, Hd. }
    congruence.
Qed.

Lemma lookupError_setError (k k' : jsstring) (m : Message)
    (errors : list (jsstring * Message)) :
  Forms.lookupError k (Forms.setError k' m errors)
  = if Js.eqb k k' then Some m else Forms.lookupError k errors.
Proof.
  induction errors as [|[k0 m0] errors IH]; cbn; [reflexivity|].
  destruct (Js.eqb k' k0) eqn:E0; cbn.
  - apply eqb_eq in E0. subst k0. now destruct (Js.eqb k k').
  - rewrite IH. destruct (Js.eqb k k0) eqn:E1; [|reflexivity].
    apply eqb_eq in E1. subst k0.
    destruct (Js.eqb k k') eqn:E2; [|reflexivity].
    apply eqb_eq in E2. subst k'. now rewrite eqb_refl in E0.
Qed.

Lemma lookupError_fold (k : jsstring) (issues : list Issue) :
  forall errors,
    Forms.lookupError k
      (fold_left (fun errors err =>
                    Forms.setError (Forms.pathKey (path err)) (message err) errors)
                 issues errors)
    = match find (fun err => Js.eqb k (Forms.pathKey (path err))) (rev issues) with
      | Some err => Some (message err)
      | None => Forms.lookupError k errors
      end.
Proof.
  induction issues as [|i issues IH]; intros errors; [reflexivity|].
  cbn [fold_left rev]. rewrite IH, lookupError_setError.
  assert (Hfind : forall (f : Issue -> bool) l x,
            find f (l ++ [x])
            = match find f l with
              | Some y => Some y
              | None => if f x then Some x else None
              end).
  { intros f l x. induction l as [|y l IHl]; cbn; [reflexivity|].
    now destruct (f y). }
  rewrite Hfind.
  destruct (find _ (rev issues)); [reflexivity|].
  now destruct (Js.eqb k (Forms.pathKey (path i))).
Qed.

(** X2. [validateWithErrors] keeps one message per path, the one of the last
    issue on that path: for every path, [errors[path]] is the message of the
    last issue with that path, and is missing when there is none.  So a
    password without a digit always shows the message about the number,
    whatever else is wrong with it. *)
Theorem X2_validateWithErrors_last_message_wins :
  (forall issues k,
      Forms.lookupError k (Forms.collectErrors issues)
      = option_map message
          (find (fun err => Js.eqb k (Forms.pathKey (path err))) (rev issues)))
  /\ (forall s,
        (forall c, In c s -> ~ (48 <= c <= 57)%N) ->
        exists errors,
          Forms.validateWithErrors Forms.passwordSchema (JStr s) = Forms.Invalid errors
          /\ Forms.lookupError [] errors
             = Some (Custom (js "Password must contain at least one number"))).
Proof.
  split.
  - intros issues k. unfold Forms.collectErrors. rewrite lookupError_fold.
    now destruct (find _ (rev issues)).
  - intros s Hs.
    assert (Hd : existsb (fun c => (48 <=? c) && (c <=? 57))%N s = false).
    { destruct (existsb _ s) eqn:E; [|reflexivity].
      apply inClass_exists in E as (c & Hin & Hc). now destruct (Hs c Hin). }
    unfold Forms.validateWithErrors, Forms.passwordSchema, Forms.zStringRules.
    assert (Hrules : exists before,
               Forms.runRules Forms.passwordRules s
               = before ++ [mkIssue [] (Custom (js "Password must contain at least one number"))]).
    { cbn [Forms.runRules Forms.passwordRules Forms.passes Forms.hasOneOf
           Forms.atLeast Forms.complaint].
      rewrite Hd. rewrite app_nil_r.
      eexists. rewrite !app_assoc. reflexivity. }
    destruct Hrules as (before & Hrules). rewrite Hrules.
    destruct (before ++ _) as [|i more] eqn:E;
      [now destruct before|].
    eexists. split; [reflexivity|].
    unfold Forms.collectErrors. rewrite lookupError_fold.
    rewrite <- E, rev_app_distr. reflexivity.
Qed.

Lemma X2_witness :
  exists errors,
    Forms.validateWithErrors Forms.passwordSchema (JStr (js "short")) = Forms.Invalid errors
    /\ Forms.lookupError [] errors
       = Some (Custom (js "Password must contain at least one number")).
Proof.
  apply (proj2 X2_validateWithErrors_last_message_wins (js "short")).
  intros c Hc. cbn in Hc.
  repeat (destruct Hc as [<- | Hc]; [lia|]). destruct Hc.
Defined.

Lemma zString_bounds_trim (lo hi : nat) (m1 m2 : Message) (s : jsstring) :
  lo <= S hi ->
  zString [Min lo m1; Max hi m2; Trim] (Some (JStr s))
  = if length s <? lo then Failure [mkIssue [] m1]
    else if hi <? length s then Failure [mkIssue [] m2]
    else Success (trim s).
Proof.
  intros Hb. unfold zString. cbn [runChecks].
  destruct (length s <? lo) eqn:E1; destruct (hi <? length s) eqn:E2;
    try reflexivity.
  apply Nat.ltb_lt in E1, E2. lia.
Qed.

Lemma zString_max_trim (hi : nat) (m : Message) (s : jsstring) :
  zString [Max hi m; Trim] (Some (JStr s))
  = if hi <? length s then Failure [mkIssue [] m] else Success (trim s).
Proof.
  unfold zString. cbn [runChecks]. now destruct (hi <? length s).
Qed.

Lemma trim_whitespace (s : jsstring) :
  forallb isWhiteSpace s = true -> trim s = [].
Proof.
  intros H. unfold trim, trimEnd.
  assert (E : trimStart s = []).
  { induction s as [|c s IH]; [reflexivity|]. cbn in *.
    apply andb_true_iff in H as [Hc Hs]. rewrite Hc. now apply IH. }
  now rewrite E.
Qed.

Lemma passwordSchema_valid (s : jsstring) :
  Forms.passwordSchema (Some (JStr s)) = Success s
  <-> Forms.runRules Forms.passwordRules s = [].
Proof.
  unfold Forms.passwordSchema, Forms.zStringRules.
  destruct (Forms.runRules Forms.passwordRules s); split;
    try reflexivity; discriminate.
Qed.

Lemma passwordSchema_issues (s : jsstring) :
  issuesOf (Forms.passwordSchema (Some (JStr s)))
  = Forms.runRules Forms.passwordRules s.
Proof.
  unfold Forms.passwordSchema, Forms.zStringRules.
  now destruct (Forms.runRules Forms.passwordRules s).
Qed.

Lemma confirm_issues (msg : Message) (s : jsstring) :
  issuesOf (zString [Min 1 msg] (Some (JStr s))) = []
  <-> s <> [].
Proof.
  unfold zString. cbn [runChecks]. destruct s; cbn; split;
    try discriminate; try reflexivity. now intros H.
Qed.

(** X3. [passwordResetSchema] accepts exactly the objects whose [password]
    is a string that [passwordSchema] accepts and whose [confirmPassword] is
    the same string; when the password is valid and the confirmation is
    another non-empty string, the only issue is 'Passwords do not match', at
    the path [confirmPassword]. *)
Theorem X3_passwordReset_needs_equal_confirmation (input : option json)
    (r : Forms.PasswordResetInput) :
  (Forms.passwordResetSchema input = Success r
   <-> exists members,
         input = Some (JObj members)
         /\ field (js "password") members = Some (JStr (Forms.password r))
         /\ field (js "confirmPassword") members
            = Some (JStr (Forms.confirmPassword r))
         /\ Forms.passwordSchema (Some (JStr (Forms.password r)))
            = Success (Forms.password r)
         /\ Forms.confirmPassword r = Forms.password r)
  /\ (forall members other,
        input = Some (JObj members) ->
        field (js "password") members = Some (JStr (Forms.password r)) ->
        Forms.passwordSchema (Some (JStr (Forms.password r)))
          = Success (Forms.password r) ->
        field (js "confirmPassword") members = Some (JStr other) ->
        other <> [] -> other <> Forms.password r ->
        Forms.passwordResetSchema input
        = Failure [ mkIssue [Key (js "confirmPassword")]
                      (Custom (js "Passwords do not match")) ]).
Proof.
  split; [split|].
  - unfold Forms.passwordResetSchema.
    destruct input as [[| | | | |members]|]; try discriminate. cbv zeta.
    destruct (field (js "password") members) as [[| | |pv| |]|] eqn:Ep;
      try discriminate;
      destruct (field (js "confirmPassword") members) as [[| | |cv| |]|] eqn:Ec;
      try discriminate.
    destruct (_ ++ _) eqn:E; [|discriminate]. intros [= <-].
    apply app_eq_nil in E as [E Em]. apply app_eq_nil in E as [E1 E2].
    apply prefixIssues_nil in E1, E2.
    rewrite passwordSchema_issues in E1.
    destruct (Js.eqb pv cv) eqn:Eq; [|discriminate]. apply eqb_eq in Eq.
    exists members. cbn. repeat split; auto.
    now apply passwordSchema_valid.
  - intros (members & -> & Ep & Ec & Hp & He).
    destruct r as [pv cv]. cbn [Forms.password Forms.confirmPassword] in *.
    subst cv.
    unfold Forms.passwordResetSchema. cbv zeta. rewrite Ep, Ec, eqb_refl.
    pose proof (proj1 (passwordSchema_valid pv) Hp) as Hr.
    rewrite passwordSchema_issues, Hr.
    assert (Hc : issuesOf (zString [Min 1 (Custom (js "Please confirm your password"))]
                             (Some (JStr pv))) = []).
    { apply confirm_issues. intros ->. discriminate Hr. }
    now rewrite Hc.
  - intros members other -> Ep Hp Ec Hne Hdiff.
    unfold Forms.passwordResetSchema. cbv zeta. rewrite Ep, Ec.
    rewrite passwordSchema_issues, (proj1 (passwordSchema_valid _) Hp).
    rewrite (proj2 (confirm_issues _ other) Hne).
    destruct (Js.eqb (Forms.password r) other) eqn:Eq; [|reflexivity].
    apply eqb_eq in Eq. congruence.
Qed.

Lemma X3_witness :
  Forms.passwordResetSchema
    (Some (JObj [ (js "password", JStr (js "Secret123"));
                  (js "confirmPassword", JStr (js "Secret124")) ]))
  = Failure [ mkIssue [Key (js "confirmPassword")]
                (Custom (js "Passwords do not match")) ].
Proof.
  apply (proj2 (X3_passwordReset_needs_equal_confirmation
                  (Some (JObj [ (js "password", JStr (js "Secret123"));
                                (js "confirmPassword", JStr (js "Secret124")) ]))
                  (Forms.mkPasswordReset (js "Secret123") (js "Secret123")))
           _ (js "Secret124") eq_refl eq_refl eq_refl eq_refl);
    discriminate.
Defined.

(** X4. [profileUpdateSchema] measures the name before trimming it: an
    empty name is refused as required and a name of more than 100 code units
    as too long, while a name of 1 to 100 code units (100 included) is
    accepted and comes out trimmed, so a name made of whitespace only is
    accepted and comes out empty.  A missing name is accepted as missing. *)
Theorem X4_profileUpdate_name_measured_before_trim
    (members : list (jsstring * json)) (b : option jsstring) :
  Forms.bioSchema (field (js "bio") members) = Success b ->
  (field (js "full_name") members = None ->
   Forms.profileUpdateSchema (Some (JObj members))
   = Success (Forms.mkProfileUpdate None b))
  /\ (forall s,
        field (js "full_name") members = Some (JStr s) ->
        (s = [] ->
         Forms.profileUpdateSchema (Some (JObj members))
         = Failure [ mkIssue [Key (js "full_name")] (Custom (js "Name is required")) ])
        /\ (100 < length s ->
            Forms.profileUpdateSchema (Some (JObj members))
            = Failure [ mkIssue [Key (js "full_name")]
                          (Custom (js "Name must be less than 100 characters")) ])
        /\ (1 <= length s <= 100 ->
            Forms.profileUpdateSchema (Some (JObj members))
            = Success (Forms.mkProfileUpdate (Some (trim s)) b))
        /\ (1 <= length s <= 100 -> forallb isWhiteSpace s = true ->
            Forms.profileUpdateSchema (Some (JObj members))
            = Success (Forms.mkProfileUpdate (Some []) b))).
Proof.
  intros Hb. split.
  - intros Hn. unfold Forms.profileUpdateSchema. cbv zeta. now rewrite Hn, Hb.
  - intros s Hn.
    assert (Hname : Forms.fullNameSchema (Some (JStr s))
                    = match (if length s <? 1
                             then Failure [mkIssue [] (Custom (js "Name is required"))]
                             else if 100 <? length s
                             then Failure [mkIssue [] (Custom (js "Name must be less than 100 characters"))]
                             else Success (trim s)) with
                      | Success v => Success (Some v)
                      | Failure issues => Failure issues
                      end).
    { unfold Forms.fullNameSchema, zOptional.
      now rewrite zString_bounds_trim by lia. }
    unfold Forms.profileUpdateSchema. cbv zeta. rewrite Hn, Hname, Hb.
    repeat split.
    + intros ->. reflexivity.
    + intros Hlen.
      assert (E1 : (length s <? 1) = false) by (apply Nat.ltb_ge; lia).
      apply Nat.ltb_lt in Hlen. now rewrite E1, Hlen.
    + intros [Hlo Hhi].
      assert (E1 : (length s <? 1) = false) by (apply Nat.ltb_ge; lia).
      assert (E2 : (100 <? length s) = false) by (apply Nat.ltb_ge; lia).
      now rewrite E1, E2.
    + intros [Hlo Hhi] Hws.
      assert (E1 : (length s <? 1) = false) by (apply Nat.ltb_ge; lia).
      assert (E2 : (100 <? length s) = false) by (apply Nat.ltb_ge; lia).
      now rewrite E1, E2, (trim_whitespace s Hws).
Qed.

Lemma X4_witness :
  Forms.profileUpdateSchema (Some (JObj [ (js "full_name", JStr (js "   ")) ]))
  = Success (Forms.mkProfileUpdate (Some []) None).
Proof.
  destruct (X4_profileUpdate_name_measured_before_trim
              [ (js "full_name", JStr (js "   ")) ] None eq_refl)
    as [_ Hname].
  destruct (Hname (js "   ") eq_refl) as (_ & _ & _ & Hblank).
  apply Hblank; [cbn; lia | reflexivity].
Defined.

Lemma experienceLevelEnum_Success (input : option json) (l : ExperienceLevel) :
  experienceLevelEnum input = Success l <-> input = Some (JStr (levelName l)).
Proof.
  unfold experienceLevelEnum. split.
  - destruct input as [[| | |s| |]|]; try discriminate.
    destruct (Js.eqb s (js "beginner")) eqn:E1;
      [apply eqb_eq in E1; now intros [= <-]; subst|].
    destruct (Js.eqb s (js "intermediate")) eqn:E2;
      [apply eqb_eq in E2; now intros [= <-]; subst|].
    destruct (Js.eqb s (js "advanced")) eqn:E3;
      [apply eqb_eq in E3; now intros [= <-]; subst|].
    discriminate.
  - intros ->. now destruct l.
Qed.

Lemma currentGoalsSchema_Success (input : option json) (g : option jsstring) :
  currentGoalsSchema input = Success g
  <-> (input = None /\ g = None)
      \/ exists s, input = Some (JStr s) /\ length s <= 1000 /\ g = Some (trim s).
Proof.
  unfold currentGoalsSchema, zOptional.
  destruct input as [v|]; [|split; [intros [= <-]; now left
                                   | intros [[_ ->] | (s & [=] & _)]; reflexivity]].
  destruct v as [| | |s| |];
    try (split; [discriminate | intros [[[=] _] | (s' & [=] & _)]]).
  rewrite zString_max_trim. destruct (1000 <? length s) eqn:E.
  - apply Nat.ltb_lt in E. split; [discriminate|].
    intros [[[=] _] | (s' & [= <-] & Hlen & _)]. lia.
  - apply Nat.ltb_ge in E. split.
    + intros [= <-]. right. now exists s.
    + intros [[[=] _] | (s' & [= <-] & _ & ->)]. reflexivity.
Qed.

(** What [validate] lets through of [aiPromptSchema]. *)
Lemma aiPromptSchema_accepts (data : json) (v : AiPromptInput) :
  validate aiPromptSchema data = Ok v
   <-> exists members background,
         data = JObj members
         /\ field (js "userBackground") members = Some (JStr background)
         /\ 10 <= length background <= 2000
         /\ userBackground v = trim background
         /\ ((field (js "currentGoals") members = None /\ currentGoals v = None)
             \/ exists goals,
                  field (js "currentGoals") members = Some (JStr goals)
                  /\ length goals <= 1000
                  /\ currentGoals v = Some (trim goals))
         /\ field (js "experienceLevel") members
            = Some (JStr (levelName (experienceLevel v))).
Proof.
  unfold validate, aiPromptSchema. split.
  - destruct data as [| | | | |members]; try discriminate. cbv zeta.
    destruct (field (js "userBackground") members) as [[| | |bg| |]|] eqn:Eb;
      try discriminate.
    rewrite userBackgroundSchema_string.
    destruct (length bg <? 10) eqn:E1; [discriminate|].
    destruct (2000 <? length bg) eqn:E2; [discriminate|].
    destruct (currentGoalsSchema _) as [g|] eqn:Eg; [|discriminate].
    destruct (experienceLevelEnum _) as [l|] eqn:El; [|discriminate].
    intros [= <-]. apply Nat.ltb_ge in E1, E2.
    apply currentGoalsSchema_Success in Eg.
    apply experienceLevelEnum_Success in El.
    exists members, bg. cbn. repeat split; auto; lia.
  - intros (members & bg & -> & Eb & [Hlo Hhi] & Hb & Hg & Hl). cbv zeta.
    rewrite Eb, userBackgroundSchema_string.
    assert (E1 : (length bg <? 10) = false) by (apply Nat.ltb_ge; lia).
    assert (E2 : (2000 <? length bg) = false) by (apply Nat.ltb_ge; lia).
    rewrite E1, E2.
    rewrite (proj2 (currentGoalsSchema_Success _ (currentGoals v)) Hg).
    rewrite (proj2 (experienceLevelEnum_Success _ (experienceLevel v)) Hl).
    rewrite <- Hb. now destruct v.
Qed.

(** X5. [validate(aiPromptSchema, data)] returns exactly when [data] is an
    object whose [userBackground] is a string of 10 to 2000 code units,
    whose [currentGoals] is missing or a string of at most 1000 code units,
    and whose [experienceLevel] is one of the three levels; what it returns
    holds the two texts trimmed.  The lengths are those before trimming, so
    the background it returns can be shorter than 10, and is empty for a
    background made of whitespace only. *)
Theorem X5_aiPromptSchema_accepts_iff (data : json) (v : AiPromptInput) :
  (validate aiPromptSchema data = Ok v
   <-> exists members background,
         data = JObj members
         /\ field (js "userBackground") members = Some (JStr background)
         /\ 10 <= length background <= 2000
         /\ userBackground v = trim background
         /\ ((field (js "currentGoals") members = None /\ currentGoals v = None)
             \/ exists goals,
                  field (js "currentGoals") members = Some (JStr goals)
                  /\ length goals <= 1000
                  /\ currentGoals v = Some (trim goals))
         /\ field (js "experienceLevel") members
            = Some (JStr (levelName (experienceLevel v))))
  /\ (forall members background,
        data = JObj members ->
        field (js "userBackground") members = Some (JStr background) ->
        validate aiPromptSchema data = Ok v ->
        forallb isWhiteSpace background = true ->
        userBackground v = []).
Proof.
  pose proof (aiPromptSchema_accepts data v) as Hiff.
  split; [exact Hiff|].
  intros members background -> Eb Hv Hws.
  apply Hiff in Hv as (m & bg & [= <-] & Eb' & _ & Hb & _).
  rewrite Eb in Eb'. injection Eb' as <-.
  now rewrite Hb, trim_whitespace.
Qed.

Lemma X5_witness :
  validate aiPromptSchema
    (JObj [ (js "userBackground", JStr (js "          "));
            (js "experienceLevel", JStr (js "beginner")) ])
  = Ok (mkAiPromptInput [] None beginner).
Proof.
  apply (proj1 (X5_aiPromptSchema_accepts_iff
                  (JObj [ (js "userBackground", JStr (js "          "));
                          (js "experienceLevel", JStr (js "beginner")) ])
                  (mkAiPromptInput [] None beginner))).
  exists [ (js "userBackground", JStr (js "          "));
           (js "experienceLevel", JStr (js "beginner")) ], (js "          ").
  repeat split; try reflexivity; cbn; try lia. now left.
Defined.

End FormFacts.

(** ** More on the parse stage and the handler *)

Section PipelineFacts.

Variable JSON_parse : jsstring -> option json.

Lemma startsWith_app_r (p s rest : jsstring) :
  startsWith p s = true -> startsWith p (s ++ rest) = true.
Proof.
  revert s; induction p as [|x p IH]; intros s H; [reflexivity|].
  destruct s as [|y s]; [discriminate|]. cbn in *.
  apply andb_true_iff in H as [Hx Hp]. rewrite Hx. cbn. now apply IH.
Qed.

Lemma occurs_suffix (p pre s : jsstring) :
  occurs p (pre ++ s) = false -> occurs p s = false.
Proof.
  induction pre as [|c pre IH]; [auto|]. cbn [app occurs].
  intros H. apply orb_false_iff in H as [_ H]. now apply IH.
Qed.

Lemma occurs_prefix (p s post : jsstring) :
  occurs p (s ++ post) = false -> occurs p s = false.
Proof.
  induction s as [|c s IH]; intros H.
  - cbn. destruct p; [|reflexivity].
    destruct post; cbn in H; discriminate.
  - cbn [app occurs] in *. apply orb_false_iff in H as [H1 H2].
    apply orb_false_iff. split; [|now apply IH].
    destruct (startsWith p (c :: s)) eqn:E; [|reflexivity].
    change (c :: s ++ post) with ((c :: s) ++ post) in H1.
    now rewrite (startsWith_app_r _ _ post E) in H1.
Qed.

Lemma greedyToBrace_shape (s m : jsstring) :
  greedyToBrace s = Some m ->
  exists body post, m = body ++ [rbrace] /\ s = m ++ post.
Proof.
  revert m; induction s as [|c s IH]; intros m; [discriminate|].
  cbn [greedyToBrace]. destruct (greedyToBrace s) as [m'|].
  - intros [= <-]. destruct (IH m' eq_refl) as (body & post & -> & Hs).
    exists (c :: body), post. split; [reflexivity|]. cbn. now rewrite <- Hs.
  - destruct (c =? rbrace)%N eqn:E; [|discriminate].
    apply N.eqb_eq in E. subst c. intros [= <-]. now exists [], s.
Qed.

Lemma greedyToBrace_whole (body : jsstring) :
  greedyToBrace (body ++ [rbrace]) = Some (body ++ [rbrace]).
Proof.
  induction body as [|c body IH]; [reflexivity|].
  cbn [app greedyToBrace]. now rewrite IH.
Qed.

Lemma matchObject_shape (s j : jsstring) :
  matchObject s = Some j ->
  exists pre post body, s = pre ++ j ++ post /\ j = lbrace :: body ++ [rbrace].
Proof.
  induction s as [|c s IH]; [discriminate|]. cbn [matchObject].
  destruct (c =? lbrace)%N eqn:E.
  - apply N.eqb_eq in E. subst c.
    destruct (greedyToBrace s) as [m|] eqn:Eg.
    + intros [= <-].
      destruct (greedyToBrace_shape _ _ Eg) as (body & post & -> & Hs).
      exists [], post, body. split; [|reflexivity]. cbn. now rewrite <- Hs.
    + intros H. destruct (IH H) as (pre & post & body & -> & Hj).
      now exists (lbrace :: pre), post, body.
  - intros H. destruct (IH H) as (pre & post & body & -> & Hj).
    now exists (c :: pre), post, body.
Qed.

(** X6. The normalizer is idempotent: whatever it extracts from a raw text,
    it extracts again, unchanged, from its own result. *)
Theorem X6_normalize_idempotent (raw j : jsstring) :
  normalize raw = Some j -> normalize j = Some j.
Proof.
  unfold normalize. intros H.
  destruct (matchObject_shape _ _ H) as (pre & post & body & Hs & ->).
  pose proof (stripFences_no_marker (trim raw)) as Hm. rewrite Hs in Hm.
  apply occurs_suffix, occurs_prefix in Hm.
  rewrite trim_bounded by reflexivity.
  unfold stripFences.
  rewrite (replaceAll_no_marker fenceJson), (replaceAll_no_marker fence); auto.
  cbn [matchObject]. rewrite N.eqb_refl. now rewrite greedyToBrace_whole.
Qed.

Lemma X6_witness :
  normalize (jsq "{'suggestions':[]}") = Some (jsq "{'suggestions':[]}").
Proof.
  apply (X6_normalize_idempotent (jsq "Sure! Here you go: {'suggestions':[]} Enjoy.")).
  reflexivity.
Defined.






End PipelineFacts.


(** ** The queries of the client *)

Section ClientFacts.

Lemma insertDesc_perm (r : Row) (l : list Row) :
  Permutation (Client.insertDesc r l) (r :: l).
Proof.
  induction l as [|y l IH]; cbn; [reflexivity|].
  destruct (created_at y <=? created_at r)%Z; [reflexivity|].
  rewrite IH. apply perm_swap.
Qed.

Lemma orderDesc_perm (l : list Row) : Permutation (Client.orderDesc l) l.
Proof.
  induction l as [|r l IH]; cbn; [reflexivity|].
  rewrite insertDesc_perm. now constructor.
Qed.

Lemma insertDesc_sorted (r : Row) (l : list Row) :
  StronglySorted Client.newerFirst l -> StronglySorted Client.newerFirst (Client.insertDesc r l).
Proof.
  induction l as [|y l IH]; intros Hs; cbn.
  - constructor; constructor.
  - inversion Hs as [|? ? Hl Hy]; subst.
    destruct (created_at y <=? created_at r)%Z eqn:E.
    + apply Z.leb_le in E. constructor; [exact Hs|].
      constructor; [exact E|].
      eapply Forall_impl; [|exact Hy]. unfold Client.newerFirst. intros a Ha. lia.
    + apply Z.leb_gt in E. constructor; [now apply IH|].
      apply (Permutation_Forall (Permutation_sym (insertDesc_perm r l))).
      constructor; [unfold Client.newerFirst; lia | exact Hy].
Qed.

Lemma orderDesc_sorted (l : list Row) :
  StronglySorted Client.newerFirst (Client.orderDesc l).
Proof.
  induction l as [|r l IH]; cbn; [constructor|]. now apply insertDesc_sorted.
Qed.

(** X10. [getAll] of a signed-in user gives the rows of that user, all of
    them and each once, the newer before the older; signed out it gives the
    empty list and no error. *)
Theorem X10_getAll_own_rows_newest_first (env : Client.Env) (t : Table) :
  Queries.select_fails (Client.session env) = false ->
  match Queries.getCurrentUser (Client.session env) with
  | None => Client.getAll env t = Ok []
  | Some user =>
    exists rows,
      Client.getAll env t = Ok rows
      /\ Permutation rows (filter (Client.belongs user) t)
      /\ StronglySorted Client.newerFirst rows
  end.
Proof.
  intros Hs. unfold Client.getAll.
  destruct (Queries.getCurrentUser (Client.session env)) as [user|];
    [|reflexivity].
  rewrite Hs. eexists. split; [reflexivity|].
  split; [apply orderDesc_perm | apply orderDesc_sorted].
Qed.

(** X11. [getLatest] of a signed-in user gives [null] exactly when the user
    has no row; when the user has one, it gives a row of the table that is
    the user's and than which no row of the user is newer; signed out it
    gives [null] and no error. *)
Theorem X11_getLatest_is_newest_own_row (env : Client.Env) (t : Table) :
  Queries.select_fails (Client.session env) = false ->
  match Queries.getCurrentUser (Client.session env) with
  | None => Client.getLatest env t = Ok None
  | Some user =>
    (Client.getLatest env t = Ok None
     <-> forall r, In r t -> Client.belongs user r = false)
    /\ ((exists r, In r t /\ Client.belongs user r = true) ->
        exists latest,
          Client.getLatest env t = Ok (Some latest)
          /\ In latest t /\ Client.belongs user latest = true
          /\ forall r, In r t -> Client.belongs user r = true ->
                       (created_at r <= created_at latest)%Z)
  end.
Proof.
  intros Hs. unfold Client.getLatest.
  destruct (Queries.getCurrentUser (Client.session env)) as [user|];
    [|reflexivity].
  rewrite Hs. unfold single.
  pose proof (orderDesc_perm (filter (Client.belongs user) t)) as Hp.
  pose proof (orderDesc_sorted (filter (Client.belongs user) t)) as Hsorted.
  destruct (Client.orderDesc (filter (Client.belongs user) t)) as [|x rows] eqn:E.
  - apply Permutation_nil in Hp.
    assert (Hnone : forall r, In r t -> Client.belongs user r = false).
    { intros r Hin. destruct (Client.belongs user r) eqn:Eb; [|reflexivity].
      assert (Hf : In r (filter (Client.belongs user) t))
        by (apply filter_In; now split).
      rewrite Hp in Hf. destruct Hf. }
    split; [split; [intros _; exact Hnone | reflexivity]|].
    intros (r & Hin & Hb). rewrite (Hnone r Hin) in Hb. discriminate.
  - assert (Hx : In x (filter (Client.belongs user) t))
      by (apply (Permutation_in _ Hp); now left).
    apply filter_In in Hx as [Hx Hb]. split.
    + split; [discriminate|]. intros Hnone. rewrite (Hnone x Hx) in Hb.
      discriminate.
    + intros _. exists x. cbn [hd_error].
      split; [reflexivity|]. split; [exact Hx|]. split; [exact Hb|].
      intros r Hr Hrb.
      assert (Hin : In r (x :: rows)).
      { apply (Permutation_in _ (Permutation_sym Hp)), filter_In. now split. }
      inversion Hsorted as [|? ? _ Hall]; subst.
      destruct Hin as [<- | Hin]; [lia|].
      rewrite Forall_forall in Hall. now apply Hall.
Qed.

Lemma X10_witness :
  exists rows,
    Client.getAll (Client.mkEnv Samples.session 0 [] false false)
      (table (Samples.afterFirstCall Samples.plain))
    = Ok rows
    /\ Permutation rows
         (filter (Client.belongs Samples.alice)
            (table (Samples.afterFirstCall Samples.plain)))
    /\ StronglySorted Client.newerFirst rows.
Proof.
  exact (X10_getAll_own_rows_newest_first
           (Client.mkEnv Samples.session 0 [] false false)
           (table (Samples.afterFirstCall Samples.plain)) eq_refl).
Defined.

Lemma X11_witness :
  exists latest,
    Client.getLatest (Client.mkEnv Samples.session 0 [] false false)
      [ Samples.storedRow;
        newRow (Samples.secondCall Samples.plain Samples.alice) Samples.alice
          Samples.goodItems (Samples.requestInput Samples.plain);
        newRow (Samples.secondCall Samples.plain Samples.bob) Samples.bob
          Samples.goodItems (Samples.requestInput Samples.plain) ]
    = Ok (Some latest)
    /\ user_id latest = userId Samples.alice
    /\ (Samples.noon + 60000 <= created_at latest)%Z.
Proof.
  destruct (X11_getLatest_is_newest_own_row
              (Client.mkEnv Samples.session 0 [] false false)
              [ Samples.storedRow;
                newRow (Samples.secondCall Samples.plain Samples.alice)
                  Samples.alice Samples.goodItems
                  (Samples.requestInput Samples.plain);
                newRow (Samples.secondCall Samples.plain Samples.bob)
                  Samples.bob Samples.goodItems
                  (Samples.requestInput Samples.plain) ]
              eq_refl)
    as [_ Hsome].
  destruct Hsome as (latest & Hget & _ & Hown & Hnewest).
  - exists Samples.storedRow. split; [now left | reflexivity].
  - exists latest. split; [exact Hget|]. split.
    + apply eqb_eq. exact Hown.
    + apply (Hnewest (newRow (Samples.secondCall Samples.plain Samples.alice)
                        Samples.alice Samples.goodItems
                        (Samples.requestInput Samples.plain)));
        [right; now left | reflexivity].
Defined.

End ClientFacts.

(** ** The calls that write *)

Section MutationFacts.

Lemma owns_belongs (user : User) (id : jsstring) (r : Row) :
  Queries.owns user id r = true -> Client.belongs user r = true.
Proof.
  unfold Queries.owns, Client.belongs. intros H.
  now apply andb_true_iff in H.
Qed.

Lemma filter_none {A : Type} (f : A -> bool) (l : list A) :
  filter f l = [] <-> forall x, In x l -> f x = false.
Proof.
  induction l as [|x l IH]; cbn; [tauto|].
  destruct (f x) eqn:E.
  - split; [discriminate|]. intros H. specialize (H x (or_introl eq_refl)).
    congruence.
  - rewrite IH. split; [intros H y [<- | Hy]; auto | auto].
Qed.

Lemma filter_negb_none {A : Type} (f : A -> bool) (l : list A) :
  filter f l = [] -> filter (fun x => negb (f x)) l = l.
Proof.
  induction l as [|x l IH]; cbn; [reflexivity|].
  destruct (f x); [discriminate|]. cbn. intros H. now rewrite IH.
Qed.

Lemma onOwned_filter (user : User) (id : jsstring) (f : Row -> Row) (t : Table) :
  (forall r, Queries.owns user id (f r) = Queries.owns user id r) ->
  filter (Queries.owns user id) (Client.onOwned user id f t)
  = map f (filter (Queries.owns user id) t).
Proof.
  intros Hf. unfold Client.onOwned.
  induction t as [|r t IH]; [reflexivity|]. cbn [map filter].
  destruct (Queries.owns user id r) eqn:E.
  - rewrite Hf, E. cbn [map]. now rewrite IH.
  - now rewrite E.
Qed.

Lemma onOwned_none (user : User) (id : jsstring) (f : Row -> Row) (t : Table) :
  filter (Queries.owns user id) t = [] -> Client.onOwned user id f t = t.
Proof.
  intros H. unfold Client.onOwned.
  induction t as [|r t IH]; [reflexivity|]. cbn [map filter] in *.
  destruct (Queries.owns user id r); [discriminate|]. now rewrite IH.
Qed.

Lemma onOwned_others (user : User) (id : jsstring) (f : Row -> Row) (t : Table) :
  (forall r, user_id (f r) = user_id r) ->
  Client.others user (Client.onOwned user id f t) = Client.others user t.
Proof.
  intros Hf. unfold Client.others, Client.onOwned.
  induction t as [|r t IH]; [reflexivity|]. cbn [map filter].
  destruct (Queries.owns user id r) eqn:E.
  - assert (Hb : Client.belongs user (f r) = Client.belongs user r)
      by (unfold Client.belongs; now rewrite Hf).
    rewrite Hb, (owns_belongs _ _ _ E). exact IH.
  - now rewrite IH.
Qed.

Lemma onOwned_In (user : User) (id : jsstring) (f : Row -> Row) (t : Table)
    (r : Row) :
  (forall r, Queries.owns user id (f r) = Queries.owns user id r) ->
  Queries.owns user id r = false ->
  In r (Client.onOwned user id f t) <-> In r t.
Proof.
  intros Hf Hr. unfold Client.onOwned. rewrite in_map_iff. split.
  - intros (x & Hx & Hin). destruct (Queries.owns user id x) eqn:E.
    + subst r. rewrite Hf, E in Hr. discriminate.
    + now subst x.
  - intros Hin. exists r. now rewrite Hr.
Qed.

Lemma onOwned_again (user : User) (id : jsstring) (f g : Row -> Row) (t : Table) :
  (forall r, Queries.owns user id (f r) = Queries.owns user id r) ->
  (forall r, g (f r) = g r) ->
  Client.onOwned user id g (Client.onOwned user id f t) = Client.onOwned user id g t.
Proof.
  intros Hf Hg. unfold Client.onOwned. rewrite map_map. apply map_ext. intros r.
  destruct (Queries.owns user id r) eqn:E; [|now rewrite E].
  now rewrite Hf, E, Hg.
Qed.

Lemma onOwned_ratingsOk (user : User) (id : jsstring) (u : Client.Updates)
    (t : Table) :
  Client.ratingAllowed u = true ->
  Client.ratingsOk t ->
  Client.ratingsOk (Client.onOwned user id (Client.applyUpdates u) t).
Proof.
  intros Hu Ht. unfold Client.ratingsOk, Client.onOwned in *.
  apply Forall_map. eapply Forall_impl; [|exact Ht]. intros r Hr.
  destruct (Queries.owns user id r); [|exact Hr].
  unfold Client.ratingAllowed in Hu. cbn.
  destruct (Client.new_rating u) as [v|]; [|exact Hr].
  apply andb_true_iff in Hu as [H1 H5]. apply Z.leb_le in H1, H5. lia.
Qed.

(** What [updateOwned] leaves: the table as it was, or the update with a
    rating the column allows. *)
Lemma updateOwned_table (env : Client.Env) (user : User) (id : jsstring)
    (u : Client.Updates) (t : Table) :
  snd (Client.updateOwned env user id u t) = t
  \/ (snd (Client.updateOwned env user id u t)
      = Client.onOwned user id (Client.applyUpdates u) t
      /\ Client.ratingAllowed u = true).
Proof.
  unfold Client.updateOwned.
  destruct (Queries.update_fails (Client.session env)); [now left|].
  destruct (Client.ratingAllowed u) eqn:Ha; cbn [negb andb].
  - right. split; [|reflexivity]. fold (Client.onOwned user id (Client.applyUpdates u) t).
    now destruct (filter _ (Client.onOwned _ _ _ _)) as [|? [|? ?]].
  - destruct (existsb (Queries.owns user id) t) eqn:Ex; [now left|].
    left. apply existsb_filter_nil in Ex.
    fold (Client.onOwned user id (Client.applyUpdates u) t).
    rewrite (onOwned_none _ _ _ _ Ex).
    now destruct (filter _ t) as [|? [|? ?]].
Qed.

Lemma updateOwned_found (env : Client.Env) (user : User) (id : jsstring)
    (u : Client.Updates) (t : Table) (current : Row) :
  Queries.update_fails (Client.session env) = false ->
  Client.ratingAllowed u = true ->
  filter (Queries.owns user id) t = [current] ->
  Client.updateOwned env user id u t
  = (Ok (Client.applyUpdates u current),
     Client.onOwned user id (Client.applyUpdates u) t).
Proof.
  intros Hf Ha Hcur. unfold Client.updateOwned. rewrite Hf, Ha. cbn [negb andb].
  fold (Client.onOwned user id (Client.applyUpdates u) t).
  rewrite onOwned_filter by reflexivity. now rewrite Hcur.
Qed.

Lemma updateOwned_missing (env : Client.Env) (user : User) (id : jsstring)
    (u : Client.Updates) (t : Table) :
  filter (Queries.owns user id) t = [] ->
  Client.updateOwned env user id u t = (Throw (Rejected (js "update")), t).
Proof.
  intros Hnone. unfold Client.updateOwned.
  destruct (Queries.update_fails (Client.session env)); [reflexivity|].
  destruct (negb (Client.ratingAllowed u) && existsb (Queries.owns user id) t);
    [reflexivity|].
  fold (Client.onOwned user id (Client.applyUpdates u) t).
  rewrite (onOwned_none _ _ _ _ Hnone). now rewrite Hnone.
Qed.

(** What [markComplete] leaves: the table as it was, or the update of the
    completed ones. *)
Lemma markComplete_table (env : Queries.Env) (id sid : jsstring)
    (notes : option jsstring) (t : Table) :
  snd (Queries.markComplete env id sid notes t) = t
  \/ exists user c,
       Queries.getCurrentUser env = Some user
       /\ snd (Queries.markComplete env id sid notes t)
          = Client.onOwned user id (Queries.setCompleted c) t.
Proof.
  unfold Queries.markComplete.
  destruct (Queries.getCurrentUser env) as [user|] eqn:Hu; [|now left].
  destruct (Queries.getById env id t) as [[current|]|e]; try now left.
  destruct (existsb _ _); [now left|].
  destruct (Queries.update_fails env); [now left|].
  right. eexists user, _. split; [reflexivity|].
  unfold Queries.updateCompleted, Client.onOwned.
  now destruct (filter _ _) as [|? [|? ?]].
Qed.


(** There is no policy for delete: the command reaches no row. *)
Lemma delete_reaches_nothing (user : User) (id : jsstring) (t : Table) :
  filter (fun r => negb (Queries.owns user id r
                         && Client.policy Client.ForDelete user r)) t
  = t.
Proof.
  induction t as [|r t IH]; [reflexivity|]. cbn [filter].
  replace (negb (Queries.owns user id r && Client.policy Client.ForDelete user r))
    with true by (cbn [Client.policy]; now rewrite andb_false_r).
  now rewrite IH.
Qed.

(** X12. No call of a signed-in user changes, adds or removes a row of
    another user. *)
Theorem X12_calls_leave_rows_of_others (env : Client.Env) (m : Client.Mutation)
    (t : Table) (user : User) :
  Queries.getCurrentUser (Client.session env) = Some user ->
  Client.others user (snd (Client.perform env m t)) = Client.others user t.
Proof.
  intros Hu.
  assert (Hupd : forall id u,
            Client.others user (snd (Client.updateOwned env user id u t))
            = Client.others user t).
  { intros id u. destruct (updateOwned_table env user id u t) as [-> | [-> _]];
      [reflexivity|]. now apply onOwned_others. }
  destruct m as [s i | id s k c | id | id k | id sid notes | id];
    cbn [Client.perform snd].
  - unfold Client.create. rewrite Hu.
    destruct (Client.insert_error env || Client.isNull s || Client.isNull i);
      [reflexivity|]. cbn [snd].
    unfold Client.others. rewrite filter_app. cbn [filter].
    unfold Client.belongs at 2. cbn [user_id]. rewrite eqb_refl. cbn [negb].
    apply app_nil_r.
  - unfold Client.update. rewrite Hu. apply Hupd.
  - unfold Client.delete. rewrite Hu.
    destruct (Client.delete_error env); [reflexivity|]. cbn [snd].
    now rewrite delete_reaches_nothing.
  - unfold Client.rate. destruct ((k <? 1)%Z || (5 <? k)%Z); [reflexivity|].
    rewrite Hu. apply Hupd.
  - destruct (markComplete_table (Client.session env) id sid notes t)
      as [-> | (user' & c & Hu' & ->)]; [reflexivity|].
    rewrite Hu in Hu'. injection Hu' as <-. now apply onOwned_others.
  - unfold Client.markViewed. rewrite Hu. apply Hupd.
Qed.

Lemma X12_witness :
  Client.others Samples.bob
    (snd (Client.perform
            (Client.mkEnv (Queries.mkEnv (Some Samples.bob) Samples.noonText false false)
               0 [] false false)
            (Client.Delete (js "row-1")) [Samples.storedRow]))
  = [Samples.storedRow].
Proof.
  exact (X12_calls_leave_rows_of_others
           (Client.mkEnv (Queries.mkEnv (Some Samples.bob) Samples.noonText false false)
              0 [] false false)
           (Client.Delete (js "row-1")) [Samples.storedRow] Samples.bob eq_refl).
Defined.

(** X13. Signed out, every call that writes throws and leaves the table as
    it is: [Not authenticated], except that [rate] with a rating below 1 or
    above 5 complains of the rating first. *)
Theorem X13_signed_out_calls_throw (env : Client.Env) (m : Client.Mutation)
    (t : Table) :
  Queries.getCurrentUser (Client.session env) = None ->
  snd (Client.perform env m t) = t
  /\ (fst (Client.perform env m t) = Some Client.notAuthenticated
      \/ exists id rating,
           m = Client.Rate id rating
           /\ (rating < 1 \/ 5 < rating)%Z
           /\ fst (Client.perform env m t)
              = Some (ErrorOf (js "Rating must be between 1 and 5"))).
Proof.
  intros Hu.
  destruct m as [s i | id s k c | id | id k | id sid notes | id];
    cbn [Client.perform snd fst];
    unfold Client.create, Client.update, Client.delete, Client.rate,
      Client.markViewed, Queries.markComplete;
    try (rewrite Hu; split; [reflexivity | now left]).
  destruct ((k <? 1)%Z || (5 <? k)%Z) eqn:E.
  - split; [reflexivity|]. right. exists id, k. split; [reflexivity|].
    split; [|reflexivity].
    apply orb_true_iff in E as [E | E]; apply Z.ltb_lt in E; lia.
  - rewrite Hu. split; [reflexivity | now left].
Qed.

Lemma X13_witness :
  snd (Client.perform
         (Client.mkEnv (Queries.mkEnv None Samples.noonText false false)
            0 [] false false)
         (Client.Rate (js "row-1") 9) [Samples.storedRow])
  = [Samples.storedRow].
Proof.
  exact (proj1 (X13_signed_out_calls_throw
                  (Client.mkEnv (Queries.mkEnv None Samples.noonText false false)
                     0 [] false false)
                  (Client.Rate (js "row-1") 9) [Samples.storedRow] eq_refl)).
Defined.

(** X14. Whatever the call and whatever it finds outside, a table whose
    ratings are all within 1 to 5 is left with ratings all within 1 to 5:
    [rate] checks the range itself, and the column's check refuses what
    [update] would set outside of it. *)
Theorem X14_ratings_stay_in_range (env : Client.Env) (m : Client.Mutation)
    (t : Table) :
  Client.ratingsOk t -> Client.ratingsOk (snd (Client.perform env m t)).
Proof.
  intros Ht.
  assert (Hupd : forall user id u,
            Client.ratingsOk (snd (Client.updateOwned env user id u t))).
  { intros user id u.
    destruct (updateOwned_table env user id u t) as [-> | [-> Ha]];
      [exact Ht | now apply onOwned_ratingsOk]. }
  destruct m as [s i | id s k c | id | id k | id sid notes | id];
    cbn [Client.perform snd].
  - unfold Client.create.
    destruct (Queries.getCurrentUser (Client.session env)) as [user|]; [|exact Ht].
    destruct (Client.insert_error env || Client.isNull s || Client.isNull i);
      [exact Ht|]. cbn [snd].
    apply Forall_app. split; [exact Ht|]. constructor; [exact I | constructor].
  - unfold Client.update.
    destruct (Queries.getCurrentUser (Client.session env)) as [user|];
      [apply Hupd | exact Ht].
  - unfold Client.delete.
    destruct (Queries.getCurrentUser (Client.session env)) as [user|]; [|exact Ht].
    destruct (Client.delete_error env); [exact Ht|]. cbn [snd].
    now rewrite delete_reaches_nothing.
  - unfold Client.rate. destruct ((k <? 1)%Z || (5 <? k)%Z); [exact Ht|].
    destruct (Queries.getCurrentUser (Client.session env)) as [user|];
      [apply Hupd | exact Ht].
  - destruct (markComplete_table (Client.session env) id sid notes t)
      as [-> | (user & c & _ & ->)]; [exact Ht|].
    unfold Client.ratingsOk, Client.onOwned in *. apply Forall_map.
    eapply Forall_impl; [|exact Ht]. intros r Hr.
    now destruct (Queries.owns user id r).
  - unfold Client.markViewed.
    destruct (Queries.getCurrentUser (Client.session env)) as [user|];
      [apply Hupd | exact Ht].
Qed.

Lemma X14_witness :
  Client.ratingsOk
    (snd (Client.perform (Client.mkEnv Samples.session 0 [] false false)
            (Client.Update (js "row-1") None (Some 6%Z) None) [Samples.storedRow])).
Proof.
  apply (X14_ratings_stay_in_range
           (Client.mkEnv Samples.session 0 [] false false)
           (Client.Update (js "row-1") None (Some 6%Z) None) [Samples.storedRow]).
  constructor; [exact I | constructor].
Defined.

(** X15. [delete] by a signed-in user removes nothing, whichever row it
    names: row level security is on and the migration has no policy for
    delete.  The call reports no error and leaves the table as it is, so
    the row it named is still what [getById] returns. *)
Theorem X15_delete_removes_nothing (env : Client.Env) (id : jsstring)
    (t : Table) (user : User) :
  Queries.getCurrentUser (Client.session env) = Some user ->
  Client.delete_error env = false ->
  Client.delete env id t = (Ok tt, t)
  /\ Client.perform env (Client.Delete id) t = (None, t)
  /\ forall current,
       Queries.select_fails (Client.session env) = false ->
       filter (Queries.owns user id) t = [current] ->
       Queries.getById (Client.session env) id (snd (Client.delete env id t))
       = Ok (Some current).
Proof.
  intros Hu Hd.
  assert (Hdel : Client.delete env id t = (Ok tt, t)).
  { unfold Client.delete. rewrite Hu, Hd. now rewrite delete_reaches_nothing. }
  split; [exact Hdel|]. split.
  - cbn [Client.perform]. now rewrite Hdel.
  - intros current Hs Hcur. rewrite Hdel. cbn [snd].
    unfold Queries.getById. now rewrite Hu, Hs, Hcur.
Qed.

Lemma X15_witness :
  Client.delete (Client.mkEnv Samples.session 0 [] false false) (js "row-1")
    [Samples.storedRow]
  = (Ok tt, [Samples.storedRow])
  /\ Queries.getById Samples.session (js "row-1")
       (snd (Client.delete (Client.mkEnv Samples.session 0 [] false false)
               (js "row-1") [Samples.storedRow]))
     = Ok (Some Samples.storedRow).
Proof.
  destruct (X15_delete_removes_nothing
              (Client.mkEnv Samples.session 0 [] false false) (js "row-1")
              [Samples.storedRow] Samples.alice eq_refl eq_refl)
    as (Hdel & _ & Hread).
  split; [exact Hdel|]. exact (Hread Samples.storedRow eq_refl eq_refl).
Defined.

Lemma rate_found (env : Client.Env) (user : User) (id : jsstring) (k : Z)
    (t : Table) (current : Row) :
  Queries.getCurrentUser (Client.session env) = Some user ->
  Queries.update_fails (Client.session env) = false ->
  (1 <= k <= 5)%Z ->
  filter (Queries.owns user id) t = [current] ->
  Client.rate env id k t
  = (Ok (Client.applyUpdates (Client.mkUpdates None (Some k) None None) current),
     Client.onOwned user id
       (Client.applyUpdates (Client.mkUpdates None (Some k) None None)) t).
Proof.
  intros Hu Hf Hk Hcur. unfold Client.rate.
  replace ((k <? 1)%Z || (5 <? k)%Z) with false
    by (symmetry; apply orb_false_iff; split; apply Z.ltb_ge; lia).
  rewrite Hu. apply updateOwned_found; [exact Hf | | exact Hcur].
  unfold Client.ratingAllowed. cbn.
  apply andb_true_iff; split; apply Z.leb_le; lia.
Qed.

(** X16. [rate] by the signed-in owner, with a rating from 1 to 5, sets the
    rating of that row and no other column, returns the row as [getById]
    then reads it, and keeps every other row; a later rating replaces the
    earlier one, as if the earlier call had not been made. *)
Theorem X16_rate_sets_only_the_rating (env : Client.Env) (id : jsstring)
    (k : Z) (t : Table) (user : User) (current : Row) :
  Queries.getCurrentUser (Client.session env) = Some user ->
  Queries.update_fails (Client.session env) = false ->
  (1 <= k <= 5)%Z ->
  filter (Queries.owns user id) t = [current] ->
  exists data t',
    Client.rate env id k t = (Ok data, t')
    /\ data = mkRow (row_id current) (user_id current) (row_suggestions current)
                (input_data current) (created_at current) (viewed_at current)
                (completed_suggestions current) (Some k)
    /\ (Queries.select_fails (Client.session env) = false ->
        Queries.getById (Client.session env) id t' = Ok (Some data))
    /\ (forall r, Queries.owns user id r = false -> In r t' <-> In r t)
    /\ forall env' k',
         Queries.getCurrentUser (Client.session env') = Some user ->
         Queries.update_fails (Client.session env') = false ->
         (1 <= k' <= 5)%Z ->
         Client.rate env' id k' t' = Client.rate env' id k' t.
Proof.
  intros Hu Hf Hk Hcur.
  set (f := Client.applyUpdates (Client.mkUpdates None (Some k) None None)).
  assert (Hcur' : filter (Queries.owns user id) (Client.onOwned user id f t)
                  = [f current])
    by (rewrite onOwned_filter by reflexivity; now rewrite Hcur).
  exists (f current), (Client.onOwned user id f t).
  split; [exact (rate_found env user id k t current Hu Hf Hk Hcur)|].
  split; [reflexivity|]. split; [|split].
  - intros Hs. unfold Queries.getById. now rewrite Hu, Hs, Hcur'.
  - intros r Hr. now apply onOwned_In.
  - intros env' k' Hu' Hf' Hk'.
    rewrite (rate_found env' user id k' _ (f current) Hu' Hf' Hk' Hcur').
    rewrite (rate_found env' user id k' t current Hu' Hf' Hk' Hcur).
    f_equal. now apply onOwned_again.
Qed.

Lemma X16_witness :
  exists data t',
    Client.rate (Client.mkEnv Samples.session 0 [] false false) (js "row-1") 4
      [Samples.storedRow]
    = (Ok data, t')
    /\ rating data = Some 4%Z.
Proof.
  destruct (X16_rate_sets_only_the_rating
              (Client.mkEnv Samples.session 0 [] false false) (js "row-1") 4
              [Samples.storedRow] Samples.alice Samples.storedRow
              eq_refl eq_refl ltac:(lia) eq_refl)
    as (data & t' & Hrate & Hdata & _).
  exists data, t'. split; [exact Hrate|]. now rewrite Hdata.
Defined.

(** X17. A call that names a row the signed-in user has none of (no such
    id, or the row of another user) leaves the table as it is; [update],
    [rate], [markComplete] and [markViewed] throw, and [delete] alone
    reports nothing unless the table answers with an error. *)
Theorem X17_call_on_a_row_not_owned (env : Client.Env) (m : Client.Mutation)
    (id : jsstring) (t : Table) (user : User) :
  Queries.getCurrentUser (Client.session env) = Some user ->
  Client.target m = Some id ->
  filter (Queries.owns user id) t = [] ->
  snd (Client.perform env m t) = t
  /\ (fst (Client.perform env m t) = None
      <-> m = Client.Delete id /\ Client.delete_error env = false).
Proof.
  intros Hu Hm Hnone.
  destruct m as [s i | id' s k c | id' | id' k | id' sid notes | id'];
    cbn [Client.target] in Hm; try discriminate; injection Hm as ->;
    cbn [Client.perform snd fst].
  - unfold Client.update. rewrite Hu, (updateOwned_missing _ _ _ _ _ Hnone).
    cbn [fst snd]. split; [reflexivity|]. split; [discriminate|].
    intros [? _]. discriminate.
  - unfold Client.delete. rewrite Hu.
    destruct (Client.delete_error env); cbn [fst snd].
    + split; [reflexivity|]. split; [discriminate|]. intros [_ ?]. discriminate.
    + split; [apply delete_reaches_nothing|]. tauto.
  - unfold Client.rate. destruct ((k <? 1)%Z || (5 <? k)%Z); cbn [fst snd].
    + split; [reflexivity|]. split; [discriminate|]. intros [? _]. discriminate.
    + rewrite Hu, (updateOwned_missing _ _ _ _ _ Hnone). cbn [fst snd].
      split; [reflexivity|]. split; [discriminate|]. intros [? _]. discriminate.
  - unfold Queries.markComplete, Queries.getById. rewrite Hu.
    destruct (Queries.select_fails (Client.session env)); [|rewrite Hnone];
      cbn [fst snd]; (split; [reflexivity|]); (split; [discriminate|]);
      intros [? _]; discriminate.
  - unfold Client.markViewed. rewrite Hu, (updateOwned_missing _ _ _ _ _ Hnone).
    cbn [fst snd]. split; [reflexivity|]. split; [discriminate|].
    intros [? _]. discriminate.
Qed.

Lemma X17_witness :
  snd (Client.perform
         (Client.mkEnv (Queries.mkEnv (Some Samples.bob) Samples.noonText false false)
            0 [] false false)
         (Client.Rate (js "row-1") 5) [Samples.storedRow])
  = [Samples.storedRow].
Proof.
  exact (proj1 (X17_call_on_a_row_not_owned
                  (Client.mkEnv
                     (Queries.mkEnv (Some Samples.bob) Samples.noonText false false)
                     0 [] false false)
                  (Client.Rate (js "row-1") 5) (js "row-1") [Samples.storedRow]
                  Samples.bob eq_refl eq_refl eq_refl)).
Defined.

Lemma orderDesc_snoc (l : list Row) (d : Row) :
  (forall r, In r l -> (created_at r < created_at d)%Z) ->
  Client.orderDesc (l ++ [d]) = d :: Client.orderDesc l.
Proof.
  induction l as [|r l IH]; intros H; [reflexivity|].
  cbn [app Client.orderDesc]. rewrite IH by (intros x Hx; apply H; now right).
  cbn [Client.insertDesc].
  replace (created_at d <=? created_at r)%Z with false; [reflexivity|].
  symmetry. apply Z.leb_gt, H. now left.
Qed.

(** X18. [create] by a signed-in user, with suggestions and input that are
    not [null], appends one row: of that user, with the suggestions and the
    input given, not viewed, nothing completed, no rating.  When the id is
    new to the table, [getById] reads that row back; when its instant is
    later than those of the user's rows, [getLatest] gives it and [getAll]
    lists it first, before what it listed before.  A [null] for the
    suggestions or for the input is refused: the call throws and the table
    is as it was. *)
Theorem X18_create_then_read (env : Client.Env) (suggestions inputData : json)
    (t : Table) (user : User) :
  Queries.getCurrentUser (Client.session env) = Some user ->
  Client.insert_error env = false ->
  Queries.select_fails (Client.session env) = false ->
  (suggestions <> JNull -> inputData <> JNull ->
   exists data,
     Client.create env suggestions inputData t = (Ok data, t ++ [data])
     /\ data = mkRow (Client.fresh_id env) (userId user) suggestions inputData
                 (Client.clock env) None (Some []) None
     /\ ((forall r, In r t -> row_id r <> Client.fresh_id env) ->
         Queries.getById (Client.session env) (Client.fresh_id env) (t ++ [data])
         = Ok (Some data))
     /\ ((forall r, In r t -> Client.belongs user r = true ->
                    (created_at r < Client.clock env)%Z) ->
         Client.getLatest env (t ++ [data]) = Ok (Some data)
         /\ exists before,
              Client.getAll env t = Ok before
              /\ Client.getAll env (t ++ [data]) = Ok (data :: before)))
  /\ (suggestions = JNull \/ inputData = JNull ->
      Client.create env suggestions inputData t
      = (Throw (Rejected (js "insert")), t)).
Proof.
  intros Hu Hi Hs. split.
  - intros Hsn Hin.
    assert (Hnn : Client.isNull suggestions || Client.isNull inputData = false).
    { destruct suggestions; destruct inputData; try reflexivity;
        try (now destruct Hsn); now destruct Hin. }
    eexists. unfold Client.create. rewrite Hu, Hi. cbn [orb]. rewrite Hnn.
    split; [reflexivity|]. split; [reflexivity|].
    set (data := mkRow _ _ _ _ _ _ _ _). split.
    + intros Hfresh. unfold Queries.getById. rewrite Hu, Hs, filter_app.
      assert (Hnone : filter (Queries.owns user (Client.fresh_id env)) t = []).
      { apply filter_none. intros r Hr. unfold Queries.owns.
        destruct (Js.eqb (row_id r) (Client.fresh_id env)) eqn:E; [|reflexivity].
        apply eqb_eq in E. now apply Hfresh in Hr. }
      rewrite Hnone. cbn [filter app]. unfold Queries.owns.
      cbn [data row_id user_id]. now rewrite !eqb_refl.
    + intros Hnew.
      assert (Hord : Client.orderDesc (filter (Client.belongs user) (t ++ [data]))
                     = data :: Client.orderDesc (filter (Client.belongs user) t)).
      { rewrite filter_app. cbn [filter]. unfold Client.belongs at 2.
        cbn [data user_id]. rewrite eqb_refl. apply orderDesc_snoc.
        intros r Hr. apply filter_In in Hr as [Hr Hb]. now apply Hnew. }
      unfold Client.getLatest, Client.getAll. rewrite Hu, Hs, Hord.
      split; [reflexivity|]. eexists. split; reflexivity.
  - intros Hnull. unfold Client.create. rewrite Hu, Hi. cbn [orb].
    destruct Hnull as [-> | ->]; cbn [Client.isNull orb]; [reflexivity|].
    now rewrite orb_true_r.
Qed.

Lemma X18_witness :
  exists data,
    Client.create (Client.mkEnv Samples.session (Samples.noon + 60000)
                     (js "row-2") false false)
      (suggestionsJson Samples.goodItems)
      (inputJson (Samples.requestInput Samples.plain))
      [Samples.storedRow]
    = (Ok data, [Samples.storedRow; data])
    /\ Queries.getById Samples.session (js "row-2") [Samples.storedRow; data]
       = Ok (Some data)
    /\ Client.getLatest (Client.mkEnv Samples.session (Samples.noon + 60000)
                           (js "row-2") false false)
         [Samples.storedRow; data]
       = Ok (Some data).
Proof.
  destruct (X18_create_then_read
              (Client.mkEnv Samples.session (Samples.noon + 60000)
                 (js "row-2") false false)
              (suggestionsJson Samples.goodItems)
              (inputJson (Samples.requestInput Samples.plain))
              [Samples.storedRow] Samples.alice
              eq_refl eq_refl eq_refl)
    as [Hcreate _].
  destruct (Hcreate ltac:(discriminate) ltac:(discriminate))
    as (data & Hdata & _ & Hread & Hlatest).
  exists data. split; [exact Hdata|]. split.
  - apply Hread. intros r [<- | []]. discriminate.
  - apply Hlatest. intros r [<- | []] _. vm_compute. reflexivity.
Defined.

End MutationFacts.

(** ** The handler and the queries on one table *)

Section StoredFacts.

Variable JSON_parse : jsstring -> option json.

(** X19. After an answer of the generation path whose insert succeeded, the
    user's [getLatest] gives the record just stored: it is of that user,
    holds the input as validated, and its suggestions are those of the
    answer.  The rate limit is what makes it the latest: the path is taken
    only when every record of the user is more than a day old. *)
Theorem X19_generated_record_is_the_latest (env : Route.Env) (w : World)
    (validated : AiPromptInput) (user : User) (content : option jsstring)
    (reader : Client.Env) :
  authenticated env validated user ->
  recentRows env user (table w) = [] ->
  cachedRows env validated (table w) = [] ->
  openai_create env (buildProfileSuggestionPrompt validated) = Ok content ->
  insert_fails env = false ->
  Queries.getCurrentUser (Client.session reader) = Some user ->
  Queries.select_fails (Client.session reader) = false ->
  exists data,
    Client.getLatest reader (table (snd (POST JSON_parse env w))) = Ok (Some data)
    /\ user_id data = userId user
    /\ input_data data = inputJson validated
    /\ arrow (body (fst (POST JSON_parse env w))) (js "suggestions")
       = Some (row_suggestions data).
Proof.
  intros Ha Hr Hc Hg Hi Hu Hs.
  rewrite (POST_generated JSON_parse env w validated user content Ha Hr Hc Hg).
  rewrite Hi. cbn [fst snd table].
  set (items := parseSuggestions JSON_parse _).
  exists (newRow env user items validated).
  split; [|repeat split].
  unfold Client.getLatest. rewrite Hu, Hs, filter_app. cbn [filter].
  unfold Client.belongs at 2. cbn [newRow user_id]. rewrite eqb_refl.
  rewrite orderDesc_snoc; [reflexivity|].
  intros r Hin. apply filter_In in Hin as [Hin Hb].
  unfold newRow. cbn [created_at]. unfold recentRows in Hr.
  pose proof (proj1 (filter_none _ _) Hr r Hin) as Hold. cbv beta in Hold.
  unfold Client.belongs in Hb. rewrite Hb in Hold. cbn [andb] in Hold.
  apply Z.leb_gt in Hold. unfold day in Hold. lia.
Qed.

End StoredFacts.

Lemma X19_witness :
  exists data,
    Client.getLatest (Client.mkEnv Samples.session 0 [] false false)
      (table (snd (POST Json.JSON_parse (Samples.firstCall Samples.plain)
                     Samples.emptyWorld)))
    = Ok (Some data)
    /\ user_id data = userId Samples.alice
    /\ input_data data = inputJson (Samples.requestInput Samples.plain)
    /\ arrow (body (fst (POST Json.JSON_parse (Samples.firstCall Samples.plain)
                           Samples.emptyWorld)))
         (js "suggestions")
       = Some (row_suggestions data).
Proof.
  apply (X19_generated_record_is_the_latest Json.JSON_parse
           (Samples.firstCall Samples.plain) Samples.emptyWorld
           (Samples.requestInput Samples.plain) Samples.alice
           (Some Samples.goodContent)
           (Client.mkEnv Samples.session 0 [] false false));
    try reflexivity; apply sample_authenticated; reflexivity.
Defined.

(** ** The form submission *)

Section FrontendFacts.

Variable JSON_parse : jsstring -> option json.

Lemma requestBody_fields (s : Frontend.State) :
  exists members,
    Frontend.requestBody s = JObj members
    /\ field (js "userBackground") members = Some (JStr (Frontend.userBackground s))
    /\ field (js "currentGoals") members
       = match Frontend.currentGoals s with
         | [] => None
         | g => Some (JStr g)
         end
    /\ field (js "experienceLevel") members
       = Some (JStr (levelName (Frontend.experienceLevel s))).
Proof.
  eexists. split; [reflexivity|].
  destruct (Frontend.currentGoals s) as [|c g]; repeat split; reflexivity.
Qed.

Lemma levelName_inj (a b : ExperienceLevel) : levelName a = levelName b -> a = b.
Proof. destruct a, b; intros H; try reflexivity; discriminate. Qed.

(** What the handler's validation makes of a body the form sends. *)
Lemma requestBody_validated (s : Frontend.State) (v : AiPromptInput) :
  validate aiPromptSchema (Frontend.requestBody s) = Ok v
  <-> 10 <= length (Frontend.userBackground s) <= 2000
      /\ length (Frontend.currentGoals s) <= 1000
      /\ v = mkAiPromptInput
               (trim (Frontend.userBackground s))
               (match Frontend.currentGoals s with
                | [] => None
                | g => Some (trim g)
                end)
               (Frontend.experienceLevel s).
Proof.
  rewrite aiPromptSchema_accepts.
  destruct (requestBody_fields s) as (members & Hm & Hb & Hg & Hl). split.
  - intros (members' & bg & Hm' & Hb' & Hlen & Hv & Hgoals & Hlevel).
    rewrite Hm in Hm'. injection Hm' as <-.
    rewrite Hb in Hb'. injection Hb' as <-.
    rewrite Hl in Hlevel. injection Hlevel as Hlevel.
    apply levelName_inj in Hlevel.
    split; [exact Hlen|]. rewrite Hg in Hgoals.
    destruct v as [vb vg vl]. cbn in Hv, Hlevel, Hgoals. subst vb vl.
    destruct (Frontend.currentGoals s) as [|c g].
    + destruct Hgoals as [[_ ->] | (goals & [=] & _)]. split; [cbn; lia | reflexivity].
    + destruct Hgoals as [[[=] _] | (goals & [= <-] & Hlen' & ->)]. now split.
  - intros (Hlen & Hlen' & ->). exists members, (Frontend.userBackground s).
    split; [exact Hm|]. split; [exact Hb|]. split; [exact Hlen|].
    split; [reflexivity|]. split; [|exact Hl]. rewrite Hg. cbn [currentGoals].
    destruct (Frontend.currentGoals s) as [|c g]; [now left|].
    right. now exists (c :: g).
Qed.

(** X20. What [handleSubmit] leaves.  The three inputs are never changed.
    With a background of fewer than 10 code units nothing is sent: only the
    error is set, and the suggestions shown before stay.  Otherwise one
    request is sent, with the body made of the inputs, [isLoading] ends
    false, and either there is no error and the suggestions are what the
    answer carried, or there is an error and the suggestions are empty. *)
Theorem X20_handleSubmit_outcome (env : Frontend.Env) (s : Frontend.State) :
  let s' := fst (Frontend.handleSubmit env s) in
  let sent := snd (Frontend.handleSubmit env s) in
  (Frontend.userBackground s', Frontend.currentGoals s', Frontend.experienceLevel s')
  = (Frontend.userBackground s, Frontend.currentGoals s, Frontend.experienceLevel s)
  /\ (length (Frontend.userBackground s) < 10 ->
      sent = None
      /\ Frontend.error s'
         = Some (Frontend.Text (js "Please provide more details (at least 10 characters)"))
      /\ Frontend.suggestions s' = Frontend.suggestions s
      /\ Frontend.isLoading s' = Frontend.isLoading s)
  /\ (10 <= length (Frontend.userBackground s) ->
      sent = Some (Frontend.requestBody s)
      /\ Frontend.isLoading s' = false
      /\ ((Frontend.error s' = None
           /\ Frontend.request env (Frontend.requestBody s)
              = inr (Frontend.suggestions s'))
          \/ (exists err,
                Frontend.request env (Frontend.requestBody s) = inl err
                /\ Frontend.error s' = Some (Frontend.shown err)
                /\ Frontend.suggestions s' = Some (JArr [])))).
Proof.
  cbv zeta. unfold Frontend.handleSubmit.
  destruct (length (Frontend.userBackground s) <? 10) eqn:E.
  - apply Nat.ltb_lt in E. split; [reflexivity|]. split; [|lia].
    intros _. repeat split.
  - apply Nat.ltb_ge in E. cbv zeta.
    destruct (Frontend.request env (Frontend.requestBody s)) as [err|v] eqn:Er.
    + split; [reflexivity|]. split; [lia|]. intros _.
      split; [reflexivity|]. split; [reflexivity|]. right. now exists err.
    + split; [reflexivity|]. split; [lia|]. intros _.
      split; [reflexivity|]. split; [reflexivity|]. now left.
Qed.

(** X21. The check of the form is weaker than the validation of the
    handler.  The handler accepts the body the form makes exactly when the
    background has 10 to 2000 code units and the goals at most 1000, and
    then works on the two texts trimmed, empty goals being left out; so
    whatever the form holds back the handler would refuse, and a background
    of more than 2000 code units is sent and refused. *)
Theorem X21_form_check_is_weaker (env : Frontend.Env) (s : Frontend.State) :
  (forall v,
     validate aiPromptSchema (Frontend.requestBody s) = Ok v
     <-> 10 <= length (Frontend.userBackground s) <= 2000
         /\ length (Frontend.currentGoals s) <= 1000
         /\ v = mkAiPromptInput
                  (trim (Frontend.userBackground s))
                  (match Frontend.currentGoals s with
                   | [] => None
                   | g => Some (trim g)
                   end)
                  (Frontend.experienceLevel s))
  /\ (snd (Frontend.handleSubmit env s) = None ->
      forall v, validate aiPromptSchema (Frontend.requestBody s) <> Ok v)
  /\ (2000 < length (Frontend.userBackground s) ->
      snd (Frontend.handleSubmit env s) = Some (Frontend.requestBody s)
      /\ forall v, validate aiPromptSchema (Frontend.requestBody s) <> Ok v).
Proof.
  split; [intros v; apply requestBody_validated|]. split.
  - unfold Frontend.handleSubmit.
    destruct (length (Frontend.userBackground s) <? 10) eqn:E; [|discriminate].
    apply Nat.ltb_lt in E. intros _ v Hv.
    apply requestBody_validated in Hv. lia.
  - intros Hlong. split.
    + unfold Frontend.handleSubmit.
      replace (length (Frontend.userBackground s) <? 10) with false
        by (symmetry; apply Nat.ltb_ge; lia).
      reflexivity.
    + intros v Hv. apply requestBody_validated in Hv. lia.
Qed.



End FrontendFacts.


(** ** The prompt *)

Section PromptFacts.

Lemma trimEnd_whitespace_last (s : jsstring) (w : N) :
  isWhiteSpace w = true -> trimEnd (s ++ [w]) = trimEnd s.
Proof.
  intros Hw. unfold trimEnd. rewrite rev_app_distr. cbn [rev app trimStart].
  now rewrite Hw.
Qed.

(** [trim] of a text between two whitespace characters, the text starting
    and ending with other characters. *)
Lemma trim_framed (w1 w2 c d : N) (s : jsstring) :
  isWhiteSpace w1 = true -> isWhiteSpace w2 = true ->
  isWhiteSpace c = false -> isWhiteSpace d = false ->
  trim (w1 :: (c :: s ++ [d]) ++ [w2]) = c :: s ++ [d].
Proof.
  intros H1 H2 Hc Hd. unfold trim. cbn [trimStart]. rewrite H1.
  cbn [app trimStart]. rewrite Hc.
  change (c :: (s ++ [d]) ++ [w2]) with ((c :: s ++ [d]) ++ [w2]).
  rewrite (trimEnd_whitespace_last _ _ H2).
  pose proof (trim_bounded c d s Hc Hd) as Hb. unfold trim in Hb.
  cbn [trimStart] in Hb. now rewrite Hc in Hb.
Qed.

(** X24. The prompt is the template with the level, the background and the
    goals put in as they are: the final [trim] removes the line break at
    each end of the template and nothing of what the user wrote.  The line
    of goals is there exactly for goals that are given and not empty. *)
Theorem X24_prompt_is_the_filled_template (data : AiPromptInput) :
  buildProfileSuggestionPrompt data
  = promptOpening (experienceLevel data) ++ userBackground data
    ++ [newline] ++ goalsLine (currentGoals data)
    ++ [newline; newline] ++ promptInstructions.
Proof.
  unfold buildProfileSuggestionPrompt.
  fold (goalsLine (currentGoals data)).
  set (level := experienceLevel data). set (background := userBackground data).
  set (goals := goalsLine (currentGoals data)).
  match goal with
  | |- trim ?lines = ?filled =>
    assert (Hlines : lines = newline :: filled ++ [newline])
  end.
  { unfold promptOpening, promptInstructions. cbn [join app].
    repeat (progress (rewrite <- ?app_assoc; cbn [app])). reflexivity. }
  rewrite Hlines. clear Hlines.
  set (rest := removelast promptInstructions).
  assert (Hclose : promptInstructions = rest ++ [rbrace])
    by (vm_compute; reflexivity).
  set (start := tl (promptOpening level)).
  assert (Hopen : promptOpening level = 73%N :: start) by reflexivity.
  rewrite Hopen, Hclose.
  replace ((73%N :: start) ++ background ++ [newline] ++ goals
           ++ [newline; newline] ++ rest ++ [rbrace])
    with (73%N :: (start ++ background ++ [newline] ++ goals
                   ++ [newline; newline] ++ rest) ++ [rbrace])
    by (cbn [app]; repeat (progress (rewrite <- ?app_assoc; cbn [app]));
        reflexivity).
  apply trim_framed; reflexivity.
Qed.

End PromptFacts.

(** ** The three utilities of the schemas *)

Section UtilityFacts.

Lemma setError_length (k : jsstring) (m : Message)
    (errors : list (jsstring * Message)) :
  length (Forms.setError k m errors) <= S (length errors).
Proof.
  induction errors as [|[k' m'] errors IH]; cbn; [lia|].
  destruct (Js.eqb k k'); cbn; lia.
Qed.

Lemma collectErrors_length (issues : list Issue) :
  length (Forms.collectErrors issues) <= length issues.
Proof.
  unfold Forms.collectErrors.
  assert (H : forall errors,
            length (fold_left
                      (fun errors err =>
                         Forms.setError (Forms.pathKey (path err)) (message err) errors)
                      issues errors)
            <= length issues + length errors).
  { induction issues as [|i issues IH]; intros errors; cbn [fold_left length];
      [lia|].
    specialize (IH (Forms.setError (Forms.pathKey (path i)) (message i) errors)).
    pose proof (setError_length (Forms.pathKey (path i)) (message i) errors).
    lia. }
  specialize (H []). cbn in H. lia.
Qed.

Lemma collectErrors_keys (issues : list Issue) (k : jsstring) :
  Forms.lookupError k (Forms.collectErrors issues) <> None
  <-> exists err, In err issues /\ Forms.pathKey (path err) = k.
Proof.
  unfold Forms.collectErrors. rewrite lookupError_fold. cbn [Forms.lookupError].
  destruct (find _ (rev issues)) as [err|] eqn:E.
  - apply find_some in E as [Hin Hk]. apply eqb_eq in Hk.
    split; [|discriminate]. intros _. exists err.
    split; [now apply in_rev | now symmetry].
  - split; [congruence|]. intros (err & Hin & Hk). exfalso.
    apply in_rev in Hin.
    pose proof (find_none _ _ E err Hin) as Hno. cbv beta in Hno.
    rewrite <- Hk, eqb_refl in Hno. discriminate.
Qed.

(** X25. [validate], [validateWithErrors], [safeParse] and [schema.parse]
    agree on every schema and value: one returns the data exactly when the
    others do, with the same data.  When [validate] throws,
    [safeParse] gives [undefined], and the errors of [validateWithErrors]
    have an entry exactly at the paths of the issues, so never more entries
    than issues. *)
Theorem X25_utilities_agree {T : Type} (schema : Schema T) (data : json) :
  (forall v,
     (validate schema data = Ok v <-> Forms.safeParse schema data = Some v)
     /\ (validate schema data = Ok v
         <-> Forms.validateWithErrors schema data = Forms.Valid v)
     /\ (validate schema data = Ok v <-> parse schema data = Ok v))
  /\ (forall e,
        validate schema data = Throw e ->
        exists issues errors,
          e = ValidationFailed issues
          /\ parse schema data = Throw (ZodError issues)
          /\ Forms.safeParse schema data = None
          /\ Forms.validateWithErrors schema data = Forms.Invalid errors
          /\ (forall k,
                Forms.lookupError k errors <> None
                <-> exists err, In err issues /\ Forms.pathKey (path err) = k)
          /\ length errors <= length issues).
Proof.
  unfold validate, parse, Forms.safeParse, Forms.validateWithErrors.
  destruct (schema (Some data)) as [v0|issues]; split.
  - intros v. repeat split; intros [= <-]; reflexivity.
  - intros e [=].
  - intros v. repeat split; discriminate.
  - intros e [= <-]. exists issues, (Forms.collectErrors issues).
    repeat split; try apply collectErrors_keys; try apply collectErrors_length.
Qed.

End UtilityFacts.

(** ** Viewing and rating *)

Section ViewFacts.

Lemma onOwned_compose (user : User) (id : jsstring) (f g : Row -> Row)
    (t : Table) :
  (forall r, Queries.owns user id (f r) = Queries.owns user id r) ->
  Client.onOwned user id g (Client.onOwned user id f t)
  = Client.onOwned user id (fun r => g (f r)) t.
Proof.
  intros Hf. unfold Client.onOwned. rewrite map_map. apply map_ext. intros r.
  destruct (Queries.owns user id r) eqn:E; [|now rewrite E].
  now rewrite Hf, E.
Qed.

Lemma markViewed_found (env : Client.Env) (user : User) (id : jsstring)
    (t : Table) (current : Row) :
  Queries.getCurrentUser (Client.session env) = Some user ->
  Queries.update_fails (Client.session env) = false ->
  filter (Queries.owns user id) t = [current] ->
  Client.markViewed env id t
  = (Ok (Client.applyUpdates
           (Client.mkUpdates None None None (Some (Client.clock env))) current),
     Client.onOwned user id
       (Client.applyUpdates
          (Client.mkUpdates None None None (Some (Client.clock env)))) t).
Proof.
  intros Hu Hf Hcur. unfold Client.markViewed. rewrite Hu.
  now apply updateOwned_found.
Qed.

(** X26. [markViewed] by the signed-in owner sets [viewed_at] of that row
    to the instant of the call and no other column.  It records the last
    view, not the first: a later call replaces the instant.  Viewing and
    rating do not interfere: in either order they leave the same table. *)
Theorem X26_markViewed_records_the_last_view (env : Client.Env)
    (id : jsstring) (t : Table) (user : User) (current : Row) :
  Queries.getCurrentUser (Client.session env) = Some user ->
  Queries.update_fails (Client.session env) = false ->
  filter (Queries.owns user id) t = [current] ->
  exists data t',
    Client.markViewed env id t = (Ok data, t')
    /\ data = mkRow (row_id current) (user_id current) (row_suggestions current)
                (input_data current) (created_at current)
                (Some (Client.clock env))
                (completed_suggestions current) (rating current)
    /\ (forall later,
          Queries.getCurrentUser (Client.session later) = Some user ->
          Queries.update_fails (Client.session later) = false ->
          Client.markViewed later id t' = Client.markViewed later id t)
    /\ (forall rater k,
          Queries.getCurrentUser (Client.session rater) = Some user ->
          Queries.update_fails (Client.session rater) = false ->
          (1 <= k <= 5)%Z ->
          snd (Client.rate rater id k t')
          = snd (Client.markViewed env id (snd (Client.rate rater id k t)))).
Proof.
  intros Hu Hf Hcur.
  set (f := Client.applyUpdates
              (Client.mkUpdates None None None (Some (Client.clock env)))).
  assert (Hcur' : filter (Queries.owns user id) (Client.onOwned user id f t)
                  = [f current])
    by (rewrite onOwned_filter by reflexivity; now rewrite Hcur).
  exists (f current), (Client.onOwned user id f t).
  split; [exact (markViewed_found env user id t current Hu Hf Hcur)|].
  split; [reflexivity|]. split.
  - intros later Hu' Hf'.
    rewrite (markViewed_found later user id _ (f current) Hu' Hf' Hcur').
    rewrite (markViewed_found later user id t current Hu' Hf' Hcur).
    f_equal. now apply onOwned_again.
  - intros rater k Hu' Hf' Hk.
    set (g := Client.applyUpdates (Client.mkUpdates None (Some k) None None)).
    rewrite (rate_found rater user id k _ (f current) Hu' Hf' Hk Hcur').
    rewrite (rate_found rater user id k t current Hu' Hf' Hk Hcur).
    cbn [snd]. fold g.
    assert (Hcur2 : filter (Queries.owns user id) (Client.onOwned user id g t)
                    = [g current])
      by (rewrite onOwned_filter by reflexivity; now rewrite Hcur).
    rewrite (markViewed_found env user id _ (g current) Hu Hf Hcur2).
    cbn [snd]. fold f.
    rewrite !onOwned_compose by reflexivity. reflexivity.
Qed.

Lemma X26_witness :
  exists data t',
    Client.markViewed (Client.mkEnv Samples.session Samples.noon [] false false)
      (js "row-1") [Samples.storedRow]
    = (Ok data, t')
    /\ viewed_at data = Some Samples.noon.
Proof.
  destruct (X26_markViewed_records_the_last_view
              (Client.mkEnv Samples.session Samples.noon [] false false)
              (js "row-1") [Samples.storedRow] Samples.alice Samples.storedRow
              eq_refl eq_refl eq_refl)
    as (data & t' & Hview & Hdata & _).
  exists data, t'. split; [exact Hview|]. now rewrite Hdata.
Defined.

End ViewFacts.

(** ** The parse stage and the first step of the handler *)

Section StageFacts.

Variable JSON_parse : jsstring -> option json.

Lemma accepted_items_filled (elems : list json) (items : list Suggestion) :
  Forall2 (SpecModel.elementOk SpecModel.nonEmptyAsIs) elems items ->
  Forall (fun item => title item <> [] /\ reason item <> [] /\ action item <> [])
         items.
Proof.
  induction 1 as [|e item elems items (members & _ & _ & _ & _ & H) _ IH];
    constructor; [exact H | exact IH].
Qed.

(** X27. The parse stage is total: for every raw text [parseSuggestions]
    returns between 1 and 10 items, each with a title, a reason and an
    action that are not empty; they are the items read from the JSON found
    in the text when that validates, and the fallback item in every other
    case. *)
Theorem X27_parse_stage_is_total (raw : jsstring) :
  1 <= length (parseSuggestions JSON_parse raw) <= 10
  /\ Forall (fun item => title item <> [] /\ reason item <> [] /\ action item <> [])
            (parseSuggestions JSON_parse raw)
  /\ ((exists candidate,
         normalize raw = Some candidate
         /\ validateCandidate JSON_parse candidate
            = Ok (parseSuggestions JSON_parse raw))
      \/ ((exists e, tryParse JSON_parse raw = Throw e)
          /\ parseSuggestions JSON_parse raw = fallback)).
Proof.
  split; [apply parseSuggestions_length|].
  assert (Hfallback : Forall (fun item => title item <> [] /\ reason item <> []
                                          /\ action item <> []) fallback)
    by (repeat constructor; discriminate).
  unfold parseSuggestions, tryParse.
  destruct (normalize raw) as [candidate|].
  - destruct (validateCandidate JSON_parse candidate) as [items|e] eqn:E.
    + split; [|left; now exists candidate].
      apply validateCandidate_Ok in E
        as (v & _ & members & elems & _ & _ & _ & Hall).
      now apply (accepted_items_filled elems).
    + split; [exact Hfallback|]. right. split; [now exists e | reflexivity].
  - split; [exact Hfallback|]. right. split; [eauto | reflexivity].
Qed.

(** X28. Validation is the first thing the handler does with the body: a
    body it refuses leaves the [try] block as the error thrown by
    [validate], with nothing done before, no authentication, no query, no
    completion, and the table as it was.  A background of fewer than 10
    code units is refused with the message that asks for 10 at
    [userBackground], one of more than 2000 with the message of the upper
    bound. *)
Theorem X28_refused_body_stops_the_handler (env : Env) (w : World)
    (members : list (jsstring * json)) (s : jsstring) :
  req_json env = Ok (JObj members) ->
  field (js "userBackground") members = Some (JStr s) ->
  (forall e,
     validate aiPromptSchema (JObj members) = Throw e ->
     tryBlock JSON_parse env w = (Raise e, w))
  /\ (length s < 10 ->
      exists rest,
        validate aiPromptSchema (JObj members)
        = Throw (ValidationFailed
                   (mkIssue [Key (js "userBackground")] backgroundTooShort :: rest)))
  /\ (2000 < length s ->
      exists rest,
        validate aiPromptSchema (JObj members)
        = Throw (ValidationFailed
                   (mkIssue [Key (js "userBackground")] backgroundTooLong :: rest))).
Proof.
  intros Hbody Hf. pose proof (userBackgroundSchema_string s) as Hs.
  split; [|split].
  - intros e He. unfold tryBlock, bind, await. now rewrite Hbody, He.
  - intros Hlen. apply Nat.ltb_lt in Hlen. rewrite Hlen in Hs.
    exact (aiPromptSchema_background_refused members s _ Hf Hs).
  - intros Hlen.
    assert (E1 : (length s <? 10) = false) by (apply Nat.ltb_ge; lia).
    apply Nat.ltb_lt in Hlen. rewrite E1, Hlen in Hs.
    exact (aiPromptSchema_background_refused members s _ Hf Hs).
Qed.

End StageFacts.

Lemma X28_witness :
  tryBlock Json.JSON_parse Samples.shortRequest Samples.emptyWorld
  = (Raise (ValidationFailed
              [mkIssue [Key (js "userBackground")] backgroundTooShort]),
     Samples.emptyWorld).
Proof.
  destruct (X28_refused_body_stops_the_handler Json.JSON_parse
              Samples.shortRequest Samples.emptyWorld Samples.nineChars
              (js "123456789") eq_refl eq_refl)
    as (Hfirst & _).
  apply Hfirst. reflexivity.
Defined.
